(** * AMBuild 2: the graph database and the task master

    A shallow embedding of [ambuild2/database.py] and [ambuild2/task.py].
    Python objects that are shared and mutated (database entries, tasks)
    live in an explicit store; methods are state transformers that either
    return a value or raise, and keep the state reached when they raise. *)

From Stdlib Require Import ZArith Ascii String Floats.SpecFloat.
From stdpp Require Import gmap strings list fin_maps pretty.

Open Scope Z_scope.

(** ** Python results: a state-and-exception monad *)

Inductive exn :=
  | KeyError
  | TypeError
  | AssertionError
  | IntegrityError
  | RecursionError
  | UnboundLocalError
  | OSError (errno : Z)
  | Exception (msg : string).

Inductive res (A : Type) :=
  | Ok (a : A)
  | Raise (e : exn).
Arguments Ok {A} a.
Arguments Raise {A} e.

Definition M (S A : Type) : Type := S -> res A * S.

Definition ret {S A} (a : A) : M S A := fun s => (Ok a, s).
Definition raise {S A} (e : exn) : M S A := fun s => (Raise e, s).
Definition bind {S A B} (m : M S A) (k : A -> M S B) : M S B :=
  fun s => match m s with
           | (Ok a, s') => k a s'
           | (Raise e, s') => (Raise e, s')
           end.
Definition get {S} : M S S := fun s => (Ok s, s).
Definition modify {S} (f : S -> S) : M S unit := fun s => (Ok tt, f s).
Definition assert {S} (b : bool) : M S unit :=
  if b then ret tt else raise AssertionError.

Notation "'let*' x ':=' c1 'in' c2" := (bind c1 (fun x => c2))
  (at level 10, x pattern, c1 at level 100, c2 at level 200, only parsing).
Notation "c1 '>>' c2" := (bind c1 (fun _ => c2))
  (at level 100, c2 at level 200, right associativity, only parsing).

(** [for x in xs: body(x)] *)
Fixpoint for_each {S A} (xs : list A) (body : A -> M S unit) : M S unit :=
  match xs with
  | [] => ret tt
  | x :: xs' => body x >> for_each xs' body
  end.

(** [ENOENT], the only [errno] the sources test for. *)
Definition ENOENT : Z := 2.
Definition EISDIR : Z := 21.
Definition ENOTDIR : Z := 20.
Definition ENOTEMPTY : Z := 39.

(** ** The filesystem seen through [os] and [os.path] *)

(** Modification times are Python floats. *)
Definition float := spec_float.
Definition f0 : float := S754_zero false.
(** A time of seven seconds, for the examples. *)
Definition t7 : float := S754_finite false 7 0.

(** Truthiness of a float: only the zeros are falsy. *)
Definition float_truthy (x : float) : bool :=
  match x with S754_zero _ => false | _ => true end.

Definition is_nan (x : float) : bool :=
  match x with S754_nan => true | _ => false end.

(** Double precision: 53 bits of mantissa, infinities at exponent 1024. *)
Definition float_of_int (n : Z) : float := binary_normalize 53 1024 n 0 false.
Definition float_mul (x y : float) : float := SFmul 53 1024 x y.

(** The literal [1.5]. *)
Definition one_and_a_half : float := S754_finite false 6755399441055744 (-52).

(** [int(x)]: the value of a finite double truncated towards zero.  On an
    infinity or a NaN [int] raises; neither comes out of a product with a
    processor count, which is a C integer, and the model answers 0
    there. *)
Definition int_of_float (x : float) : Z :=
  match x with
  | S754_finite s m e =>
      cond_Zopp s (if 0 <=? e then Z.pos m * 2 ^ e
                   else Z.quot (Z.pos m) (2 ^ (- e)))
  | _ => 0
  end.

Inductive fsentry :=
  | FsFile (mtime : float)
  | FsDir (mtime : float).

Definition fs_mtime (e : fsentry) : float :=
  match e with FsFile t | FsDir t => t end.

Module os.
(** [os.path.getmtime]: the file's time, or [OSError(ENOENT)]. *)
Definition getmtime (fs : gmap string fsentry) (p : string) : res float :=
  match fs !! p with
  | Some e => Ok (fs_mtime e)
  | None => Raise (OSError ENOENT)
  end.

Definition exists_ (fs : gmap string fsentry) (p : string) : bool :=
  bool_decide (is_Some (fs !! p)).

(** [os.unlink]: removes a file; a missing path is [ENOENT], a directory
    cannot be unlinked. *)
Definition unlink (fs : gmap string fsentry) (p : string)
  : res unit * gmap string fsentry :=
  match fs !! p with
  | Some (FsFile _) => (Ok tt, delete p fs)
  | Some (FsDir _) => (Raise (OSError EISDIR), fs)
  | None => (Raise (OSError ENOENT), fs)
  end.

Definition isabs (p : string) : bool :=
  match p with
  | String c _ => bool_decide (c = "/"%char)
  | EmptyString => false
  end.

(** [s.rstrip('/')] *)
Fixpoint rstrip_slash (s : string) : string :=
  match s with
  | EmptyString => EmptyString
  | String c r =>
      match rstrip_slash r with
      | EmptyString =>
          if bool_decide (c = "/"%char) then EmptyString
          else String c EmptyString
      | r' => String c r'
      end
  end.

(** [p[:i], p[i:]] for [i = p.rfind('/') + 1]. *)
Fixpoint rsplit_slash (p : string) : string * string :=
  match p with
  | EmptyString => (EmptyString, EmptyString)
  | String c r =>
      match rsplit_slash r with
      | (EmptyString, t) =>
          if bool_decide (c = "/"%char) then (String c EmptyString, t)
          else (EmptyString, String c t)
      | (h, t) => (String c h, t)
      end
  end.

(** [os.path.split]: the head loses its trailing slashes unless it is
    made of slashes only. *)
Definition split (p : string) : string * string :=
  let '(head, tail) := rsplit_slash p in
  (match rstrip_slash head with
   | EmptyString => head
   | stripped => stripped
   end, tail).

(** Whether some path of the filesystem lies inside the directory [p]. *)
Definition has_entries (fs : gmap string fsentry) (p : string) : bool :=
  existsb (fun kv => String.prefix (p ++ "/") (fst kv)) (map_to_list fs).

(** [os.rmdir]: removes an empty directory. *)
Definition rmdir (fs : gmap string fsentry) (p : string)
  : res unit * gmap string fsentry :=
  match fs !! p with
  | Some (FsDir _) =>
      if has_entries fs p then (Raise (OSError ENOTEMPTY), fs)
      else (Ok tt, delete p fs)
  | Some (FsFile _) => (Raise (OSError ENOTDIR), fs)
  | None => (Raise (OSError ENOENT), fs)
  end.
End os.

(** ** Node types and command payloads ([ambuild2/nodetypes.py], [util]) *)

(** Modelled from the spec: the module [nodetypes] is not among the
    sources; the closed set of node types is the one of the data model. *)
Inductive NodeType :=
  | Source | Output | Mkdir | Group | Command | Cxx | Copy | Symlink.

#[global] Instance NodeType_eq_dec : EqDecision NodeType.
Proof. solve_decision. Defined.

(** Modelled from the spec: [Entry.isCommand] of [nodetypes]; the command
    category is [Command], [Cxx], [Copy] and [Symlink]. *)
Definition isCommandType (t : NodeType) : bool :=
  match t with
  | Command | Cxx | Copy | Symlink => true
  | Source | Output | Mkdir | Group => false
  end.

(** The data a front-end attaches to a command: nothing, an argument
    vector, or the dictionary [{'argv': ..., 'type': ...}] of a compile. *)
Inductive payload :=
  | PNone
  | PArgv (argv : list string)
  | PCxx (cc_type : string) (argv : list string).

#[global] Instance payload_eq_dec : EqDecision payload.
Proof. solve_decision. Defined.

(** Truthiness: [None] and the empty list are falsy, a two-key dictionary
    is not. *)
Definition payload_truthy (d : payload) : bool :=
  match d with
  | PNone | PArgv [] => false
  | _ => true
  end.

(** What [entry.blob] can hold.  Modelled from the spec:
    [util.CompatPickle], [util.BlobType] and [util.Unpickle] are not among
    the sources; a pickled payload is an opaque bytes object, written
    [BPickled d] for the bytes that unpickle to [d]. *)
Inductive blobval :=
  | BRaw (d : payload)
  | BPickled (d : payload).

(** [entry.blob == data]: a bytes object never equals [None], a list or a
    dictionary. *)
Definition blob_eq_data (b : blobval) (data : payload) : bool :=
  match b with
  | BRaw d => bool_decide (d = data)
  | BPickled _ => false
  end.

(** ** The database ([ambuild2/database.py]) *)

Module database.

(** Entries are Python objects: they are named by their address. *)
Definition loc := nat.

Record Entry := mkEntry {
  e_id : Z;
  e_type : NodeType;
  e_path : option string;
  e_blob : blobval;
  e_folder : option loc;
  e_stamp : option float;
  e_dirty : Z;
  e_generated : bool;
  (* memoised adjacency; a Python set, or None *)
  e_outgoing : option (list loc);
  e_weak_inputs : option (list loc);
  e_strong_inputs : option (list loc);
  e_dynamic_inputs : option (list loc)
}.

Definition isCommand (e : Entry) : bool := isCommandType (e_type e).

Definition with_blob (e : Entry) ty folder blob dirty : Entry :=
  mkEntry (e_id e) ty (e_path e) blob folder (e_stamp e) dirty
          (e_generated e) (e_outgoing e) (e_weak_inputs e)
          (e_strong_inputs e) (e_dynamic_inputs e).

Definition with_command (e : Entry) ty folder blob : Entry :=
  with_blob e ty folder blob (e_dirty e).

Definition with_stamp (e : Entry) dirty stamp : Entry :=
  mkEntry (e_id e) (e_type e) (e_path e) (e_blob e) (e_folder e) stamp dirty
          (e_generated e) (e_outgoing e) (e_weak_inputs e)
          (e_strong_inputs e) (e_dynamic_inputs e).

Definition with_outgoing (e : Entry) out : Entry :=
  mkEntry (e_id e) (e_type e) (e_path e) (e_blob e) (e_folder e) (e_stamp e)
          (e_dirty e) (e_generated e) out (e_weak_inputs e)
          (e_strong_inputs e) (e_dynamic_inputs e).

(** A row of the table [nodes]; [stamp], [dirty] and [generated] are
    declared [not null]. *)
Record Row := mkRow {
  r_type : NodeType;
  r_stamp : float;
  r_dirty : Z;
  r_generated : Z;
  r_path : option string;
  r_folder : option Z;
  r_data : option payload      (* the pickled payload *)
}.

(** The connection [cn]: the node table keyed by its primary key, the
    autoincrement counter, and the three edge tables of pairs
    (outgoing, incoming). *)
Record Conn := mkConn {
  nodes : gmap Z Row;
  seq : Z;
  edges : list (Z * Z);
  weak_edges : list (Z * Z);
  dynamic_edges : list (Z * Z)
}.

Record State := mkState {
  cn : Conn;
  node_cache_ : gmap Z loc;
  path_cache_ : gmap string loc;
  heap : gmap loc Entry;
  fs : gmap string fsentry;
  con_err : list string;
  con_out : list string
}.

Definition set_cn (f : Conn -> Conn) (s : State) : State :=
  mkState (f (cn s)) (node_cache_ s) (path_cache_ s) (heap s) (fs s)
          (con_err s) (con_out s).
Definition set_node_cache (f : gmap Z loc -> gmap Z loc) (s : State) :=
  mkState (cn s) (f (node_cache_ s)) (path_cache_ s) (heap s) (fs s)
          (con_err s) (con_out s).
Definition set_path_cache (f : gmap string loc -> gmap string loc) (s : State) :=
  mkState (cn s) (node_cache_ s) (f (path_cache_ s)) (heap s) (fs s)
          (con_err s) (con_out s).
Definition set_heap (f : gmap loc Entry -> gmap loc Entry) (s : State) :=
  mkState (cn s) (node_cache_ s) (path_cache_ s) (f (heap s)) (fs s)
          (con_err s) (con_out s).
Definition set_fs (f : gmap string fsentry -> gmap string fsentry) (s : State) :=
  mkState (cn s) (node_cache_ s) (path_cache_ s) (heap s) (f (fs s))
          (con_err s) (con_out s).
Definition log_err (msg : string) (s : State) :=
  mkState (cn s) (node_cache_ s) (path_cache_ s) (heap s) (fs s)
          (con_err s ++ [msg]) (con_out s).
Definition log_out (msg : string) (s : State) :=
  mkState (cn s) (node_cache_ s) (path_cache_ s) (heap s) (fs s)
          (con_err s) (con_out s ++ [msg]).

Definition set_nodes (f : gmap Z Row -> gmap Z Row) (c : Conn) : Conn :=
  mkConn (f (nodes c)) (seq c) (edges c) (weak_edges c) (dynamic_edges c).

(** Reading and writing the fields of an entry object. *)
Definition deref (l : loc) : M State Entry :=
  fun s => match heap s !! l with
           | Some e => (Ok e, s)
           | None => (Raise TypeError, s)
           end.
Definition update_entry (l : loc) (f : Entry -> Entry) : M State unit :=
  modify (set_heap (alter f l)).

(** Allocation of a new entry object. *)
Definition fresh_loc (h : gmap loc Entry) : loc :=
  S (max_list (elements (dom h))).
Definition alloc (e : Entry) : M State loc :=
  fun s => let l := fresh_loc (heap s) in
           (Ok l, set_heap (insert l e) s).

(** *** SQL statements *)

(** [update nodes set dirty = 0, stamp = ? where id = ?]; binding [None],
    or a NaN, which SQLite turns into NULL, to the [not null] column
    [stamp] of an existing row is refused. *)
Definition sql_unmark (stamp : option float) (id : Z) : M State unit :=
  fun s => match nodes (cn s) !! id, stamp with
           | None, _ => (Ok tt, s)
           | Some _, None => (Raise IntegrityError, s)
           | Some r, Some t =>
               if is_nan t then (Raise IntegrityError, s)
               else
                 (Ok tt,
                  set_cn (set_nodes (insert id
                    (mkRow (r_type r) t 0 (r_generated r) (r_path r)
                           (r_folder r) (r_data r)))) s)
           end.

(** [unmark_dirty(self, entry, stamp=None)] *)
Definition unmark_dirty (entry : loc) (stamp : option float) : M State unit :=
  let* e := deref entry in
  let* stamp :=
    (if negb (match stamp with Some t => float_truthy t | None => false end)
     then
       if isCommand e then ret (Some f0)
       else
         let* s := get in
         match (match e_path e with
                | Some p => os.getmtime (fs s) p
                | None => Raise TypeError
                end) with
         | Ok t => ret (Some t)
         | Raise _ =>
             (* traceback.print_exc(); util.con_err(...) *)
             modify (log_err "Could not unmark file as dirty; leaving dirty.")
             >> ret stamp
         end
     else ret stamp) in
  sql_unmark stamp (e_id e) >>
  update_entry entry (fun e => with_stamp e 0 stamp).


(** *** Importing rows into the caches *)

(** Column 5 of a row handed to [import_node]: nothing, a folder id read
    from the table, or (from [add_file]) the folder entry itself. *)
Inductive folder_ref :=
  | FNone
  | FId (id : Z)
  | FEntry (l : loc).

Record irow := mkIrow {
  i_type : NodeType;
  i_stamp : float;
  i_dirty : Z;
  i_generated : Z;
  i_path : option string;
  i_folder : folder_ref;
  i_data : option payload
}.

Definition irow_of_row (r : Row) : irow :=
  mkIrow (r_type r) (r_stamp r) (r_dirty r) (r_generated r) (r_path r)
         (match r_folder r with Some f => FId f | None => FNone end)
         (r_data r).

Definition str_truthy (p : option string) : bool :=
  match p with
  | Some (String _ _) => true
  | _ => false
  end.

(** [import_node(self, id, row)], with the recursive call to [query_node]
    for the folder left open. *)
Definition import_node_with (query_node : Z -> M State loc)
    (id : Z) (row : irow) : M State loc :=
  let* s := get in
  assert (bool_decide (node_cache_ s !! id = None)) >>
  let* folder :=
    match i_folder row with
    | FNone => ret None
    | FEntry l => ret (Some l)
    | FId f => if f =? 0 then ret None
               else let* l := query_node f in ret (Some l)
    end in
  let blob := match i_data row with
              | None => BRaw PNone
              | Some d => BRaw d        (* util.Unpickle(row[6]) *)
              end in
  let* node := alloc (mkEntry id (i_type row) (i_path row) blob folder
                        (Some (i_stamp row)) (i_dirty row)
                        (negb (i_generated row =? 0)) None None None None) in
  modify (set_node_cache (insert id node)) >>
  (if str_truthy (i_path row) then
     let path := default ""%string (i_path row) in
     let* s := get in
     assert (bool_decide (path_cache_ s !! path = None)) >>
     modify (set_path_cache (insert path node))
   else ret tt) >>
  ret node.

(** [query_node(self, id)].  The recursion follows the chain of folders;
    [fuel] bounds its depth, as the interpreter's recursion limit does. *)
Fixpoint query_node_fuel (fuel : nat) (id : Z) : M State loc :=
  fun s =>
    match node_cache_ s !! id with
    | Some l => (Ok l, s)
    | None =>
        match fuel with
        | O => (Raise RecursionError, s)
        | S fuel' =>
            match nodes (cn s) !! id with
            | None => (Raise TypeError, s)   (* fetchone() is None *)
            | Some r =>
                import_node_with (query_node_fuel fuel') id (irow_of_row r) s
            end
        end
    end.

(** A chain of folders without a cycle is no longer than the table. *)
Definition depth (s : State) : nat := S (size (nodes (cn s))).

Definition query_node (id : Z) : M State loc :=
  fun s => query_node_fuel (depth s) id s.

Definition import_node (id : Z) (row : irow) : M State loc :=
  fun s => import_node_with (query_node_fuel (depth s)) id row s.

(** The row with the lower id of two. *)
Definition first_row (ir : Z * Row) (best : option (Z * Row))
    : option (Z * Row) :=
  match best with
  | Some jr => if fst jr <? fst ir then Some jr else Some ir
  | None => Some ir
  end.

(** [select ... from nodes where path = ?], first row: the table is
    scanned in the order of its primary key. *)
Definition sql_select_path (c : Conn) (path : string) : option (Z * Row) :=
  foldr first_row None
        (filter (fun ir => r_path (snd ir) = Some path)
                (map_to_list (nodes c))).

(** [query_path(self, path)] *)
Definition query_path (path : string) : M State (option loc) :=
  let* s := get in
  match path_cache_ s !! path with
  | Some l => ret (Some l)
  | None =>
      match sql_select_path (cn s) path with
      | None => ret None
      | Some (id, r) =>
          let* l := import_node id (irow_of_row r) in ret (Some l)
      end
  end.

(** [insert into nodes ...]: the new row takes the next id of the
    autoincrement sequence. *)
Definition sql_insert_node (r : Row) : M State Z :=
  fun s => let id := seq (cn s) + 1 in
           (Ok id,
            set_cn (fun c => mkConn (<[id := r]> (nodes c)) id (edges c)
                                    (weak_edges c) (dynamic_edges c)) s).

(** [add_file(self, type, path, generated, folder_entry=None)] *)
Definition add_file (type : NodeType) (path : string) (generated : bool)
    (folder_entry : option loc) : M State loc :=
  let* folder_id :=
    match folder_entry with
    | Some f => let* fe := deref f in ret (Some (e_id fe))
    | None => ret None
    end in
  let* id := sql_insert_node
               (mkRow type f0 0 (if generated then 1 else 0) (Some path)
                      folder_id None) in
  import_node id (mkIrow type f0 1 1 (Some path)
                         (match folder_entry with
                          | Some f => FEntry f
                          | None => FNone
                          end) None).

(** [add_output(self, folder_entry, path)] *)
Definition add_output (folder_entry : option loc) (path : string)
    : M State loc :=
  let* s := get in
  assert (bool_decide (path_cache_ s !! path = None)) >>
  assert (negb (os.isabs path)) >>
  match folder_entry with
  | None => ret tt
  | Some f =>
      let* fe := deref f in
      assert (bool_decide (Some (fst (os.split path)) = e_path fe))
  end >>
  add_file Output path false folder_entry.

(** [add_command(self, type, folder, data)] *)
Definition add_command (type : NodeType) (folder : option loc)
    (data : payload) : M State loc :=
  let blob := if payload_truthy data then Some data else None in
  let* folder_id :=
    match folder with
    | Some f => let* fe := deref f in ret (Some (e_id fe))
    | None => ret None
    end in
  let* id := sql_insert_node (mkRow type f0 1 0 None folder_id blob) in
  let* entry := alloc (mkEntry id type None (BRaw data) folder (Some f0) 1
                         false None None None None) in
  modify (set_node_cache (insert id entry)) >>
  ret entry.

(** [update nodes set type, folder, data, dirty where id = ?] *)
Definition sql_update_command (type : NodeType) (folder_id : option Z)
    (blob : option payload) (id : Z) : M State unit :=
  modify (set_cn (set_nodes (alter
    (fun r => mkRow type (r_stamp r) 1 (r_generated r) (r_path r)
                    folder_id blob) id))).

(** [update_command(self, entry, type, folder, data, refactoring)] *)
Definition update_command (entry : loc) (type : NodeType)
    (folder : option loc) (data : payload) (refactoring : bool)
    : M State bool :=
  let blob := if payload_truthy data then Some data else None in
  let eblob := match blob with Some d => BPickled d | None => BRaw PNone end in
  let* e := deref entry in
  if bool_decide (e_type e = type) && bool_decide (e_folder e = folder)
     && blob_eq_data (e_blob e) data
  then ret false
  else if refactoring then
    modify (log_err "Command changed! Old: ") >>
    update_entry entry (fun e => with_command e type folder eblob) >>
    modify (log_err "New: ") >>
    raise (Exception "Refactoring error: command changed")
  else
    let* folder_id :=
      match folder with
      | Some f => let* fe := deref f in ret (Some (e_id fe))
      | None => ret None
      end in
    sql_update_command type folder_id blob (e_id e) >>
    update_entry entry (fun e => with_blob e type folder eblob 1) >>
    ret true.

(** *** Edges *)

Definition set_edges (f : list (Z * Z) -> list (Z * Z)) (c : Conn) : Conn :=
  mkConn (nodes c) (seq c) (f (edges c)) (weak_edges c) (dynamic_edges c).
Definition set_weak_edges (f : list (Z * Z) -> list (Z * Z)) (c : Conn) :=
  mkConn (nodes c) (seq c) (edges c) (f (weak_edges c)) (dynamic_edges c).
Definition set_dynamic_edges (f : list (Z * Z) -> list (Z * Z)) (c : Conn) :=
  mkConn (nodes c) (seq c) (edges c) (weak_edges c) (f (dynamic_edges c)).

(** Adding to a Python set held in an entry; the model lists a set in
    insertion order. *)
Definition set_add (x : loc) (l : list loc) : list loc :=
  if bool_decide (x ∈ l) then l else l ++ [x].

Definition set_truthy (o : option (list loc)) : bool :=
  match o with
  | Some (_ :: _) => true
  | _ => false
  end.

(** [insert into edges (outgoing, incoming) values (?, ?)] under the
    table's [unique (outgoing, incoming)]. *)
Definition sql_insert_edge
    (upd : (list (Z * Z) -> list (Z * Z)) -> Conn -> Conn)
    (tbl : Conn -> list (Z * Z)) (e : Z * Z) : M State unit :=
  let* s := get in
  if bool_decide (e ∈ tbl (cn s)) then raise IntegrityError
  else modify (set_cn (upd (fun l => l ++ [e]))).

(** [add_strong_edge(self, from_entry, to_entry)] *)
Definition add_strong_edge (from_entry to_entry : loc) : M State unit :=
  let* f := deref from_entry in
  let* t := deref to_entry in
  sql_insert_edge set_edges edges (e_id t, e_id f) >>
  (if set_truthy (e_strong_inputs t) then
     update_entry to_entry (fun t =>
       mkEntry (e_id t) (e_type t) (e_path t) (e_blob t) (e_folder t)
               (e_stamp t) (e_dirty t) (e_generated t) (e_outgoing t)
               (e_weak_inputs t)
               (set_add from_entry <$> e_strong_inputs t)
               (e_dynamic_inputs t))
   else ret tt) >>
  let* f := deref from_entry in
  if set_truthy (e_outgoing f) then
    update_entry from_entry (fun f =>
      with_outgoing f (set_add to_entry <$> e_outgoing f))
  else ret tt.

(** [add_dynamic_edge(self, from_entry, to_entry)] *)
Definition add_dynamic_edge (from_entry to_entry : loc) : M State unit :=
  let* f := deref from_entry in
  let* t := deref to_entry in
  sql_insert_edge set_dynamic_edges dynamic_edges (e_id t, e_id f) >>
  (if set_truthy (e_dynamic_inputs t) then
     update_entry to_entry (fun t =>
       mkEntry (e_id t) (e_type t) (e_path t) (e_blob t) (e_folder t)
               (e_stamp t) (e_dirty t) (e_generated t) (e_outgoing t)
               (e_weak_inputs t) (e_strong_inputs t)
               (set_add from_entry <$> e_dynamic_inputs t))
   else ret tt) >>
  let* f := deref from_entry in
  if set_truthy (e_outgoing f) then
    update_entry from_entry (fun f =>
      with_outgoing f (set_add to_entry <$> e_outgoing f))
  else ret tt.

(** [add_weak_edge(self, from_entry, to_entry)] *)
Definition add_weak_edge (from_entry to_entry : loc) : M State unit :=
  let* f := deref from_entry in
  let* t := deref to_entry in
  sql_insert_edge set_weak_edges weak_edges (e_id t, e_id f) >>
  if set_truthy (e_weak_inputs t) then
    update_entry to_entry (fun t =>
      mkEntry (e_id t) (e_type t) (e_path t) (e_blob t) (e_folder t)
              (e_stamp t) (e_dirty t) (e_generated t) (e_outgoing t)
              (set_add from_entry <$> e_weak_inputs t)
              (e_strong_inputs t) (e_dynamic_inputs t))
  else ret tt.

(** [select outgoing from <table> where incoming = ?] *)
Definition sql_select_outgoing (tbl : list (Z * Z)) (id : Z) : list Z :=
  fst <$> filter (fun e => snd e = id) tbl.

(** [node.outgoing.add(entry)] *)
Definition outgoing_add (node entry : loc) : M State unit :=
  update_entry node (fun n =>
    with_outgoing n (Some (set_add entry (default [] (e_outgoing n))))).

(** [query_outgoing(self, node)] *)
Definition query_outgoing (node : loc) : M State (list loc) :=
  let* n := deref node in
  if set_truthy (e_outgoing n) then ret (default [] (e_outgoing n))
  else
    update_entry node (fun n => with_outgoing n (Some [])) >>
    let* s := get in
    for_each (sql_select_outgoing (edges (cn s)) (e_id n))
      (fun outgoing_id =>
         let* entry := query_node outgoing_id in outgoing_add node entry) >>
    let* s := get in
    for_each (sql_select_outgoing (dynamic_edges (cn s)) (e_id n))
      (fun outgoing_id =>
         let* entry := query_node outgoing_id in outgoing_add node entry) >>
    let* n := deref node in
    ret (default [] (e_outgoing n)).

(** *** Deletion *)

(** [delete from <table> where incoming = ? or outgoing = ?] *)
Definition sql_delete_edges_of (id : Z) (tbl : list (Z * Z)) : list (Z * Z) :=
  filter (fun e => ¬ (snd e = id ∨ fst e = id)) tbl.

(** [drop_entry(self, entry)] *)
Definition drop_entry (entry : loc) : M State unit :=
  let* e := deref entry in
  modify (set_cn (set_nodes (delete (e_id e)))) >>
  modify (set_cn (set_edges (sql_delete_edges_of (e_id e)))) >>
  modify (set_cn (set_dynamic_edges (sql_delete_edges_of (e_id e)))) >>
  modify (set_cn (set_weak_edges (sql_delete_edges_of (e_id e)))) >>
  let* s := get in
  match node_cache_ s !! e_id e with
  | None => raise KeyError
  | Some _ => modify (set_node_cache (delete (e_id e)))
  end.

(** [drop_output(self, output)] *)
Definition drop_output (output : loc) : M State unit :=
  let* o := deref output in
  assert (bool_decide (e_type o = Output)) >>
  match e_path o with
  | None => raise TypeError          (* os.path.isabs(None) *)
  | Some path =>
      assert (negb (os.isabs path)) >>
      let* s := get in
      (if os.exists_ (fs s) path
       then modify (log_out "Removing old output: ")
       else ret tt) >>
      let* s := get in
      match os.unlink (fs s) path with
      | (Ok _, fs') => modify (set_fs (fun _ => fs'))
      | (Raise (OSError errno), _) =>
          if bool_decide (errno ≠ ENOENT)
          then modify (log_err "Could not remove file: ") >>
               raise (OSError errno)
          else ret tt
      | (Raise e, _) => raise e
      end >>
      drop_entry output
  end.

(** [drop_command(self, cmd_entry)] *)
Definition drop_command (cmd_entry : loc) : M State unit :=
  let* outs := query_outgoing cmd_entry in
  for_each outs (fun output =>
    let* o := deref output in
    (* Commands should never have dynamic outgoing edges, FWIW. *)
    assert (bool_decide (e_type o = Output)) >>
    drop_output output) >>
  drop_entry cmd_entry.

(** [flush_caches(self)] *)
Definition flush_caches : M State unit :=
  modify (set_node_cache (fun _ => ∅)) >>
  modify (set_path_cache (fun _ => ∅)).

Definition empty_conn : Conn := mkConn ∅ 0 [] [] [].
Definition empty_state (files : gmap string fsentry) : State :=
  mkState empty_conn ∅ ∅ ∅ files [] [].

(** *** Sources and groups *)

(** [add_source(self, path, generated=False)] *)
Definition add_source (path : string) (generated : bool) : M State loc :=
  let* s := get in
  assert (bool_decide (path_cache_ s !! path = None)) >>
  assert (os.isabs path) >>
  add_file Source path generated None.

(** [find_or_add_source(self, path)] *)
Definition find_or_add_source (path : string) : M State loc :=
  let* node := query_path path in
  match node with
  | Some node =>
      let* n := deref node in
      assert (bool_decide (e_type n = Source)) >>
      ret node
  | None => add_source path false
  end.

Definition GroupPrefix : string := "//group/./".

(** [find_group(self, name)] *)
Definition find_group (name : string) : M State (option loc) :=
  query_path (GroupPrefix ++ name).

(** [add_group(self, name)] *)
Definition add_group (name : string) : M State loc :=
  add_file Group (GroupPrefix ++ name) false None.

(** [drop_group(self, group)] *)
Definition drop_group (group : loc) : M State unit := drop_entry group.

(** *** Removing a strong edge *)

Definition with_strong_inputs (e : Entry) inputs : Entry :=
  mkEntry (e_id e) (e_type e) (e_path e) (e_blob e) (e_folder e) (e_stamp e)
          (e_dirty e) (e_generated e) (e_outgoing e) (e_weak_inputs e)
          inputs (e_dynamic_inputs e).

(** [set.remove(x)]: the element must be there. *)
Definition set_remove (x : loc) (l : list loc) : option (list loc) :=
  if bool_decide (x ∈ l) then Some (filter (fun y => y ≠ x) l) else None.

(** [delete from edges where outgoing = ? and incoming = ?] *)
Definition sql_delete_edge (e : Z * Z) (tbl : list (Z * Z)) : list (Z * Z) :=
  filter (fun e' => e' ≠ e) tbl.

(** [drop_strong_edge(self, from_entry, to_entry)] *)
Definition drop_strong_edge (from_entry to_entry : loc) : M State unit :=
  let* f := deref from_entry in
  let* t := deref to_entry in
  modify (set_cn (set_edges (sql_delete_edge (e_id t, e_id f)))) >>
  (if set_truthy (e_strong_inputs t) then
     match set_remove from_entry (default [] (e_strong_inputs t)) with
     | Some inputs =>
         update_entry to_entry (fun t => with_strong_inputs t (Some inputs))
     | None => raise KeyError
     end
   else ret tt) >>
  let* f := deref from_entry in
  if set_truthy (e_outgoing f) then
    match set_remove to_entry (default [] (e_outgoing f)) with
    | Some out => update_entry from_entry (fun f => with_outgoing f (Some out))
    | None => raise KeyError
    end
  else ret tt.

(** *** Marking *)

(** [mark_dirty(self, entry)]; the constant [nodetypes.KnownDirty] belongs
    to a module that is not among the sources and is a parameter here. *)
Definition mark_dirty (KnownDirty : Z) (entry : loc) : M State unit :=
  let* e := deref entry in
  modify (set_cn (set_nodes (alter
    (fun r => mkRow (r_type r) (r_stamp r) 1 (r_generated r) (r_path r)
                    (r_folder r) (r_data r)) (e_id e)))) >>
  update_entry entry
    (fun e => with_stamp e (Z.lor (e_dirty e) KnownDirty) (e_stamp e)).

(** *** Removing a folder *)

(** The count of the rows of [nodes] whose [folder] is the given id. *)
Definition sql_count_folder (c : Conn) (id : Z) : nat :=
  length (filter (fun ir => r_folder (snd ir) = Some id)
                 (map_to_list (nodes c))).

Definition folder_in_use : exn := Exception "folder still in use!".

(** [drop_folder(self, entry)] *)
Definition drop_folder (entry : loc) : M State unit :=
  let* e := deref entry in
  assert (bool_decide (e_type e = Mkdir)) >>
  match e_path e with
  | None => raise TypeError          (* os.path.isabs(None) *)
  | Some path =>
      assert (negb (os.isabs path)) >>
      let* s := get in
      (if os.exists_ (fs s) path
       then modify (log_out "Removing old folder: ")
       else ret tt) >>
      let* s := get in
      match os.rmdir (fs s) path with
      | (Ok _, fs') => modify (set_fs (fun _ => fs'))
      | (Raise (OSError errno), _) =>
          if bool_decide (errno ≠ ENOENT)
          then modify (log_err "Could not remove folder: ") >>
               raise (OSError errno)
          else ret tt
      | (Raise e, _) => raise e
      end >>
      let* s := get in
      (if (0 <? sql_count_folder (cn s) (e_id e))%nat
       then modify (log_err "is about to be deleted, but is still in use as a folder!") >>
            raise folder_in_use
       else ret tt) >>
      drop_entry entry
  end.

End database.

(** ** Workers and the task master ([ambuild2/task.py]) *)

Module task.

(** Worker processes are named by a handle. *)
Definition worker := nat.

(** A [Task].  Tasks are shared objects whose [incoming] set is mutated
    through the [outgoing] lists of other tasks; the store keeps one task
    object per command id and the lists hold those ids. *)
Record Task := mkTask {
  t_id : Z;
  t_type : NodeType;
  t_data : payload;
  t_folder : option string;
  t_outputs : list string;
  t_outgoing : list Z;
  t_incoming : gset Z
}.

Definition with_incoming (t : Task) (inc : gset Z) : Task :=
  mkTask (t_id t) (t_type t) (t_data t) (t_folder t) (t_outputs t)
         (t_outgoing t) inc.

(** *** Messages *)

Record TaskMsg := mkTaskMsg {
  task_id : Z;
  task_type : NodeType;
  task_data : payload;
  task_folder : option string;
  task_outputs : list string
}.

Record RanTask := mkRanTask {
  ran_ok : bool;
  ran_task_id : Z
}.

Record Results := mkResults {
  res_pid : Z;
  res_task_id : Z;
  res_ok : bool;
  res_stdout : string;
  res_stderr : string;
  res_deps : option (list string);
  res_updates : list (string * float)
}.

Inductive Completed :=
  | CompletedOk
  | CompletedFailed
  | CompletedCrashed (task_id : Z).

(** *** TaskMasterParent *)

(** [int(n * 1.5)]: the count becomes a double, the product is rounded
    to the nearest double, and [int] truncates. *)
Definition int_times_1_5 (n : Z) : Z :=
  int_of_float (float_mul (float_of_int n) one_and_a_half).

(** The head of [TaskMasterParent.__init__]: the local [num_processes]
    is bound only under [jobs == 0], then read by the comparison with
    [max_parallel]; the value returned is the bound of the channel loop. *)
Definition num_processes (jobs cpu_count max_parallel : Z) : res Z :=
  let num_processes : option Z :=
    if jobs =? 0 then
      Some (if cpu_count =? 1 then 2 else int_times_1_5 cpu_count)
    else None in
  match num_processes with
  | None => Raise UnboundLocalError
  | Some n => Ok (if n >? max_parallel then max_parallel else n)
  end.

(** The channels created by [for i in range(num_processes)]. *)
Definition TaskMasterParent_init (jobs cpu_count max_parallel : Z)
    : res (list nat) :=
  match num_processes jobs cpu_count max_parallel with
  | Ok n => Ok (seq 0 (Z.to_nat n))
  | Raise e => Raise e
  end.

Record Parent := mkParent {
  p_build_failed : bool;
  p_stdout : list string;
  p_stderr : list string;
  p_shutdowns : nat;           (* calls of cx.procman.shutdown() *)
  p_cancelled : bool           (* cx.messagePump.cancel() *)
}.

(** [terminateBuild(self, graceful)] *)
Definition terminateBuild (graceful : bool) (p : Parent) : Parent :=
  let p := if graceful then p
           else mkParent (p_build_failed p) (p_stdout p) (p_stderr p)
                         (p_shutdowns p) true in
  if p_build_failed p then p
  else mkParent true (p_stdout p) (p_stderr p) (S (p_shutdowns p))
                (p_cancelled p).

Definition pid_tag (pid : Z) (out : string) : string :=
  ("[" ++ pretty pid ++ "] " ++ out)%string.

(** [processResults(self, message)]; the call of [builder.update] is
    commented out in the source, so a successful result ends here. *)
Definition processResults (message : Results) (p : Parent) : Parent :=
  let p := if negb (String.length (res_stdout message) =? 0)%nat
           then mkParent (p_build_failed p)
                  (p_stdout p ++ [pid_tag (res_pid message) (res_stdout message)])
                  (p_stderr p) (p_shutdowns p) (p_cancelled p)
           else p in
  let p := if negb (String.length (res_stderr message) =? 0)%nat
           then mkParent (p_build_failed p) (p_stdout p)
                  (p_stderr p ++ [res_stderr message])
                  (p_shutdowns p) (p_cancelled p)
           else p in
  if negb (res_ok message) then terminateBuild true p
  else p.

(** *** TaskMasterChild *)

Record Master := mkMaster {
  tasks : gmap Z Task;                (* the task objects *)
  task_graph : list Z;                (* the ready list, used as a stack *)
  outstanding : gmap Z (Z * worker);
  idle : gset worker;
  build_failed : bool;
  (* what the master did to the outside *)
  sent_up : list Completed;           (* self.channel.send *)
  closed : list worker;               (* self.procman.close *)
  dispatched : list (worker * TaskMsg) (* child.send *)
}.

Definition set_tasks f (m : Master) : Master :=
  mkMaster (f (tasks m)) (task_graph m) (outstanding m) (idle m)
           (build_failed m) (sent_up m) (closed m) (dispatched m).
Definition set_task_graph f (m : Master) : Master :=
  mkMaster (tasks m) (f (task_graph m)) (outstanding m) (idle m)
           (build_failed m) (sent_up m) (closed m) (dispatched m).
Definition set_outstanding f (m : Master) : Master :=
  mkMaster (tasks m) (task_graph m) (f (outstanding m)) (idle m)
           (build_failed m) (sent_up m) (closed m) (dispatched m).
Definition set_idle f (m : Master) : Master :=
  mkMaster (tasks m) (task_graph m) (outstanding m) (f (idle m))
           (build_failed m) (sent_up m) (closed m) (dispatched m).
Definition set_build_failed (b : bool) (m : Master) : Master :=
  mkMaster (tasks m) (task_graph m) (outstanding m) (idle m)
           b (sent_up m) (closed m) (dispatched m).
Definition send_up (c : Completed) (m : Master) : Master :=
  mkMaster (tasks m) (task_graph m) (outstanding m) (idle m)
           (build_failed m) (sent_up m ++ [c]) (closed m) (dispatched m).
Definition procman_close (w : worker) (m : Master) : Master :=
  mkMaster (tasks m) (task_graph m) (outstanding m) (idle m)
           (build_failed m) (sent_up m) (closed m ++ [w]) (dispatched m).
Definition child_send (w : worker) (msg : TaskMsg) (m : Master) : Master :=
  mkMaster (tasks m) (task_graph m) (outstanding m) (idle m)
           (build_failed m) (sent_up m) (closed m) (dispatched m ++ [(w, msg)]).

Definition task_of (id : Z) : M Master Task :=
  fun m => match tasks m !! id with
           | Some t => (Ok t, m)
           | None => (Raise TypeError, m)
           end.

(** [close_idle(self)] *)
Definition close_idle : M Master unit :=
  let* m := get in
  for_each (elements (idle m)) (fun child => modify (procman_close child)) >>
  modify (set_idle (fun _ => ∅)).

(** [buildFailed(self)] *)
Definition buildFailed : M Master unit :=
  let* m := get in
  if negb (build_failed m) then
    modify (set_build_failed true) >> close_idle
  else ret tt.

(** [list.pop()] *)
Definition list_pop {A} (l : list A) : option (A * list A) :=
  match reverse l with
  | [] => None
  | x :: r => Some (x, reverse r)
  end.

(** [onWorkerReady(self, child)] *)
Definition onWorkerReady (child : worker) : M Master bool :=
  let* m := get in
  match list_pop (task_graph m) with
  | None =>
      (if negb (size (outstanding m) =? 0)%nat then
         modify (set_idle (fun s => {[child]} ∪ s))
       else
         modify (procman_close child) >>
         close_idle >>
         modify (send_up CompletedOk)) >>
      ret false
  | Some (top, rest) =>
      if build_failed m then
        modify (procman_close child) >> ret false
      else
        modify (set_task_graph (fun _ => rest)) >>
        let* task := task_of top in
        modify (child_send child
                  (mkTaskMsg (t_id task) (t_type task) (t_data task)
                             (t_folder task) (t_outputs task))) >>
        modify (set_outstanding (insert (t_id task) (top, child))) >>
        ret true
  end.

Section Scheduler.

(** [set.pop()] removes an arbitrary element; [pick] stands for that
    choice, as an index into the elements of the set. *)
Variable pick : list worker -> nat.

Definition set_pop (s : gset worker) : option (worker * gset worker) :=
  let l := elements s in
  match l !! (pick l mod length l)%nat with
  | Some w => Some (w, s ∖ {[w]})
  | None => None
  end.

(** [while len(self.task_graph) and len(self.idle): ...]; every turn
    takes a worker out of [idle], so [fuel] above its size is enough. *)
Fixpoint use_idle (fuel : nat) : M Master unit :=
  fun m =>
    if negb (length (task_graph m) =? 0)%nat && negb (size (idle m) =? 0)%nat
    then
      match fuel with
      | O => (Raise RecursionError, m)
      | S fuel' =>
          match set_pop (idle m) with
          | None => (Raise KeyError, m)
          | Some (child, rest) =>
              (modify (set_idle (fun _ => rest)) >>
               let* more := onWorkerReady child in
               if negb more then ret tt else use_idle fuel') m
          end
      end
    else (Ok tt, m).

(** The loop [for outgoing in task.outgoing] of [onWorkerRanTask]. *)
Definition release (task : Z) (outgoing : Z) : M Master unit :=
  let* o := task_of outgoing in
  if bool_decide (task ∈ t_incoming o) then
    let inc := t_incoming o ∖ {[task]} in
    modify (set_tasks (insert outgoing (with_incoming o inc))) >>
    if (size inc =? 0)%nat
    then modify (set_task_graph (fun g => g ++ [outgoing]))
    else ret tt
  else raise KeyError.

(** [onWorkerRanTask(self, child, message)] *)
Definition onWorkerRanTask (child : worker) (message : RanTask)
    : M Master unit :=
  if negb (ran_ok message) then
    modify (send_up CompletedFailed) >>
    modify (procman_close child) >>
    buildFailed
  else
    let* m := get in
    match outstanding m !! ran_task_id message with
    | None => raise KeyError
    | Some (task, child) =>
        modify (set_outstanding (delete (ran_task_id message))) >>
        let* t := task_of task in
        for_each (t_outgoing t) (release task) >>
        let* _ := onWorkerReady child in
        let* m := get in
        use_idle (S (size (idle m)))
    end.

(** [onWorkerCrashed(self, child, task)] *)
Definition onWorkerCrashed (child : worker) (task : Z) : M Master unit :=
  let* t := task_of task in
  modify (send_up (CompletedCrashed (t_id t))) >>
  buildFailed.

(** [onWorkerDied(self, child, error)].  The scan of
    [self.procman.children] that ends it may cancel the message pump; it
    reads and writes no field of the master and is left out. *)
Definition onWorkerDied (child : worker) (normal_shutdown : bool)
    : M Master unit :=
  (if negb normal_shutdown then
     let* m := get in
     match list_find (fun kv => snd (snd kv) = child)
                     (map_to_list (outstanding m)) with
     | Some (_, (_, (task, _))) => onWorkerCrashed child task
     | None => ret tt
     end
   else ret tt) >>
  modify (set_idle (fun s => s ∖ {[child]})).

(** *** The messages a task master handles *)

Inductive event :=
  | Ready (child : worker)
  | Ran (child : worker) (message : RanTask)
  | Died (child : worker) (normal_shutdown : bool).

Definition handle (ev : event) : M Master unit :=
  match ev with
  | Ready child => let* _ := onWorkerReady child in ret tt
  | Ran child message => onWorkerRanTask child message
  | Died child normal => onWorkerDied child normal
  end.

(** A run of the message pump: the handlers in order.  A handler that
    raises leaves the master in the state it had reached. *)
Fixpoint run (evs : list event) (m : Master) : Master :=
  match evs with
  | [] => m
  | ev :: evs' => run evs' (snd (handle ev m))
  end.

End Scheduler.

(** One way [set.pop()] may choose: the first element. *)
Definition first_worker (l : list worker) : nat := 0%nat.

(** *** The two processes and the database

    The [TaskMasterChild] handles the task channel, the
    [TaskMasterParent] the result channel; the parent is the process that
    holds the database. *)

Record System := mkSystem {
  master : Master;
  parent : Parent;
  store : database.State
}.

Inductive message :=
  | OnTaskChannel (ev : event)
  | OnResultChannel (results : Results).

Definition deliver (pick : list worker -> nat) (msg : message) (sys : System)
    : System :=
  match msg with
  | OnTaskChannel ev =>
      mkSystem (snd (handle pick ev (master sys))) (parent sys) (store sys)
  | OnResultChannel results =>
      mkSystem (master sys) (processResults results (parent sys)) (store sys)
  end.

Definition deliver_all (pick : list worker -> nat) (msgs : list message)
    (sys : System) : System :=
  foldl (fun sys msg => deliver pick msg sys) sys msgs.

(** *** WorkerChild *)

Record Response := mkResponse {
  rsp_ok : bool;
  rsp_stdout : string;
  rsp_stderr : string;
  rsp_deps : option (list string)
}.

Record Worker := mkWorker {
  w_fs : gmap string fsentry;
  w_pid : Z;
  w_buildPath : string;
  w_result_open : bool;        (* whether resultChannel.send goes through *)
  w_sent : list RanTask;       (* channel.send *)
  w_results : list Results     (* resultChannel.send *)
}.

Definition w_set_fs (f : gmap string fsentry) (w : Worker) : Worker :=
  mkWorker f (w_pid w) (w_buildPath w) (w_result_open w) (w_sent w)
           (w_results w).
Definition w_send (m : RanTask) (w : Worker) : Worker :=
  mkWorker (w_fs w) (w_pid w) (w_buildPath w) (w_result_open w)
           (w_sent w ++ [m]) (w_results w).
Definition w_send_results (r : Results) (w : Worker) : Worker :=
  mkWorker (w_fs w) (w_pid w) (w_buildPath w) (w_result_open w) (w_sent w)
           (w_results w ++ [r]).

Section WorkerChild.

(** [util.Execute], run in a folder: the return code, the two outputs and
    what the process did to the files. *)
Variable Execute : option string -> list string -> gmap string fsentry ->
                   Z * string * string * gmap string fsentry.
(** [util.ParseGCCDeps] *)
Variable ParseGCCDeps : string -> string * list string.
(** The rewriting of a relative include path with [os.path.abspath],
    [commonprefix] and [relpath], given the build path and the folder. *)
Variable rebase : string -> option string -> string -> string.

(** [doCommand(self, message)] *)
Definition doCommand (message : TaskMsg) : M Worker Response :=
  match task_data message with
  | PArgv argv =>
      let* w := get in
      let '(code, stdout, stderr, fs') :=
        Execute (task_folder message) argv (w_fs w) in
      modify (w_set_fs fs') >>
      ret (mkResponse (code =? 0) stdout stderr None)
  | _ => raise TypeError
  end.

(** [doCompile(self, message)] *)
Definition doCompile (message : TaskMsg) : M Worker Response :=
  match task_data message with
  | PCxx cc_type argv =>
      let* w := get in
      let '(code, out, err, fs') :=
        Execute (task_folder message) argv (w_fs w) in
      modify (w_set_fs fs') >>
      if bool_decide (cc_type = "gcc"%string) then
        let '(err, deps) := ParseGCCDeps err in
        let paths :=
          (fun inc_path =>
             if os.isabs inc_path then inc_path
             else rebase (w_buildPath w) (task_folder message) inc_path)
          <$> deps in
        ret (mkResponse (code =? 0) out err (Some paths))
      else raise (Exception "unknown compiler type")
  | _ => raise TypeError
  end.

(** [self.taskMap[task_type](message)] *)
Definition taskMap (task_type : NodeType) (message : TaskMsg)
    : M Worker Response :=
  match task_type with
  | Cxx => doCompile message
  | Command => doCommand message
  | _ => raise KeyError
  end.

(** The removal of one output before the task runs. *)
Definition remove_output (output : string) : M Worker unit :=
  let* w := get in
  match os.unlink (w_fs w) output with
  | (Ok _, fs') => modify (w_set_fs fs')
  | (Raise (OSError errno), _) =>
      if bool_decide (errno ≠ ENOENT) then raise (OSError errno) else ret tt
  | (Raise e, _) => raise e
  end.

(** [new_timestamps.append((output, os.path.getmtime(output)))] *)
Fixpoint stat_outputs (outputs : list string)
    (new_timestamps : list (string * float))
    : M Worker (list (string * float)) :=
  match outputs with
  | [] => ret new_timestamps
  | output :: rest =>
      let* w := get in
      match os.getmtime (w_fs w) output with
      | Ok t => stat_outputs rest (new_timestamps ++ [(output, t)])
      | Raise e => raise e
      end
  end.

(** [receiveTask(self, channel, message)] *)
Definition receiveTask (message : TaskMsg) : M Worker unit :=
  for_each (task_outputs message) remove_output >>
  let* response := taskMap (task_type message) message in
  modify (w_send (mkRanTask (rsp_ok response) (task_id message))) >>
  let* new_timestamps :=
    (if rsp_ok response then stat_outputs (task_outputs message) []
     else ret []) in
  let* w := get in
  if w_result_open w then
    modify (w_send_results
              (mkResults (w_pid w) (task_id message) (rsp_ok response)
                         (rsp_stdout response) (rsp_stderr response)
                         (rsp_deps response) new_timestamps))
  else ret tt.          (* the failed send is swallowed *)

End WorkerChild.

(** *** Building the task graph *)

Definition task_with_outgoing (t : Task) (out : list Z) : Task :=
  mkTask (t_id t) (t_type t) (t_data t) (t_folder t) (t_outputs t) out
         (t_incoming t).

(** [Task.addOutgoing(self, task)]: the list [outgoing] is appended to,
    the set [incoming] is added to. *)
Definition addOutgoing (self task : Z) : M Master unit :=
  let* s := task_of self in
  modify (set_tasks (insert self
            (task_with_outgoing s (t_outgoing s ++ [task])))) >>
  let* t := task_of task in
  modify (set_tasks (insert task
            (with_incoming t ({[self]} ∪ t_incoming t)))).

(** *** The other handlers of TaskMasterParent *)

(** What arrives at the parent: results on a worker's result channel,
    [completed] from the task master, or an error of a channel. *)
Inductive parent_event :=
  | GotResults (results : Results)
  | GotCompleted (child : worker) (status : Completed)
  | MasterError (child : worker) (normal_shutdown : bool)
  | WorkerIOError (normal_shutdown : bool).

Definition newline : string := String (ascii_of_nat 10) EmptyString.

Definition p_write_stderr (text : string) (p : Parent) : Parent :=
  mkParent (p_build_failed p) (p_stdout p) (p_stderr p ++ [text])
           (p_shutdowns p) (p_cancelled p).

Section Parent.

(** [self.builder.findTask(task_id).entry.format()]; the builder is not
    among the sources. *)
Variable describe : Z -> string.

(** [receiveCompleted(self, child, message)], with the children it closes. *)
Definition receiveCompleted (child : worker) (status : Completed)
    (p : Parent * list worker) : Parent * list worker :=
  match status with
  | CompletedCrashed task_id =>
      (terminateBuild true
         (p_write_stderr ("  : " ++ describe task_id ++ newline)
            (p_write_stderr ("Crashed trying to perform update:" ++ newline)
                            (fst p))),
       snd p)
  | CompletedFailed => (terminateBuild true (fst p), snd p)
  | CompletedOk => (fst p, snd p ++ [child])
  end.

(** The handlers of the parent: [processResults], [receiveCompleted],
    [TaskMasterParent.receiveError] and [WorkerIOListener.receiveError]. *)
Definition parent_handle (ev : parent_event) (p : Parent * list worker)
    : Parent * list worker :=
  match ev with
  | GotResults results => (processResults results (fst p), snd p)
  | GotCompleted child status => receiveCompleted child status p
  | MasterError child normal =>
      if negb normal then (terminateBuild false (fst p), snd p) else p
  | WorkerIOError normal =>
      if negb normal then (terminateBuild true (fst p), snd p) else p
  end.

Definition parent_run (evs : list parent_event) (p : Parent * list worker)
    : Parent * list worker :=
  foldl (fun p ev => parent_handle ev p) p evs.

(** [run(self)] returns [not self.build_failed] once the pump is done. *)
Definition run_result (p : Parent * list worker) : bool :=
  negb (p_build_failed (fst p)).

End Parent.

End task.

(** * Properties *)

(** ** The number of worker processes *)

Module task_master_parent.
Import task.

(** The ceiling of one and a half times [n]. *)
Definition ceiling_1_5 (n : Z) : Z := (3 * n + 1) / 2.

(** *** Double precision on small integers *)

Lemma digits2_pos_bounds (p : positive) :
  2 ^ (Z.pos (digits2_pos p) - 1) <= Z.pos p < 2 ^ Z.pos (digits2_pos p).
Proof.
  induction p as [p IH | p IH |]; simpl digits2_pos.
  - rewrite Pos2Z.inj_succ.
    replace (Z.succ (Z.pos (digits2_pos p)) - 1)
      with (Z.succ (Z.pos (digits2_pos p) - 1)) by lia.
    rewrite !Z.pow_succ_r by lia. lia.
  - rewrite Pos2Z.inj_succ.
    replace (Z.succ (Z.pos (digits2_pos p)) - 1)
      with (Z.succ (Z.pos (digits2_pos p) - 1)) by lia.
    rewrite !Z.pow_succ_r by lia. lia.
  - simpl. lia.
Qed.

Lemma digits2_pos_unique (p : positive) (d : Z) :
  2 ^ (d - 1) <= Z.pos p < 2 ^ d -> Z.pos (digits2_pos p) = d.
Proof.
  intros [Hlo Hhi]. pose proof (digits2_pos_bounds p) as [Hlo' Hhi'].
  set (d' := Z.pos (digits2_pos p)) in *.
  assert (Hd' : 0 < d') by (unfold d'; lia).
  destruct (Z.lt_trichotomy d' d) as [Hlt | [Heq | Hgt]]; [| done |].
  - assert (2 ^ d' <= 2 ^ (d - 1)) by (apply Z.pow_le_mono_r; lia). lia.
  - assert (0 <= d).
    { destruct (Z.le_gt_cases 0 d); [done |].
      rewrite (Z.pow_neg_r 2 d) in Hhi by lia. lia. }
    assert (2 ^ d <= 2 ^ (d' - 1)) by (apply Z.pow_le_mono_r; lia). lia.
Qed.

Lemma digits2_pos_shift (M : positive) (m k : Z) :
  0 < m -> 0 <= k -> Z.pos M = m * 2 ^ k ->
  Z.pos (digits2_pos M) = Z.pos (digits2_pos (Z.to_pos m)) + k.
Proof.
  intros Hm Hk HM. apply digits2_pos_unique.
  pose proof (digits2_pos_bounds (Z.to_pos m)) as [Hlo Hhi].
  rewrite Z2Pos.id in Hlo, Hhi by done.
  set (d := Z.pos (digits2_pos (Z.to_pos m))) in *.
  assert (0 < d) by (unfold d; lia).
  replace (d + k - 1) with (d - 1 + k) by lia.
  rewrite !Z.pow_add_r by lia. rewrite HM.
  assert (0 < 2 ^ k) by (apply Z.pow_pos_nonneg; lia). nia.
Qed.

Lemma shr_exact (k : positive) : forall (M m : positive),
  Z.pos M = Z.pos m * 2 ^ Z.pos k ->
  SpecFloat.iter_pos shr_1 k {| shr_m := Z.pos M; shr_r := false; shr_s := false |}
  = {| shr_m := Z.pos m; shr_r := false; shr_s := false |}.
Proof.
  induction k as [k IH | k IH |]; intros M m HM; simpl SpecFloat.iter_pos.
  - replace (Z.pos k~1) with (Z.pos k + Z.pos k + 1) in HM by lia.
    rewrite !Z.pow_add_r in HM by lia. change (2 ^ 1) with 2 in HM.
    assert (HM' : M = xO (m * 2 ^ k * 2 ^ k)%positive).
    { apply Pos2Z.inj.
      replace (Z.pos (m * 2 ^ k * 2 ^ k)~0)
        with (2 * Z.pos (m * 2 ^ k * 2 ^ k)) by lia.
      rewrite !Pos2Z.inj_mul, !Pos2Z.inj_pow. lia. }
    rewrite HM'. simpl shr_1.
    rewrite (IH _ (m * 2 ^ k)%positive)
      by (rewrite !Pos2Z.inj_mul, !Pos2Z.inj_pow; lia).
    apply IH. rewrite Pos2Z.inj_mul, Pos2Z.inj_pow. lia.
  - replace (Z.pos k~0) with (Z.pos k + Z.pos k) in HM by lia.
    rewrite !Z.pow_add_r in HM by lia.
    rewrite (IH _ (m * 2 ^ k)%positive)
      by (rewrite !Pos2Z.inj_mul, !Pos2Z.inj_pow; lia).
    apply IH. rewrite Pos2Z.inj_mul, Pos2Z.inj_pow. lia.
  - change (2 ^ 1) with 2 in HM.
    assert (HM' : M = xO m) by lia. by rewrite HM'.
Qed.

(** Rounding a mantissa whose low bits, those that do not fit, are all
    zero: nothing is lost. *)
Lemma binary_round_aux_exact (s : bool) (M : positive) (m k E : Z) :
  0 < m -> 0 <= k ->
  Z.pos M = m * 2 ^ k ->
  fexp 53 1024 (Z.pos (digits2_pos M) + E) = E + k ->
  E + k <= 971 ->
  binary_round_aux 53 1024 s (Z.pos M) E loc_Exact
  = S754_finite s (Z.to_pos m) (E + k).
Proof.
  intros Hm Hk HM Hfexp Hmax.
  assert (Hdig : Z.pos (digits2_pos M)
                 = Z.pos (digits2_pos (Z.to_pos m)) + k)
    by (by apply digits2_pos_shift).
  assert (Hstep : shr_fexp 53 1024 (Z.pos M) E loc_Exact
                  = ({| shr_m := m; shr_r := false; shr_s := false |}, E + k)).
  { unfold shr_fexp. simpl Zdigits2. rewrite Hfexp.
    replace (E + k - E) with k by lia. simpl shr_record_of_loc.
    destruct k as [| k | k]; [| | lia].
    - unfold shr. rewrite Z.pow_0_r, Z.mul_1_r in HM.
      rewrite <- HM, Z.add_0_r. reflexivity.
    - unfold shr. f_equal. destruct m as [| m | m]; try lia.
      by apply shr_exact. }
  unfold binary_round_aux. rewrite Hstep. simpl loc_of_shr_record.
  simpl round_nearest_even. simpl shr_m.
  destruct m as [| m | m]; try lia. simpl Z.to_pos in *.
  unfold shr_fexp. simpl Zdigits2.
  replace (Z.pos (digits2_pos m) + (E + k))
    with (Z.pos (digits2_pos M) + E) by lia.
  rewrite Hfexp, Z.sub_diag. simpl.
  change (1024 - 53) with 971.
  destruct (Z.leb_spec (E + k) 971); [reflexivity | lia].
Qed.

Lemma iter_xO (c : positive) : forall p,
  Z.pos (Pos.iter xO p c) = Z.pos p * 2 ^ Z.pos c.
Proof.
  induction c as [| c IH] using Pos.peano_ind; intros p.
  - simpl. lia.
  - rewrite Pos.iter_succ, Pos2Z.inj_succ.
    replace (Z.pos (Pos.iter xO p c)~0) with (2 * Z.pos (Pos.iter xO p c))
      by lia.
    rewrite IH, Z.pow_succ_r by lia. lia.
Qed.

(** A positive integer below 2^52 is a double. *)
Lemma float_of_int_exact (p : positive) :
  Z.pos p < 2 ^ 52 ->
  let c := 53 - Z.pos (digits2_pos p) in
  float_of_int (Z.pos p) = S754_finite false (Z.to_pos (Z.pos p * 2 ^ c)) (- c).
Proof.
  intros Hp c. pose proof (digits2_pos_bounds p) as [Hlo Hhi].
  set (d := Z.pos (digits2_pos p)) in *.
  assert (Hd : 0 < d <= 52).
  { split; [unfold d; lia |].
    destruct (Z.le_gt_cases d 52); [done |].
    assert (2 ^ 52 <= 2 ^ (d - 1)) by (apply Z.pow_le_mono_r; lia). lia. }
  assert (Hc : 0 < c) by (unfold c; lia).
  unfold float_of_int, binary_normalize, binary_round.
  fold d. replace (fexp 53 1024 (d + 0)) with (- c)
    by (unfold fexp, emin, c; lia).
  unfold shl_align. replace (- c - 0) with (Z.neg (Z.to_pos c)) by lia.
  assert (HM : Z.pos (Pos.iter xO p (Z.to_pos c)) = Z.pos p * 2 ^ c).
  { rewrite iter_xO, Z2Pos.id by done. reflexivity. }
  replace (- c) with (- c + 0) at 2 by lia.
  replace (Z.to_pos (Z.pos p * 2 ^ c)) with (Z.to_pos (Z.pos (Pos.iter xO p (Z.to_pos c)) * 2 ^ 0))
    by (rewrite HM; f_equal; lia).
  apply binary_round_aux_exact; try lia.
  rewrite (digits2_pos_shift _ (Z.pos p) c) by (lia || done).
  simpl Z.to_pos. fold d. unfold fexp, emin, c. lia.
Qed.

(** For a count whose triple is below 2^53 the product with 1.5 is
    exact, and [int] gives the half of the triple, rounded down. *)
Lemma int_times_1_5_floor (n : Z) :
  1 <= n -> 3 * n < 2 ^ 53 -> int_times_1_5 n = 3 * n / 2.
Proof.
  intros Hn Hbound. destruct n as [| p | p]; try lia.
  unfold int_times_1_5.
  rewrite float_of_int_exact by lia.
  pose proof (digits2_pos_bounds p) as [Hlo Hhi].
  set (d := Z.pos (digits2_pos p)) in *.
  assert (Hd : 0 < d <= 52).
  { split; [unfold d; lia |].
    destruct (Z.le_gt_cases d 52); [done |].
    assert (2 ^ 52 <= 2 ^ (d - 1)) by (apply Z.pow_le_mono_r; lia). lia. }
  set (c := 53 - d) in *.
  pose proof (digits2_pos_bounds (3 * p)) as [Hlo3 Hhi3].
  set (d3 := Z.pos (digits2_pos (3 * p))) in *.
  rewrite Pos2Z.inj_mul in Hlo3, Hhi3.
  assert (Hd3 : d < d3 <= 53).
  { split.
    - destruct (Z.lt_ge_cases d d3); [done |].
      assert (2 ^ d3 <= 2 ^ d) by (apply Z.pow_le_mono_r; unfold d3; lia).
      assert (2 ^ d = 2 * 2 ^ (d - 1)).
      { replace d with (Z.succ (d - 1)) at 1 by lia.
        apply Z.pow_succ_r. lia. }
      lia.
    - destruct (Z.le_gt_cases d3 53); [done |].
      assert (2 ^ 53 <= 2 ^ (d3 - 1)) by (apply Z.pow_le_mono_r; lia). lia. }
  assert (Hpc : 0 < 2 ^ c) by (apply Z.pow_pos_nonneg; lia).
  set (mz := Z.to_pos (Z.pos p * 2 ^ c)).
  assert (Hmz : Z.pos mz = Z.pos p * 2 ^ c) by (unfold mz; rewrite Z2Pos.id; lia).
  unfold float_mul, SFmul, one_and_a_half. simpl xorb.
  set (j := 53 - d3).
  assert (Hpj : 0 < 2 ^ j) by (apply Z.pow_pos_nonneg; unfold j; lia).
  assert (HM : Z.pos (mz * 6755399441055744)
               = (3 * Z.pos p * 2 ^ j) * 2 ^ (d3 + c - 2)).
  { rewrite Pos2Z.inj_mul, Hmz.
    change (Z.pos 6755399441055744) with (3 * 2 ^ 51).
    assert (Hpow : 2 ^ j * 2 ^ (d3 + c - 2) = 2 ^ c * 2 ^ 51).
    { rewrite <- !Z.pow_add_r by (unfold j; lia). f_equal. unfold j. lia. }
    transitivity (3 * Z.pos p * (2 ^ j * 2 ^ (d3 + c - 2)));
      [rewrite Hpow |]; ring. }
  rewrite (binary_round_aux_exact false _ (3 * Z.pos p * 2 ^ j) (d3 + c - 2));
    try lia.
  - unfold int_of_float. simpl cond_Zopp.
    replace (- c + -52 + (d3 + c - 2)) with (- (j + 1)) by (unfold j; lia).
    destruct (Z.leb_spec 0 (- (j + 1))); [unfold j in *; lia |].
    rewrite Z2Pos.id by lia. rewrite Z.opp_involutive.
    rewrite Z.quot_div_nonneg by (try apply Z.pow_pos_nonneg; unfold j; lia).
    rewrite Z.pow_add_r by (unfold j; lia). change (2 ^ 1) with 2.
    rewrite (Z.mul_comm (2 ^ j) 2).
    rewrite Z.div_mul_cancel_r by lia. reflexivity.
  - rewrite (digits2_pos_shift _ (3 * Z.pos p * 2 ^ j) (d3 + c - 2))
      by (lia || done).
    rewrite (digits2_pos_shift (Z.to_pos (3 * Z.pos p * 2 ^ j)) (3 * Z.pos p) j)
      by (try rewrite Z2Pos.id; unfold j; lia).
    change (Z.to_pos (3 * Z.pos p)) with (3 * p)%positive. fold d3.
    unfold fexp, emin, j, c. lia.
Qed.

(** Above that bound the product is rounded: the first odd count whose
    triple needs 54 bits gives one more than the half rounded down. *)
Lemma int_times_1_5_rounds :
  3 * 3002399751580333 = 2 ^ 53 + 7 /\
  int_times_1_5 3002399751580333 = 3 * 3002399751580333 / 2 + 1.
Proof. split; vm_compute; reflexivity. Qed.

(** C6, as stated, fails: with three processors and ten tasks the master
    starts four workers, while the ceiling of 4.5 is five. *)
Lemma num_processes_is_not_the_ceiling :
  num_processes 0 3 10 = Ok 4 /\
  num_processes 0 3 10 <> Ok (Z.min (Z.max 2 (ceiling_1_5 3)) 10).
Proof. split; [vm_compute; reflexivity | vm_compute; discriminate]. Qed.

(** C6, amended: with [jobs = 0] and at least one processor, as long as
    three times the processor count is below 2^53 (so that the product
    with 1.5 is exact in double precision), the number of worker
    processes is one and a half times the processor count rounded down, at
    least two, and at most [max_parallel]. *)
Theorem num_processes_default (cpu_count max_parallel : Z) :
  1 <= cpu_count ->
  3 * cpu_count < 2 ^ 53 ->
  num_processes 0 cpu_count max_parallel
  = Ok (Z.min (Z.max 2 (3 * cpu_count / 2)) max_parallel).
Proof.
  intros Hcpu Hbound. unfold num_processes. simpl. f_equal.
  destruct (Z.eqb_spec cpu_count 1) as [-> | Hne].
  - change (3 * 1 / 2) with 1. change (Z.max 2 1) with 2.
    destruct (Z.gtb_spec 2 max_parallel); lia.
  - rewrite int_times_1_5_floor by lia.
    assert (3 <= 3 * cpu_count / 2) by (apply Z.div_le_lower_bound; lia).
    rewrite (Z.max_r 2) by lia.
    destruct (Z.gtb_spec (3 * cpu_count / 2) max_parallel); lia.
Qed.

Lemma num_processes_default_witness :
  1 <= 8 /\ 3 * 8 < 2 ^ 53 /\ num_processes 0 8 100 = Ok 12.
Proof.
  split; [lia |]. split; [reflexivity |].
  exact (num_processes_default 8 100 ltac:(lia) ltac:(reflexivity)).
Defined.

(** C8: the count is bound only when [jobs] is 0; with any other value the
    constructor stops with an unbound local, so it builds its channels only
    when [jobs = 0]. *)
Theorem init_needs_jobs_zero (jobs cpu_count max_parallel : Z) :
  (jobs <> 0 ->
   num_processes jobs cpu_count max_parallel = Raise UnboundLocalError /\
   TaskMasterParent_init jobs cpu_count max_parallel = Raise UnboundLocalError)
  /\
  ((exists channels,
      TaskMasterParent_init jobs cpu_count max_parallel = Ok channels)
   <-> jobs = 0).
Proof.
  unfold TaskMasterParent_init, num_processes.
  destruct (Z.eqb_spec jobs 0) as [-> | Hne].
  - split; [intros []; reflexivity |]. split; [reflexivity | eauto].
  - split; [done |]. split; [intros [? ?]; discriminate | done].
Qed.

Lemma init_needs_jobs_zero_witness :
  TaskMasterParent_init 4 8 100 = Raise UnboundLocalError /\
  TaskMasterParent_init 0 2 100 = Ok [0; 1; 2]%nat.
Proof.
  split.
  - apply (init_needs_jobs_zero 4 8 100). lia.
  - reflexivity.
Defined.

End task_master_parent.

(** ** Generic facts about the monad *)

Lemma for_each_preserves {S A B} (f : S -> B) (xs : list A)
    (body : A -> M S unit) :
  (forall x s, f (snd (body x s)) = f s) ->
  forall s, f (snd (for_each xs body s)) = f s.
Proof.
  intros Hbody. induction xs as [| x xs IH]; intros s; [reflexivity |].
  simpl. unfold bind. specialize (Hbody x s).
  destruct (body x s) as [[[] | e] s']; simpl in *.
  - rewrite IH. exact Hbody.
  - exact Hbody.
Qed.

Lemma bind_get {S A} (k : S -> M S A) (s : S) : bind get k s = k s s.
Proof. reflexivity. Qed.

Lemma bind_modify {S A} (f : S -> S) (k : unit -> M S A) (s : S) :
  bind (modify f) k s = k tt (f s).
Proof. reflexivity. Qed.

Lemma bind_assoc {S A B C} (c : M S A) (k1 : A -> M S B) (k2 : B -> M S C)
    (s : S) :
  bind (bind c k1) k2 s = bind c (fun a => bind (k1 a) k2) s.
Proof. unfold bind. by destruct (c s) as [[a | e] s']. Qed.

Lemma bind_ret {S A B} (a : A) (k : A -> M S B) (s : S) :
  bind (ret a) k s = k a s.
Proof. reflexivity. Qed.

(** ** What a worker reports *)

Module worker_child.
Import task.

Section Facts.

Variable Execute : option string -> list string -> gmap string fsentry ->
                   Z * string * string * gmap string fsentry.
Variable ParseGCCDeps : string -> string * list string.
Variable rebase : string -> option string -> string -> string.

(** What the worker does besides sending results. *)
Definition channel_state (w : Worker) : bool * Z * list Results :=
  (w_result_open w, w_pid w, w_results w).

Lemma remove_output_channel output w :
  channel_state (snd (remove_output output w)) = channel_state w.
Proof.
  unfold remove_output, bind, get, modify, ret, raise.
  destruct (os.unlink (w_fs w) output) as [[[] | []] fs']; simpl;
    try reflexivity.
  case_bool_decide; reflexivity.
Qed.

Lemma taskMap_channel ty message w :
  channel_state
    (snd (taskMap Execute ParseGCCDeps rebase ty message w))
  = channel_state w.
Proof.
  unfold taskMap, doCompile, doCommand, bind, get, modify, ret, raise.
  destruct ty; try reflexivity;
    destruct (task_data message); try reflexivity; simpl;
    destruct (Execute _ _ _) as [[[code out] err] fs']; simpl;
    try reflexivity.
  case_bool_decide; [| reflexivity].
  destruct (ParseGCCDeps err); reflexivity.
Qed.

(** The timestamps are those of the files, one per declared output. *)
Definition stamped (w : Worker) (outputs : list string)
    (updates : list (string * float)) : Prop :=
  Forall2 (fun output u => u.1 = output /\ os.getmtime (w_fs w) output = Ok u.2)
          outputs updates.

Lemma stat_outputs_spec outputs : forall acc w,
  snd (stat_outputs outputs acc w) = w /\
  forall l, fst (stat_outputs outputs acc w) = Ok l ->
            exists l', l = acc ++ l' /\ stamped w outputs l'.
Proof.
  induction outputs as [| o outputs IH]; intros acc w; simpl.
  - split; [reflexivity |]. intros l [= <-]. exists [].
    split; [by rewrite app_nil_r | constructor].
  - unfold bind, get. simpl.
    destruct (os.getmtime (w_fs w) o) as [t | e] eqn:Ht.
    + destruct (IH (acc ++ [(o, t)]) w) as [Hs Hl]. split; [exact Hs |].
      intros l Hok. destruct (Hl l Hok) as (l' & -> & Hst).
      exists ((o, t) :: l'). split; [by rewrite <- app_assoc |].
      constructor; [by split | exact Hst].
    + split; [reflexivity |]. intros l. discriminate.
Qed.

Definition results_ok (w' : Worker) (message : TaskMsg) (r : Results) : Prop :=
  (res_ok r = false -> res_updates r = []) /\
  (res_updates r <> [] -> res_ok r = true) /\
  (res_ok r = true -> stamped w' (task_outputs message) (res_updates r)).

Lemma receiveTask_run (message : TaskMsg) (w w' : Worker) (r : res unit) :
  receiveTask Execute ParseGCCDeps rebase message w = (r, w') ->
  exists new,
    w_results w' = w_results w ++ new /\ Forall (results_ok w' message) new.
Proof.
  unfold receiveTask. unfold bind at 1.
  pose proof (for_each_preserves channel_state (task_outputs message)
                remove_output remove_output_channel w) as H1.
  destruct (for_each (task_outputs message) remove_output w)
    as [[[] | e] w1]; simpl in *.
  2:{ intros [= <- <-]. exists []. inversion H1. rewrite app_nil_r.
      by split. }
  unfold bind at 1.
  pose proof (taskMap_channel (task_type message) message w1) as H2.
  destruct (taskMap _ _ _ (task_type message) message w1)
    as [[response | e] w2]; simpl in *.
  2:{ intros [= <- <-]. exists []. inversion H1. inversion H2.
      rewrite app_nil_r. split; [congruence | constructor]. }
  assert (Hres : w_results w2 = w_results w)
    by (inversion H1; inversion H2; congruence).
  unfold bind, modify, get, ret. simpl.
  destruct (rsp_ok response) eqn:Hok; simpl.
  - destruct (stat_outputs_spec (task_outputs message) [] (w_send
                (mkRanTask true (task_id message)) w2)) as [Hs Hl].
    destruct (stat_outputs (task_outputs message) [] _)
      as [[l | e] w3] eqn:Hstat; simpl in *; subst w3.
    + destruct (Hl l eq_refl) as (l' & -> & Hst). simpl in *.
      destruct (w_result_open w2) eqn:Hopen; simpl; intros [= <- <-]; simpl.
      * eexists [_]. rewrite Hres. split; [reflexivity |].
        constructor; [| constructor]. repeat split; try done.
      * exists []. rewrite Hres, app_nil_r. by split.
    + intros [= <- <-]. exists []. simpl. rewrite Hres, app_nil_r. by split.
  - destruct (w_result_open w2) eqn:Hopen; simpl; intros [= <- <-]; simpl.
    + eexists [_]. rewrite Hres. split; [reflexivity |].
      constructor; [| constructor]. repeat split; done.
    + exists []. rewrite Hres, app_nil_r. by split.
Qed.

(** C10: every results message a worker sends for a task that failed
    carries an empty list of updates; the outputs are stat'ed, one
    timestamp each, only in a message for a task that succeeded. *)
Theorem receiveTask_updates (message : TaskMsg) (w : Worker) :
  exists new,
    w_results (snd (receiveTask Execute ParseGCCDeps rebase message w))
    = w_results w ++ new /\
    Forall (fun r =>
              (res_ok r = false -> res_updates r = []) /\
              (res_updates r <> [] -> res_ok r = true) /\
              (res_ok r = true ->
               stamped
                 (snd (receiveTask Execute ParseGCCDeps rebase message w))
                 (task_outputs message) (res_updates r)))
           new.
Proof.
  destruct (receiveTask Execute ParseGCCDeps rebase message w) as [r w'] eqn:E.
  exact (receiveTask_run message w w' r E).
Qed.

End Facts.

(** A compile that fails, and one that succeeds and writes its output. *)
Definition cc_fails (folder : option string) (argv : list string)
    (files : gmap string fsentry) : Z * string * string * gmap string fsentry :=
  (1, ""%string, "a.c:1: error"%string, files).
Definition cc_writes (t : float) (folder : option string)
    (argv : list string) (files : gmap string fsentry)
    : Z * string * string * gmap string fsentry :=
  (0, ""%string, ""%string, <["a.o"%string := FsFile t]> files).
Definition no_deps (err : string) : string * list string := (err, []).
Definition keep_path (build : string) (folder : option string)
    (path : string) : string := path.

Definition compile_a : TaskMsg :=
  mkTaskMsg 1 Cxx (PCxx "gcc" ["gcc"; "-c"; "a.c"]%string) None ["a.o"%string].
Definition a_worker : Worker :=
  mkWorker {[ "a.o"%string := FsFile f0 ]} 42 "/build" true [] [].

Example failed_task_reports_no_updates :
  w_results (snd (receiveTask cc_fails no_deps keep_path compile_a a_worker))
  = [mkResults 42 1 false "" "a.c:1: error" (Some []) []].
Proof. reflexivity. Qed.

Example finished_task_reports_stamps :
  w_results (snd (receiveTask (cc_writes t7) no_deps keep_path compile_a
                              a_worker))
  = [mkResults 42 1 true "" "" (Some []) [("a.o"%string, t7)]].
Proof. reflexivity. Qed.

Lemma receiveTask_updates_witness :
  exists new,
    w_results (snd (receiveTask cc_fails no_deps keep_path compile_a a_worker))
    = [] ++ new /\
    Forall (fun r =>
              (res_ok r = false -> res_updates r = []) /\
              (res_updates r <> [] -> res_ok r = true) /\
              (res_ok r = true ->
               stamped
                 (snd (receiveTask cc_fails no_deps keep_path compile_a
                                   a_worker))
                 (task_outputs compile_a) (res_updates r)))
           new.
Proof.
  exact (receiveTask_updates cc_fails no_deps keep_path compile_a a_worker).
Defined.

End worker_child.

(** ** The node store *)

(** Runs a computation of the database by unfolding the monad. *)
Ltac run_monad :=
  unfold assert, database.deref, database.update_entry, bind, ret, get,
    modify, raise in *;
  simpl in *.

Module database_facts.
Import database.

Definition unmark_warning : string :=
  "Could not unmark file as dirty; leaving dirty.".

Lemma bind_deref {A} (l : loc) (e : Entry) (k : Entry -> M State A)
    (st : State) :
  heap st !! l = Some e -> bind (deref l) k st = k e st.
Proof. intros H. unfold bind, deref. by rewrite H. Qed.

(** The file of an artifact cannot be stat'ed. *)
Definition stat_fails (st : State) (e : Entry) : Prop :=
  match e_path e with
  | Some p => fs st !! p = None
  | None => True
  end.

(** C2, what the code does: after the warning [unmark_dirty] goes on to
    the [update] with no stamp, which the [not null] column refuses; the
    node stays dirty, but through an exception and not a mere warning. *)
Theorem unmark_dirty_stat_failure_raises (entry : loc) (e : Entry)
    (st : State) :
  heap st !! entry = Some e ->
  isCommand e = false ->
  stat_fails st e ->
  is_Some (nodes (cn st) !! e_id e) ->
  unmark_dirty entry None st
  = (Raise IntegrityError, log_err unmark_warning st).
Proof.
  intros He Hcmd Hstat [r Hr]. unfold unmark_dirty, stat_fails in *.
  run_monad. rewrite He, Hcmd. simpl.
  assert (Hfail : exists x,
             match e_path e with
             | Some p => os.getmtime (fs st) p
             | None => Raise TypeError
             end = Raise x).
  { destruct (e_path e) as [p |]; [| eauto].
    unfold os.getmtime. rewrite Hstat. eauto. }
  destruct Hfail as [x ->]. simpl.
  unfold sql_unmark. simpl. rewrite Hr. reflexivity.
Qed.

(** When the table has no row for the entry, nothing refuses the update:
    the entry in memory is marked clean with no stamp at all. *)
Lemma unmark_dirty_stat_failure_unmarks (entry : loc) (e : Entry)
    (st : State) :
  heap st !! entry = Some e ->
  isCommand e = false ->
  stat_fails st e ->
  nodes (cn st) !! e_id e = None ->
  exists st', unmark_dirty entry None st = (Ok tt, st') /\
              heap st' !! entry = Some (with_stamp e 0 None).
Proof.
  intros He Hcmd Hstat Hr. unfold unmark_dirty, stat_fails in *.
  run_monad. rewrite He, Hcmd. simpl.
  assert (Hfail : exists x,
             match e_path e with
             | Some p => os.getmtime (fs st) p
             | None => Raise TypeError
             end = Raise x).
  { destruct (e_path e) as [p |]; [| eauto].
    unfold os.getmtime. rewrite Hstat. eauto. }
  destruct Hfail as [x ->]. simpl.
  unfold sql_unmark. simpl. rewrite Hr. eexists. split; [reflexivity |].
  simpl. rewrite lookup_alter_eq, He. reflexivity.
Qed.

(** The row and the entry after a successful [unmark_dirty]. *)
Definition unmarked_row (r : Row) (t : float) : Row :=
  mkRow (r_type r) t 0 (r_generated r) (r_path r) (r_folder r) (r_data r).

Definition unmarked (st st' : State) (entry : loc) (e : Entry) (t : float)
    : Prop :=
  heap st' !! entry = Some (with_stamp e 0 (Some t)) /\
  nodes (cn st') !! e_id e
  = (fun r => unmarked_row r t) <$> nodes (cn st) !! e_id e.

Lemma sql_unmark_some (t : float) (id : Z) (st : State) :
  is_nan t = false ->
  exists st', sql_unmark (Some t) id st = (Ok tt, st') /\
              heap st' = heap st /\
              nodes (cn st') !! id
              = (fun r => unmarked_row r t) <$> nodes (cn st) !! id.
Proof.
  intros Hnan.
  unfold sql_unmark. destruct (nodes (cn st) !! id) as [r |] eqn:Hr.
  - rewrite Hnan. eexists. split; [reflexivity |]. simpl. split; [reflexivity |].
    by rewrite lookup_insert_eq.
  - eexists. split; [reflexivity |]. by rewrite Hr.
Qed.

Lemma unmark_with (entry : loc) (e : Entry) (t : float) (st : State) :
  heap st !! entry = Some e ->
  is_nan t = false ->
  exists st',
    (sql_unmark (Some t) (e_id e) >>
     update_entry entry (fun e => with_stamp e 0 (Some t))) st = (Ok tt, st')
    /\ unmarked st st' entry e t.
Proof.
  intros He Hnan. run_monad.
  destruct (sql_unmark_some t (e_id e) st Hnan) as (st1 & -> & Hh & Hn).
  eexists. split; [reflexivity |]. split; simpl.
  - rewrite Hh, lookup_alter_eq, He. reflexivity.
  - exact Hn.
Qed.

(** Where the stamp can be determined, a stamp of 0.0 is handled as no
    stamp.  On a command both store 0.0; on an artifact whose file can be
    stat'ed both store the time of the file, a number, not the 0.0 that
    was passed. *)
Lemma unmark_dirty_zero_stamp (entry : loc) (e : Entry) (sign : bool)
    (st : State) :
  heap st !! entry = Some e ->
  (isCommand e = true ->
   exists st',
     unmark_dirty entry (Some (S754_zero sign)) st = (Ok tt, st') /\
     unmark_dirty entry None st = (Ok tt, st') /\
     unmarked st st' entry e f0) /\
  (isCommand e = false ->
   forall p fe, e_path e = Some p -> fs st !! p = Some fe ->
   is_nan (fs_mtime fe) = false ->
   exists st',
     unmark_dirty entry (Some (S754_zero sign)) st = (Ok tt, st') /\
     unmark_dirty entry None st = (Ok tt, st') /\
     unmarked st st' entry e (fs_mtime fe)).
Proof.
  intros He. split.
  - intros Hcmd.
    destruct (unmark_with entry e f0 st He eq_refl) as (st' & Hrun & Hpost).
    exists st'. unfold unmark_dirty. run_monad. rewrite He, Hcmd. simpl.
    rewrite Hrun. done.
  - intros Hcmd p fe Hp Hfe Hnan.
    destruct (unmark_with entry e (fs_mtime fe) st He Hnan)
      as (st' & Hrun & Hpost).
    exists st'. unfold unmark_dirty. run_monad. rewrite He, Hcmd, Hp. simpl.
    unfold os.getmtime. rewrite Hfe. simpl. rewrite Hrun. done.
Qed.

(** *** Concrete stores *)

(** An output [a.o] that was declared but is not on disk. *)
Definition undeclared : State := empty_state ∅.
Definition missing_output : State := snd (add_output None "a.o" undeclared).
Definition a_o : Entry :=
  mkEntry 1 Output (Some "a.o"%string) (BRaw PNone) None (Some f0) 1 true
          None None None None.

Lemma unmark_dirty_stat_failure_raises_witness :
  unmark_dirty 1%nat None missing_output
  = (Raise IntegrityError, log_err unmark_warning missing_output).
Proof.
  apply (unmark_dirty_stat_failure_raises 1%nat a_o missing_output).
  - vm_compute. reflexivity.
  - reflexivity.
  - vm_compute. reflexivity.
  - vm_compute. eauto.
Defined.

(** An output that is on disk with time 7, and a command. *)
Definition built_output : State :=
  snd (add_output None "a.o" (empty_state {[ "a.o"%string := FsFile t7 ]})).
Definition one_command : State :=
  snd (add_command Command None (PArgv ["gcc"%string]) undeclared).
Definition gcc : Entry :=
  mkEntry 1 Command None (BRaw (PArgv ["gcc"%string])) None (Some f0) 1 false
          None None None None.

Lemma unmark_dirty_zero_stamp_witness :
  (exists st',
     unmark_dirty 1%nat (Some f0) one_command = (Ok tt, st') /\
     unmark_dirty 1%nat None one_command = (Ok tt, st') /\
     unmarked one_command st' 1%nat gcc f0) /\
  (exists st',
     unmark_dirty 1%nat (Some f0) built_output = (Ok tt, st') /\
     unmark_dirty 1%nat None built_output = (Ok tt, st') /\
     unmarked built_output st' 1%nat a_o t7).
Proof.
  split.
  - apply (unmark_dirty_zero_stamp 1%nat gcc false one_command);
      [vm_compute |]; reflexivity.
  - apply (unmark_dirty_zero_stamp 1%nat a_o false built_output
             ltac:(vm_compute; reflexivity))
      with (p := "a.o"%string) (fe := FsFile t7);
      [reflexivity | reflexivity | vm_compute; reflexivity | reflexivity].
Defined.

(** C9, what the code does: when the file of an artifact cannot be
    stat'ed, the explicit 0.0 is neither ignored nor handled as no stamp.
    After the warning the code goes on with what is left in [stamp]: the
    0.0 that was passed is written to the row and the node is marked
    clean, while the call without a stamp is refused by the table. *)
Theorem unmark_dirty_zero_stamp_kept (entry : loc) (e : Entry) (sign : bool)
    (st : State) :
  heap st !! entry = Some e ->
  isCommand e = false ->
  stat_fails st e ->
  is_Some (nodes (cn st) !! e_id e) ->
  (exists st',
     unmark_dirty entry (Some (S754_zero sign)) st = (Ok tt, st') /\
     unmarked st st' entry e (S754_zero sign) /\
     con_err st' = con_err st ++ [unmark_warning]) /\
  unmark_dirty entry None st
  = (Raise IntegrityError, log_err unmark_warning st).
Proof.
  intros He Hcmd Hstat [r Hr].
  assert (Hfail : exists x,
             match e_path e with
             | Some p => os.getmtime (fs st) p
             | None => Raise TypeError
             end = Raise x).
  { unfold stat_fails in Hstat. destruct (e_path e) as [p |]; [| eauto].
    unfold os.getmtime. rewrite Hstat. eauto. }
  destruct Hfail as [x Hx]. split.
  - destruct (unmark_with entry e (S754_zero sign) (log_err unmark_warning st)
                He eq_refl) as (st' & Hrun & Hh & Hn).
    exists st'. split; [| split].
    + unfold unmark_dirty. rewrite (bind_deref entry e) by done.
      simpl. rewrite Hcmd. unfold bind at 1. rewrite bind_get, Hx.
      rewrite bind_modify. unfold ret at 1. exact Hrun.
    + split; [exact Hh | exact Hn].
    + revert Hrun. run_monad. unfold sql_unmark. simpl. rewrite Hr. simpl.
      by intros [= <-].
  - unfold unmark_dirty. run_monad. rewrite He, Hcmd. simpl.
    rewrite Hx. simpl. unfold sql_unmark. simpl. rewrite Hr. reflexivity.
Qed.

Lemma unmark_dirty_zero_stamp_kept_witness :
  (exists st',
     unmark_dirty 1%nat (Some f0) missing_output = (Ok tt, st') /\
     unmarked missing_output st' 1%nat a_o f0 /\
     con_err st' = con_err missing_output ++ [unmark_warning]) /\
  unmark_dirty 1%nat None missing_output
  = (Raise IntegrityError, log_err unmark_warning missing_output).
Proof.
  apply (unmark_dirty_zero_stamp_kept 1%nat a_o false missing_output).
  - vm_compute. reflexivity.
  - reflexivity.
  - vm_compute. reflexivity.
  - vm_compute. eauto.
Defined.

(** *** Deleting a node *)

(** C3, what the code does: [drop_entry] takes the node out of the table
    and out of the id cache only, so a later [query_path] still answers
    with the dropped node. *)
Theorem drop_entry_keeps_path_cache (entry : loc) (e : Entry) (p : string)
    (st : State) :
  heap st !! entry = Some e ->
  is_Some (node_cache_ st !! e_id e) ->
  path_cache_ st !! p = Some entry ->
  exists st',
    drop_entry entry st = (Ok tt, st') /\
    nodes (cn st') !! e_id e = None /\
    node_cache_ st' !! e_id e = None /\
    query_path p st' = (Ok (Some entry), st').
Proof.
  intros He [l Hl] Hp. unfold drop_entry. run_monad. rewrite He. simpl.
  rewrite Hl. eexists. split; [reflexivity |]. simpl.
  repeat split; try apply lookup_delete_eq.
  unfold query_path. run_monad. rewrite Hp. reflexivity.
Qed.

Lemma drop_entry_keeps_path_cache_witness :
  exists st',
    drop_entry 1%nat missing_output = (Ok tt, st') /\
    nodes (cn st') !! 1 = None /\
    node_cache_ st' !! 1 = None /\
    query_path "a.o" st' = (Ok (Some 1%nat), st').
Proof.
  apply (drop_entry_keeps_path_cache 1%nat a_o "a.o" missing_output).
  - vm_compute. reflexivity.
  - vm_compute. eauto.
  - vm_compute. reflexivity.
Defined.

(** The failing run of C3 in full: declare [a.o], drop it, ask for it. *)
Example query_path_after_drop_entry :
  fst ((let* n := add_output None "a.o" in
        drop_entry n >>
        let* found := query_path "a.o" in
        ret (n, found)) undeclared)
  = Ok (1%nat, Some 1%nat).
Proof. vm_compute. reflexivity. Qed.

(** *** Updating a command *)

Definition refactoring_error : exn :=
  Exception "Refactoring error: command changed".

(** C4, what the code does: an update stores the pickled bytes in
    [entry.blob], which never compare equal to the data; so once a command
    was updated, the same update again is reported as a change, and as a
    refactoring error when refactoring is on. *)
Theorem update_command_again (entry : loc) (type : NodeType)
    (folder : option loc) (data : payload) (st st1 : State) :
  payload_truthy data = true ->
  update_command entry type folder data false st = (Ok true, st1) ->
  (exists e1, heap st1 !! entry = Some e1 /\
              e_type e1 = type /\ e_folder e1 = folder /\
              e_blob e1 = BPickled data) /\
  (exists st2, update_command entry type folder data false st1
               = (Ok true, st2)) /\
  (exists st2, update_command entry type folder data true st1
               = (Raise refactoring_error, st2)).
Proof.
  intros Hdata. unfold update_command. rewrite Hdata. run_monad.
  destruct (heap st !! entry) as [e |] eqn:He; [| discriminate].
  destruct (_ && _ && _); [discriminate |].
  destruct folder as [f |].
  - destruct (heap st !! f) as [fe |] eqn:Hf; [| discriminate]. simpl.
    intros [= <-]. simpl. rewrite lookup_alter_eq, He. simpl.
    split; [eexists; repeat split; reflexivity |].
    rewrite !bool_decide_eq_true_2 by reflexivity. simpl.
    assert (Hf' : exists fe', alter (fun e0 => with_blob e0 type (Some f)
                      (BPickled data) 1) entry (heap st) !! f = Some fe').
    { destruct (decide (entry = f)) as [-> | Hne].
      - rewrite lookup_alter_eq, Hf. eauto.
      - rewrite lookup_alter_ne, Hf by done. eauto. }
    destruct Hf' as [fe' ->]. simpl. split; eexists; reflexivity.
  - simpl. intros [= <-]. simpl. rewrite lookup_alter_eq, He. simpl.
    split; [eexists; repeat split; reflexivity |].
    rewrite !bool_decide_eq_true_2 by reflexivity. simpl.
    split; eexists; reflexivity.
Qed.

Definition gcc_O2 : payload := PArgv ["gcc"; "-O2"]%string.
Definition updated_once : State :=
  snd (update_command 1%nat Command None gcc_O2 false one_command).

Lemma update_command_again_witness :
  (exists e1, heap updated_once !! 1%nat = Some e1 /\
              e_type e1 = Command /\ e_folder e1 = None /\
              e_blob e1 = BPickled gcc_O2) /\
  (exists st2, update_command 1%nat Command None gcc_O2 false updated_once
               = (Ok true, st2)) /\
  (exists st2, update_command 1%nat Command None gcc_O2 true updated_once
               = (Raise refactoring_error, st2)).
Proof.
  apply (update_command_again 1%nat Command None gcc_O2 one_command).
  - reflexivity.
  - vm_compute. reflexivity.
Defined.

(** The failing run of C4 in full. *)
Example update_command_same_data_twice :
  fst ((let* c := add_command Command None (PArgv ["gcc"%string]) in
        let* first := update_command c Command None gcc_O2 false in
        let* second := update_command c Command None gcc_O2 false in
        ret (first, second)) undeclared)
  = Ok (true, true).
Proof. vm_compute. reflexivity. Qed.

(** What does hold: an entry whose blob is the data as given (one made by
    [add_command] or read from the table) is compared field by field. *)
Lemma update_command_unchanged (entry : loc) (e : Entry) (st : State) :
  heap st !! entry = Some e ->
  forall data, e_blob e = BRaw data ->
  update_command entry (e_type e) (e_folder e) data false st = (Ok false, st).
Proof.
  intros He data Hb. unfold update_command. run_monad. rewrite He. simpl.
  rewrite Hb. simpl. rewrite !bool_decide_eq_true_2 by reflexivity.
  reflexivity.
Qed.

End database_facts.

(** ** The task master after a failure *)

Module task_master_child.
Import task.

Section Failure.

Variable pick : list worker -> nat.

(** A computation of the master that, once the build has failed, keeps it
    failed and sends no task to any worker. *)
Definition quiet {A} (c : M Master A) : Prop :=
  forall m, build_failed m = true ->
            build_failed (snd (c m)) = true /\
            dispatched (snd (c m)) = dispatched m.

Lemma quiet_ret {A} (a : A) : quiet (ret a).
Proof. by intros m Hm. Qed.

Lemma quiet_raise {A} (e : exn) : quiet (@raise Master A e).
Proof. by intros m Hm. Qed.

Lemma quiet_get : quiet (@get Master).
Proof. by intros m Hm. Qed.

Lemma quiet_bind {A B} (c : M Master A) (k : A -> M Master B) :
  quiet c -> (forall a, quiet (k a)) -> quiet (bind c k).
Proof.
  intros Hc Hk m Hm. unfold bind. destruct (Hc m Hm) as [H1 H2].
  destruct (c m) as [[a | e] m1]; simpl in *; [| done].
  destruct (Hk a m1 H1) as [H3 H4]. split; congruence.
Qed.

Lemma quiet_modify (f : Master -> Master) :
  (forall m, build_failed m = true ->
             build_failed (f m) = true /\ dispatched (f m) = dispatched m) ->
  quiet (modify f).
Proof. intros Hf m Hm. exact (Hf m Hm). Qed.

Lemma quiet_for_each {A} (xs : list A) (body : A -> M Master unit) :
  (forall x, quiet (body x)) -> quiet (for_each xs body).
Proof.
  intros Hbody. induction xs as [| x xs IH]; simpl.
  - apply quiet_ret.
  - apply quiet_bind; [apply Hbody | intros _; exact IH].
Qed.

Lemma quiet_task_of (id : Z) : quiet (task_of id).
Proof. intros m Hm. unfold task_of. by destruct (tasks m !! id). Qed.

Ltac quiet_step :=
  first
    [ apply quiet_ret | apply quiet_raise | apply quiet_get
    | apply quiet_task_of
    | apply quiet_modify; intros ? ?; simpl; by split
    | apply quiet_bind; [| intros ?]
    | apply quiet_for_each; intros ? ].

Lemma quiet_close_idle : quiet close_idle.
Proof. unfold close_idle. repeat quiet_step. Qed.

Lemma quiet_buildFailed : quiet buildFailed.
Proof.
  unfold buildFailed. apply quiet_bind; [apply quiet_get |]. intros m.
  destruct (negb (build_failed m)); [| apply quiet_ret].
  apply quiet_bind; [| intros _; apply quiet_close_idle].
  apply quiet_modify. by intros.
Qed.

(** The branch of [onWorkerReady] that sends a task is behind the test of
    [build_failed]. *)
Lemma quiet_onWorkerReady (child : worker) : quiet (onWorkerReady child).
Proof.
  assert (Hdone : forall b : bool,
            quiet ((if b
                    then modify (set_idle (fun s => {[child]} ∪ s))
                    else modify (procman_close child) >> close_idle >>
                         modify (send_up CompletedOk)) >> ret false)).
  { intros b. apply quiet_bind; [| intros _; apply quiet_ret].
    destruct b.
    - apply quiet_modify. by intros.
    - apply quiet_bind; [apply quiet_modify; by intros | intros _].
      apply quiet_bind; [apply quiet_close_idle | intros _].
      apply quiet_modify. by intros. }
  intros m Hm. unfold onWorkerReady. rewrite bind_get.
  destruct (list_pop (task_graph m)) as [[top rest] |].
  - rewrite Hm. unfold bind, modify, ret. simpl. by split.
  - apply Hdone, Hm.
Qed.

Lemma quiet_use_idle (fuel : nat) : quiet (use_idle pick fuel).
Proof.
  induction fuel as [| fuel IH]; intros m Hm; simpl.
  - by destruct (_ && _).
  - destruct (_ && _); [| done].
    destruct (set_pop pick (idle m)) as [[child rest] |]; [| done].
    assert (Hturn : quiet (modify (set_idle (fun _ => rest)) >>
                           let* more := onWorkerReady child in
                           if negb more then ret tt else use_idle pick fuel)).
    { apply quiet_bind; [apply quiet_modify; by intros | intros _].
      apply quiet_bind; [apply quiet_onWorkerReady | intros more].
      destruct (negb more); [apply quiet_ret | exact IH]. }
    apply Hturn, Hm.
Qed.

Lemma quiet_release (task outgoing : Z) : quiet (release task outgoing).
Proof.
  unfold release. apply quiet_bind; [apply quiet_task_of | intros o].
  case_bool_decide; [| apply quiet_raise].
  apply quiet_bind; [apply quiet_modify; by intros | intros _].
  destruct (_ =? _)%nat; [apply quiet_modify; by intros | apply quiet_ret].
Qed.

Lemma quiet_onWorkerRanTask (child : worker) (message : RanTask) :
  quiet (onWorkerRanTask pick child message).
Proof.
  unfold onWorkerRanTask. destruct (negb (ran_ok message)).
  - apply quiet_bind; [apply quiet_modify; by intros | intros _].
    apply quiet_bind; [apply quiet_modify; by intros | intros _].
    apply quiet_buildFailed.
  - apply quiet_bind; [apply quiet_get | intros m].
    destruct (outstanding m !! ran_task_id message) as [[task w] |];
      [| apply quiet_raise].
    apply quiet_bind; [apply quiet_modify; by intros | intros _].
    apply quiet_bind; [apply quiet_task_of | intros t].
    apply quiet_bind;
      [apply quiet_for_each; intros; apply quiet_release | intros _].
    apply quiet_bind; [apply quiet_onWorkerReady | intros _].
    apply quiet_bind; [apply quiet_get | intros m'].
    apply quiet_use_idle.
Qed.

Lemma quiet_onWorkerDied (child : worker) (normal : bool) :
  quiet (onWorkerDied child normal).
Proof.
  unfold onWorkerDied.
  apply quiet_bind; [| intros _; apply quiet_modify; by intros].
  destruct (negb normal); [| apply quiet_ret].
  apply quiet_bind; [apply quiet_get | intros m].
  destruct (list_find _ _) as [[? [? [task ?]]] |]; [| apply quiet_ret].
  unfold onWorkerCrashed.
  apply quiet_bind; [apply quiet_task_of | intros t].
  apply quiet_bind; [apply quiet_modify; by intros | intros _].
  apply quiet_buildFailed.
Qed.

Lemma quiet_handle (ev : event) : quiet (handle pick ev).
Proof.
  destruct ev; simpl.
  - apply quiet_bind; [apply quiet_onWorkerReady | intros _; apply quiet_ret].
  - apply quiet_onWorkerRanTask.
  - apply quiet_onWorkerDied.
Qed.

(** Once the build has failed, no run of the message pump sends a task. *)
Lemma failed_run_dispatches_nothing (evs : list event) : forall m,
  build_failed m = true ->
  build_failed (run pick evs m) = true /\
  dispatched (run pick evs m) = dispatched m.
Proof.
  induction evs as [| ev evs IH]; intros m Hm; simpl; [done |].
  destruct (quiet_handle ev m Hm) as [H1 H2].
  destruct (IH _ H1) as [H3 H4]. split; congruence.
Qed.

(** [close_idle] closes the idle workers, in the order of the set. *)
Lemma close_each (l : list worker) : forall m,
  exists m',
    for_each l (fun child => modify (procman_close child)) m = (Ok tt, m') /\
    closed m' = closed m ++ l /\
    idle m' = idle m /\ build_failed m' = build_failed m /\
    sent_up m' = sent_up m /\ dispatched m' = dispatched m /\
    tasks m' = tasks m /\ task_graph m' = task_graph m /\
    outstanding m' = outstanding m.
Proof.
  induction l as [| w l IH]; intros m; simpl.
  - exists m. by rewrite app_nil_r.
  - rewrite bind_modify.
    destruct (IH (procman_close w m))
      as (m' & -> & Hc & Hi & Hb & Hs & Hd & Ht & Hg & Ho).
    exists m'. simpl in *. rewrite Hc, <- app_assoc. done.
Qed.

Definition failed_message (tid : Z) : RanTask := mkRanTask false tid.

(** C5, amended: a [ranTask] with [ok = false] sends [completed] with
    status failed, closes the worker that reported, and leaves
    [build_failed] set; when [build_failed] was not set before, it also
    closes every idle worker and empties the idle set; afterwards no run of
    the message pump sends a task to a worker. *)
Theorem ranTask_failed (child : worker) (tid : Z) (m : Master) :
  exists m1,
    onWorkerRanTask pick child (failed_message tid) m = (Ok tt, m1) /\
    build_failed m1 = true /\
    sent_up m1 = sent_up m ++ [CompletedFailed] /\
    (build_failed m = false ->
     closed m1 = closed m ++ child :: elements (idle m) /\ idle m1 = ∅) /\
    (build_failed m = true ->
     closed m1 = closed m ++ [child] /\ idle m1 = idle m) /\
    forall evs, dispatched (run pick evs m1) = dispatched m.
Proof.
  unfold onWorkerRanTask, failed_message. simpl.
  rewrite !bind_modify. unfold buildFailed. rewrite bind_get. simpl.
  destruct (build_failed m) eqn:Hb; simpl.
  - eexists. split; [reflexivity |]. simpl. repeat split; try done.
    intros evs.
    apply (failed_run_dispatches_nothing evs
             (procman_close child (send_up CompletedFailed m)) Hb).
  - rewrite bind_modify. unfold close_idle. rewrite bind_get. unfold bind.
    destruct (close_each
                (elements (idle (set_build_failed true
                   (procman_close child (send_up CompletedFailed m)))))
                (set_build_failed true
                   (procman_close child (send_up CompletedFailed m))))
      as (m' & -> & Hc & Hi & Hbf & Hs & Hd & _).
    simpl in *. eexists. split; [reflexivity |]. simpl.
    repeat split; try done.
    + rewrite Hc, <- app_assoc. reflexivity.
    + intros evs.
      destruct (failed_run_dispatches_nothing evs
                  (set_idle (fun _ => ∅) m') Hbf) as [_ ->].
      exact Hd.
Qed.

End Failure.

(** *** A run with two failures *)

Definition lone_task (id : Z) : Task :=
  mkTask id Command (PArgv ["cc"%string]) None [] [] ∅.

(** Three independent tasks, all ready. *)
Definition three_tasks : Master :=
  mkMaster (list_to_map [(1, lone_task 1); (2, lone_task 2); (3, lone_task 3)])
           [1; 2; 3] ∅ ∅ false [] [] [].

(** Workers 1, 2 and 3 take tasks 3, 2 and 1; worker 1 fails, worker 2
    finishes and waits. *)
Definition one_failure : Master :=
  run first_worker
      [Ready 1%nat; Ready 2%nat; Ready 3%nat;
       Ran 1%nat (failed_message 3); Ran 2%nat (mkRanTask true 2)]
      three_tasks.

Example one_failure_state :
  build_failed one_failure = true /\
  elements (idle one_failure) = [2%nat] /\
  closed one_failure = [1%nat].
Proof. vm_compute. done. Qed.

Definition two_failures : Master :=
  snd (onWorkerRanTask first_worker 3%nat (failed_message 1) one_failure).

(** C5, as stated, fails: when worker 3 then reports a failure too, the
    idle worker 2 is not closed and stays in the idle set. *)
Lemma second_failure_keeps_idle_worker :
  (2%nat ∈ idle one_failure) /\
  (2%nat ∉ closed two_failures) /\
  (2%nat ∈ idle two_failures) /\
  sent_up two_failures = [CompletedFailed; CompletedFailed].
Proof.
  split; [| split; [| split]].
  - apply (bool_decide_unpack _). vm_compute. exact I.
  - apply (bool_decide_unpack _). vm_compute. exact I.
  - apply (bool_decide_unpack _). vm_compute. exact I.
  - vm_compute. reflexivity.
Qed.

Lemma ranTask_failed_witness :
  exists m1,
    onWorkerRanTask first_worker 1%nat (failed_message 3) three_tasks
    = (Ok tt, m1) /\
    build_failed m1 = true /\
    sent_up m1 = [] ++ [CompletedFailed] /\
    (false = false ->
     closed m1 = [] ++ 1%nat :: elements (idle three_tasks) /\ idle m1 = ∅) /\
    (false = true -> closed m1 = [] ++ [1%nat] /\ idle m1 = idle three_tasks) /\
    forall evs, dispatched (run first_worker evs m1) = [].
Proof.
  exact (ranTask_failed first_worker 1%nat 3 three_tasks).
Defined.

End task_master_child.

(** ** Releasing the tasks downstream of a finished task *)

Module task_release.
Import task.

(** The task store names each task object by its id, and the ready list
    holds tasks of the store. *)
Definition store_ok (m : Master) : Prop :=
  forall id t, tasks m !! id = Some t -> t_id t = id.

Definition ready_known (m : Master) : Prop :=
  forall u, u ∈ task_graph m -> is_Some (tasks m !! u).

(** A task is released once it is on the ready list or with a worker. *)
Definition released (m : Master) (u : Z) : Prop :=
  u ∈ task_graph m \/ is_Some (outstanding m !! u).

(** What the loop over [task.outgoing] leaves alone. *)
Definition same_workers (m m' : Master) : Prop :=
  outstanding m' = outstanding m /\ idle m' = idle m /\
  build_failed m' = build_failed m /\ sent_up m' = sent_up m /\
  closed m' = closed m /\ dispatched m' = dispatched m.

Lemma same_workers_refl m : same_workers m m.
Proof. by repeat split. Qed.

Lemma same_workers_trans m1 m2 m3 :
  same_workers m1 m2 -> same_workers m2 m3 -> same_workers m1 m3.
Proof.
  intros (? & ? & ? & ? & ? & ?) (? & ? & ? & ? & ? & ?).
  repeat split; congruence.
Qed.

Definition release_of (task u : Z) (tu : Task) (m : Master) : Master :=
  let inc := t_incoming tu ∖ {[task]} in
  let m1 := set_tasks (insert u (with_incoming tu inc)) m in
  if (size inc =? 0)%nat then set_task_graph (fun g => g ++ [u]) m1 else m1.

Lemma release_run (task u : Z) (tu : Task) (m : Master) :
  tasks m !! u = Some tu ->
  task ∈ t_incoming tu ->
  release task u m = (Ok tt, release_of task u tu m).
Proof.
  intros Hu Hin. unfold release, release_of, task_of, bind. rewrite Hu.
  rewrite bool_decide_eq_true_2 by done. unfold modify. simpl.
  by destruct (_ =? _)%nat.
Qed.

Lemma last_dependency (task : Z) (inc : gset Z) :
  inc = {[task]} -> (size (inc ∖ {[task]}) =? 0)%nat = true.
Proof.
  intros ->. apply Nat.eqb_eq. apply size_empty_iff.
  intros x. rewrite elem_of_difference. split; [tauto |].
  intros Hx. by apply not_elem_of_empty in Hx.
Qed.

Lemma release_loop (task : Z) (outs : list Z) : forall m,
  NoDup outs ->
  (forall u, u ∈ outs ->
             exists tu, tasks m !! u = Some tu /\ task ∈ t_incoming tu) ->
  exists m',
    for_each outs (release task) m = (Ok tt, m') /\
    same_workers m m' /\
    (forall id, is_Some (tasks m' !! id) <-> is_Some (tasks m !! id)) /\
    (forall id, id ∉ outs -> tasks m' !! id = tasks m !! id) /\
    (store_ok m -> store_ok m') /\
    (forall x, x ∈ task_graph m -> x ∈ task_graph m') /\
    (forall x, x ∈ task_graph m' -> x ∈ task_graph m \/ x ∈ outs) /\
    (forall u tu, u ∈ outs -> tasks m !! u = Some tu ->
                  t_incoming tu = {[task]} -> u ∈ task_graph m').
Proof.
  induction outs as [| u outs IH]; intros m Hnd Hall; simpl.
  - exists m. split; [reflexivity |]. split; [apply same_workers_refl |].
    repeat split; try done; try tauto.
    intros u tu Hu. by apply elem_of_nil in Hu.
  - apply NoDup_cons in Hnd as [Hu Hnd].
    destruct (Hall u) as (tu & Htu & Hin); [by left |].
    unfold bind. rewrite (release_run task u tu m Htu Hin).
    set (m1 := release_of task u tu m).
    assert (Htasks1 : tasks m1 = <[u := with_incoming tu (t_incoming tu ∖ {[task]})]> (tasks m)).
    { unfold m1, release_of. by destruct (_ =? _)%nat. }
    assert (Hsame1 : same_workers m m1).
    { unfold m1, release_of. destruct (_ =? _)%nat; by repeat split. }
    assert (Hg1 : forall x, x ∈ task_graph m1 <->
                            x ∈ task_graph m \/
                            (x = u /\ (size (t_incoming tu ∖ {[task]}) =? 0)%nat = true)).
    { intros x. unfold m1, release_of. destruct (_ =? _)%nat; simpl.
      - rewrite elem_of_app, list_elem_of_singleton. tauto.
      - split; [tauto |]. intros [Hx | [_ Hx]]; [done | discriminate]. }
    destruct (IH m1 Hnd) as (m' & Hrun & Hsame & Hdom & Hframe & Hok & Hmono & Hnew & Hrel).
    { intros v Hv. destruct (Hall v) as (tv & Htv & Hinv); [by right |].
      exists tv. split; [| done]. rewrite Htasks1, lookup_insert_ne; [done |].
      intros ->. done. }
    exists m'. split; [exact Hrun |].
    split; [eapply same_workers_trans; eauto |].
    split.
    { intros id. rewrite Hdom, Htasks1. destruct (decide (u = id)) as [<- | Hne].
      - rewrite lookup_insert_eq, Htu. split; eauto.
      - by rewrite lookup_insert_ne. }
    split.
    { intros id Hid. apply not_elem_of_cons in Hid as [Hne Hid].
      rewrite (Hframe id Hid), Htasks1. by rewrite lookup_insert_ne. }
    split.
    { intros Hs. apply Hok. intros id t. rewrite Htasks1.
      destruct (decide (u = id)) as [<- | Hne].
      - rewrite lookup_insert_eq. intros [= <-]. simpl. by apply Hs.
      - rewrite lookup_insert_ne by done. apply Hs. }
    split.
    { intros x Hx. apply Hmono, Hg1. by left. }
    split.
    { intros x Hx. destruct (Hnew x Hx) as [H1 | H1].
      - apply Hg1 in H1 as [H1 | [-> _]]; [by left | right; by left].
      - right. by right. }
    intros v tv Hv Htv Hlast. apply elem_of_cons in Hv as [-> | Hv].
    + apply Hmono, Hg1. right. split; [done |].
      rewrite Htu in Htv. injection Htv as <-. by apply last_dependency.
    + apply (Hrel v tv Hv); [| done].
      rewrite Htasks1, lookup_insert_ne; [done |]. intros ->. done.
Qed.

Lemma list_pop_some {A} (l : list A) (x : A) (rest : list A) :
  list_pop l = Some (x, rest) -> l = rest ++ [x].
Proof.
  unfold list_pop. destruct (reverse l) as [| y r] eqn:Hr; [discriminate |].
  intros [= <- <-]. rewrite <- (reverse_involutive l), Hr.
  by rewrite reverse_cons.
Qed.

Lemma list_pop_none {A} (l : list A) : list_pop l = None -> l = [].
Proof.
  unfold list_pop. destruct (reverse l) as [| y r] eqn:Hr; [| discriminate].
  intros _. rewrite <- (reverse_involutive l), Hr. reflexivity.
Qed.

(** [onWorkerReady] on a well-formed master returns, and what was
    released stays released: the task it takes off the ready list goes to
    the worker. *)
Lemma onWorkerReady_keeps_released (child : worker) (m : Master) :
  store_ok m -> ready_known m ->
  exists b m',
    onWorkerReady child m = (Ok b, m') /\
    tasks m' = tasks m /\
    (forall x, x ∈ task_graph m' -> x ∈ task_graph m) /\
    (forall u, released m u -> released m' u) /\
    (b = true -> idle m' = idle m) /\
    (forall k, k ∉ task_graph m -> outstanding m !! k = None ->
               outstanding m' !! k = None).
Proof.
  intros Hstore Hready. unfold onWorkerReady. rewrite bind_get.
  destruct (list_pop (task_graph m)) as [[top rest] |] eqn:Hpop.
  - apply list_pop_some in Hpop.
    destruct (build_failed m).
    + rewrite bind_modify. exists false. eexists. split; [reflexivity |].
      simpl. repeat split; try done.
    + rewrite bind_modify. unfold bind at 1, task_of. simpl.
      destruct (Hready top) as [t Ht].
      { rewrite Hpop. apply elem_of_app. right. by left. }
      rewrite Ht. rewrite !bind_modify. exists true. eexists.
      split; [reflexivity |]. simpl. split; [done |].
      split.
      { intros x Hx. rewrite Hpop. apply elem_of_app. by left. }
      split; [| split; [done |]].
      * intros u [Hu | Hu]; unfold released; simpl.
        -- rewrite Hpop in Hu. apply elem_of_app in Hu as [Hu | Hu];
             [by left | right].
           apply list_elem_of_singleton in Hu as ->.
           rewrite (Hstore top t Ht), lookup_insert_eq. eauto.
        -- right. rewrite lookup_insert. case_decide; eauto.
      * intros k Hk Hnone. rewrite (Hstore top t Ht).
        rewrite lookup_insert_ne; [exact Hnone |].
        intros <-. apply Hk. rewrite Hpop. apply elem_of_app. right.
        by left.
  - apply list_pop_none in Hpop. exists false.
    unfold bind at 1.
    destruct (negb (size (outstanding m) =? 0)%nat).
    + unfold modify, ret. eexists. split; [reflexivity |]. simpl.
      repeat split; try done.
    + rewrite bind_modify. unfold close_idle.
      rewrite bind_assoc, bind_get, bind_assoc. unfold bind at 1.
      destruct (task_master_child.close_each
                  (elements (idle (procman_close child m)))
                  (procman_close child m))
        as (m' & -> & Hc & Hi & Hb & Hs & Hd & Ht & Hg & Ho).
      unfold bind, modify, ret. simpl in *. eexists. split; [reflexivity |]. simpl.
      split; [done |]. split; [by rewrite Hg |].
      split; [| split; [done |]].
      * intros u [Hu | Hu]; unfold released; simpl.
        -- left. by rewrite Hg.
        -- right. by rewrite Ho.
      * intros k _ Hnone. by rewrite Ho.
Qed.

Section Dispatch.

Variable pick : list worker -> nat.

Lemma set_pop_some (s : gset worker) :
  size s <> 0%nat ->
  exists w, set_pop pick s = Some (w, s ∖ {[w]}) /\ w ∈ s.
Proof.
  intros Hsize. unfold set_pop.
  assert (Hlen : length (elements s) <> 0%nat) by done.
  destruct (lookup_lt_is_Some_2 (elements s)
              (pick (elements s) mod length (elements s))%nat) as [w Hw].
  { apply Nat.mod_upper_bound. exact Hlen. }
  rewrite Hw. exists w. split; [reflexivity |].
  apply elem_of_elements. eapply list_elem_of_lookup_2. exact Hw.
Qed.

(** The loop over the idle workers ends within its fuel and keeps what
    was released. *)
Lemma use_idle_keeps_released (fuel : nat) : forall m,
  (size (idle m) < fuel)%nat ->
  store_ok m -> ready_known m ->
  exists m',
    use_idle pick fuel m = (Ok tt, m') /\
    (forall u, released m u -> released m' u) /\
    (forall k, k ∉ task_graph m -> outstanding m !! k = None ->
               outstanding m' !! k = None).
Proof.
  induction fuel as [| fuel IH]; intros m Hfuel Hstore Hready; [lia |].
  simpl.
  destruct (negb (length (task_graph m) =? 0)%nat) eqn:Hg; simpl;
    [| by exists m].
  destruct (size (idle m) =? 0)%nat eqn:Hi; simpl; [by exists m |].
  apply Nat.eqb_neq in Hi.
  destruct (set_pop_some (idle m) Hi) as (w & -> & Hw).
  rewrite bind_modify.
  set (m0 := set_idle (fun _ => idle m ∖ {[w]}) m).
  destruct (onWorkerReady_keeps_released w m0 Hstore Hready)
    as (b & m1 & Hrun & Ht & Hsub & Hrel & Hidle & Habs).
  unfold bind. rewrite Hrun. destruct b; simpl.
  - destruct (IH m1) as (m' & Hrun' & Hrel' & Habs').
    + rewrite (Hidle eq_refl). simpl.
      assert (size (idle m ∖ {[w]}) < size (idle m))%nat; [| lia].
      apply subset_size. split.
      * apply subseteq_difference_l. reflexivity.
      * intros Hback. specialize (Hback w Hw).
        apply elem_of_difference in Hback as [_ Hback].
        apply Hback. by apply elem_of_singleton.
    + intros id t. rewrite Ht. apply Hstore.
    + intros u Hu. rewrite Ht. apply Hready, Hsub, Hu.
    + exists m'. split; [exact Hrun' |]. split.
      * intros u Hu. apply Hrel', Hrel, Hu.
      * intros k Hk Hnone. apply Habs'.
        -- intros Hin. apply Hk. apply (Hsub k Hin).
        -- by apply Habs.
  - exists m1. split; [reflexivity |]. split.
    + intros u Hu. apply Hrel, Hu.
    + exact Habs.
Qed.

Definition finished (tid : Z) : RanTask := mkRanTask true tid.

Lemma onWorkerRanTask_releases (m : Master) (child w : worker)
    (tid task : Z) (t : Task) :
  store_ok m ->
  ready_known m ->
  outstanding m !! tid = Some (task, w) ->
  tasks m !! task = Some t ->
  NoDup (t_outgoing t) ->
  (forall u, u ∈ t_outgoing t ->
             exists tu, tasks m !! u = Some tu /\ task ∈ t_incoming tu) ->
  exists m',
    onWorkerRanTask pick child (finished tid) m = (Ok tt, m') /\
    (tid ∉ task_graph m -> tid ∉ t_outgoing t ->
     outstanding m' !! tid = None) /\
    forall u tu, u ∈ t_outgoing t -> tasks m !! u = Some tu ->
                 t_incoming tu = {[task]} -> released m' u.
Proof.
  intros Hstore Hready Hout Ht Hnd Hall.
  unfold onWorkerRanTask, finished. simpl.
  rewrite bind_get, Hout, bind_modify.
  set (m1 := set_outstanding (delete tid) m).
  unfold bind at 1, task_of. simpl. rewrite Ht.
  destruct (release_loop task (t_outgoing t) m1 Hnd Hall)
    as (m2 & Hrun & Hsame & Hdom & Hframe & Hok & Hmono & Hnew & Hrel).
  unfold bind at 1. rewrite Hrun.
  assert (Hstore2 : store_ok m2) by (apply Hok; exact Hstore).
  assert (Hready2 : ready_known m2).
  { intros x Hx. apply Hdom. destruct (Hnew x Hx) as [Hx' | Hx'].
    - by apply Hready.
    - destruct (Hall x Hx') as (tx & Htx & _). simpl. eauto. }
  destruct (onWorkerReady_keeps_released w m2 Hstore2 Hready2)
    as (b & m3 & Hrun3 & Ht3 & Hsub3 & Hrel3 & _ & Habs3).
  unfold bind at 1. rewrite Hrun3. rewrite bind_get.
  destruct (use_idle_keeps_released (S (size (idle m3))) m3)
    as (m4 & Hrun4 & Hrel4 & Habs4).
  { lia. }
  { intros id tk. rewrite Ht3. apply Hstore2. }
  { intros x Hx. rewrite Ht3. apply Hready2, Hsub3, Hx. }
  exists m4. split; [exact Hrun4 |]. split.
  - intros Hg Hself.
    assert (Hg2 : tid ∉ task_graph m2).
    { intros Hin. destruct (Hnew tid Hin) as [Hin' | Hin']; done. }
    apply Habs4.
    + intros Hin. apply Hg2. apply (Hsub3 tid Hin).
    + apply Habs3; [exact Hg2 |].
      destruct Hsame as (-> & _). simpl. apply lookup_delete_eq.
  - intros u tu Hu Htu Hlast. apply Hrel4, Hrel3. left.
    exact (Hrel u tu Hu Htu Hlast).
Qed.

(** C1, amended: when a worker reports an outstanding task as run with
    [ok = true], handling that message alone takes the task out of
    [outstanding] and releases every downstream task whose only missing
    dependency it was, onto the ready list or to a worker. *)
Theorem ranTask_releases (sys : System) (child w : worker) (tid task : Z)
    (t : Task) :
  store_ok (master sys) ->
  ready_known (master sys) ->
  outstanding (master sys) !! tid = Some (task, w) ->
  tid ∉ task_graph (master sys) ->
  tasks (master sys) !! task = Some t ->
  NoDup (t_outgoing t) ->
  tid ∉ t_outgoing t ->
  (forall u, u ∈ t_outgoing t ->
             exists tu, tasks (master sys) !! u = Some tu /\
                        task ∈ t_incoming tu) ->
  fst (onWorkerRanTask pick child (finished tid) (master sys)) = Ok tt /\
  outstanding
    (master (deliver pick (OnTaskChannel (Ran child (finished tid))) sys))
    !! tid = None /\
  forall u tu,
    u ∈ t_outgoing t ->
    tasks (master sys) !! u = Some tu ->
    t_incoming tu = {[task]} ->
    released
      (master (deliver pick (OnTaskChannel (Ran child (finished tid))) sys))
      u.
Proof.
  intros Hstore Hready Hout Hg Ht Hnd Hself Hall.
  destruct (onWorkerRanTask_releases (master sys) child w tid task t
              Hstore Hready Hout Ht Hnd Hall) as (m' & Hrun & Habs & Hrel).
  simpl. rewrite Hrun. simpl. split; [done |]. split; [| exact Hrel].
  by apply Habs.
Qed.

End Dispatch.

(** *** A compile and the link that waits for it *)

Import database.

(** The database: [gcc -c a.c] makes [a.o], which [ld] consumes. *)
Definition two_commands : database.State :=
  snd ((let* compile := add_command Cxx None
                          (PCxx "gcc" ["gcc"; "-c"; "a.c"]%string) in
        let* obj := add_output None "a.o" in
        let* link := add_command Command None (PArgv ["ld"; "a.o"]%string) in
        add_strong_edge compile obj >>
        add_strong_edge obj link) (empty_state ∅)).

(** The tasks of the two commands, ids 1 and 3. *)
Definition compile_task : Task :=
  mkTask 1 Cxx (PCxx "gcc" ["gcc"; "-c"; "a.c"]%string) None ["a.o"%string]
         [3] ∅.
Definition link_task : Task :=
  mkTask 3 Command (PArgv ["ld"; "a.o"]%string) None [] [] {[1]}.

Definition fresh_build : System :=
  mkSystem
    (mkMaster (list_to_map [(1, compile_task); (3, link_task)]) [1] ∅ ∅
              false [] [] [])
    (mkParent false [] [] 0 false)
    two_commands.


(** What the worker sends on the result channel after the compile. *)
Definition compile_results : Results :=
  mkResults 42 1 true "" "" (Some []) [("a.o"%string, t7)].

(** The database records the success of a task when the rows of its
    outputs are clean and carry the new timestamps. *)
Definition success_recorded (st : database.State)
    (updates : list (string * float)) : Prop :=
  forall path stamp, (path, stamp) ∈ updates ->
    exists id r, nodes (cn st) !! id = Some r /\
                 r_path r = Some path /\ r_stamp r = stamp /\ r_dirty r = 0.

Definition compile_acknowledged : System :=
  deliver_all first_worker
    [OnTaskChannel (Ready 1%nat); OnTaskChannel (Ran 1%nat (finished 1))]
    fresh_build.

Definition compile_reported : System :=
  deliver first_worker (OnResultChannel compile_results) compile_acknowledged.

Lemma a_o_not_stamped (st : database.State) :
  map_to_list (nodes (cn st)) = map_to_list (nodes (cn two_commands)) ->
  ~ success_recorded st [("a.o"%string, t7)].
Proof.
  intros Hrows Hrec.
  destruct (Hrec "a.o"%string t7) as (id & r & Hr & Hpath & Hstamp & _);
    [by left |].
  apply elem_of_map_to_list in Hr. rewrite Hrows in Hr.
  let rows := eval vm_compute in (map_to_list (nodes (cn two_commands))) in
  change (map_to_list (nodes (cn two_commands))) with rows in Hr.
  repeat (apply elem_of_cons in Hr as [Hr | Hr]);
    try (injection Hr as -> ->; simpl in *; discriminate).
  by apply elem_of_nil in Hr.
Qed.

(** C1, as stated, fails: once the compile is acknowledged the link is
    already with a worker, while the row of [a.o] has neither the new
    timestamp then nor after the results message was processed. *)
Lemma released_before_recorded :
  is_Some (outstanding (master compile_acknowledged) !! 3) /\
  ~ success_recorded (store compile_acknowledged)
                     (res_updates compile_results) /\
  ~ success_recorded (store compile_reported)
                     (res_updates compile_results) /\
  store compile_reported = two_commands.
Proof.
  split; [vm_compute; eauto |].
  split; [| split]; [| | reflexivity];
    apply a_o_not_stamped; reflexivity.
Qed.

Definition compile_started : System :=
  deliver first_worker (OnTaskChannel (Ready 1%nat)) fresh_build.

Lemma compile_started_store_ok : store_ok (master compile_started).
Proof.
  intros id t Ht. apply elem_of_map_to_list in Ht.
  let ts := eval vm_compute in (map_to_list (tasks (master compile_started))) in
  change (map_to_list (tasks (master compile_started))) with ts in Ht.
  repeat (apply elem_of_cons in Ht as [Ht | Ht]);
    try (injection Ht as -> ->; reflexivity).
  by apply elem_of_nil in Ht.
Qed.

Lemma ranTask_releases_witness :
  fst (onWorkerRanTask first_worker 1%nat (finished 1)
                       (master compile_started)) = Ok tt /\
  outstanding
    (master (deliver first_worker (OnTaskChannel (Ran 1%nat (finished 1)))
                     compile_started))
    !! 1 = None /\
  forall u tu,
    u ∈ t_outgoing compile_task ->
    tasks (master compile_started) !! u = Some tu ->
    t_incoming tu = {[1]} ->
    released
      (master (deliver first_worker (OnTaskChannel (Ran 1%nat (finished 1)))
                       compile_started))
      u.
Proof.
  apply (ranTask_releases first_worker compile_started 1%nat 1%nat 1 1
                          compile_task).
  - exact compile_started_store_ok.
  - intros u Hu. vm_compute in Hu. by apply elem_of_nil in Hu.
  - vm_compute. reflexivity.
  - intros Hu. vm_compute in Hu. by apply elem_of_nil in Hu.
  - vm_compute. reflexivity.
  - apply NoDup_singleton.
  - intros Hu. apply list_elem_of_singleton in Hu. discriminate.
  - intros u Hu. apply list_elem_of_singleton in Hu as ->.
    exists link_task. split; [vm_compute; reflexivity |].
    change (1 ∈ ({[1]} : gset Z)). by apply elem_of_singleton_2.
Defined.

End task_release.

(** ** Dropping a command and its outputs *)

Module drop_command_facts.
Import database.

(** The state after [drop_entry] of an entry with id [id]. *)
Definition dropped (id : Z) (st : State) : State :=
  set_node_cache (delete id)
    (set_cn (set_weak_edges (sql_delete_edges_of id))
      (set_cn (set_dynamic_edges (sql_delete_edges_of id))
        (set_cn (set_edges (sql_delete_edges_of id))
          (set_cn (set_nodes (delete id)) st)))).

Lemma drop_entry_run (entry : loc) (e : Entry) (st : State) :
  heap st !! entry = Some e ->
  is_Some (node_cache_ st !! e_id e) ->
  drop_entry entry st = (Ok tt, dropped (e_id e) st).
Proof.
  intros He [l Hl]. unfold drop_entry. run_monad. rewrite He. simpl.
  rewrite Hl. reflexivity.
Qed.




(** The file of an output can be removed: it is a file, or not there. *)
Definition removable (files : gmap string fsentry) (p : string) : Prop :=
  forall t, files !! p <> Some (FsDir t).







Lemma dropped_nodes id st :
  nodes (cn (dropped id st)) = delete id (nodes (cn st)).
Proof. reflexivity. Qed.
Lemma dropped_node_cache id st :
  node_cache_ (dropped id st) = delete id (node_cache_ st).
Proof. reflexivity. Qed.


(** *** Loading entries *)

(** The id cache names entries by their own id. *)
Definition cache_ok (st : State) : Prop :=
  forall id l, node_cache_ st !! id = Some l ->
               exists e, heap st !! l = Some e /\ e_id e = id.

(** Two versions of an entry that differ in the memoised outgoing set. *)
Definition same_node (e e' : Entry) : Prop :=
  with_outgoing e None = with_outgoing e' None.

(** Loading only adds: tables and files are untouched, entries stay (up
    to their memoised outgoing set) and so do cache lines. *)
Definition grows (st st' : State) : Prop :=
  cn st' = cn st /\ fs st' = fs st /\
  (forall l e, heap st !! l = Some e ->
               exists e', heap st' !! l = Some e' /\ same_node e e') /\
  (forall id l, node_cache_ st !! id = Some l ->
                node_cache_ st' !! id = Some l).

Lemma grows_refl st : grows st st.
Proof. repeat split; eauto. intros l e He. exists e. by split. Qed.

Lemma grows_trans st1 st2 st3 : grows st1 st2 -> grows st2 st3 -> grows st1 st3.
Proof.
  intros (Hc1 & Hf1 & Hh1 & Hn1) (Hc2 & Hf2 & Hh2 & Hn2).
  split; [congruence |]. split; [congruence |]. split.
  - intros l e He. destruct (Hh1 l e He) as (e' & He' & Hs1).
    destruct (Hh2 l e' He') as (e'' & He'' & Hs2).
    exists e''. split; [done |]. unfold same_node in *. congruence.
  - eauto.
Qed.



Lemma same_node_path e e' : same_node e e' -> e_path e = e_path e'.
Proof. intros H. by injection H. Qed.

Lemma fresh_loc_fresh (h : gmap loc Entry) : h !! fresh_loc h = None.
Proof.
  destruct (h !! fresh_loc h) as [e |] eqn:He; [| reflexivity].
  assert (Hin : fresh_loc h ∈ elements (dom h)).
  { apply elem_of_elements, elem_of_dom. eauto. }
  apply max_list_elem_of_le in Hin. unfold fresh_loc in Hin.
  destruct (Nat.nle_succ_diag_l _ Hin).
Qed.

(** Loading by id only adds entries and cache lines. *)
Definition extends (st st' : State) : Prop :=
  cn st' = cn st /\ fs st' = fs st /\
  (forall l e, heap st !! l = Some e -> heap st' !! l = Some e) /\
  (forall id l, node_cache_ st !! id = Some l ->
                node_cache_ st' !! id = Some l).

Lemma extends_refl st : extends st st.
Proof. by repeat split. Qed.

Lemma extends_grows st st' : extends st st' -> grows st st'.
Proof.
  intros (Hc & Hf & Hh & Hn). repeat split; try done.
  intros l e He. exists e. split; [by apply Hh | done].
Qed.

(** What a query for a node by id guarantees when it returns. *)
Definition loads (query : Z -> M State loc) : Prop :=
  forall id st l st',
    cache_ok st -> query id st = (Ok l, st') ->
    cache_ok st' /\ extends st st' /\ node_cache_ st' !! id = Some l.

Lemma import_node_with_loads (query : Z -> M State loc) :
  loads query -> forall row, loads (fun id => import_node_with query id row).
Proof.
  intros Hq row id st l st' Hok. unfold import_node_with.
  rewrite bind_get. unfold bind at 1, assert.
  case_bool_decide as Hfree; [| discriminate]. unfold ret at 1.
  unfold bind at 1.
  destruct (match i_folder row with
            | FNone => ret None
            | FId f => if f =? 0 then ret None
                       else let* l := query f in ret (Some l)
            | FEntry l => ret (Some l)
            end st) as [[folder | e] st1] eqn:Hfolder; [| discriminate].
  assert (Hst1 : cache_ok st1 /\ extends st st1).
  { destruct (i_folder row) as [| f | lf].
    - injection Hfolder as <- <-. split; [done | apply extends_refl].
    - destruct (f =? 0).
      + injection Hfolder as <- <-. split; [done | apply extends_refl].
      + unfold bind in Hfolder.
        destruct (query f st) as [[lf | e] st0] eqn:Hqf; [| discriminate].
        injection Hfolder as <- <-.
        destruct (Hq f st lf st0 Hok Hqf) as (? & ? & ?). by split.
    - injection Hfolder as <- <-. split; [done | apply extends_refl]. }
  destruct Hst1 as [Hok1 (Hcn1 & Hfs1 & Hheap1 & Hcache1)].
  unfold bind at 1, alloc.
  set (node := fresh_loc (heap st1)).
  set (e := mkEntry id (i_type row) (i_path row) _ folder _ _ _ None None
                    None None).
  rewrite bind_modify.
  assert (Hfresh : heap st1 !! node = None) by apply fresh_loc_fresh.
  set (st3 := set_node_cache (insert id node) (set_heap (insert node e) st1)).
  assert (Hspec : forall st4,
            heap st4 = heap st3 -> node_cache_ st4 = node_cache_ st3 ->
            cn st4 = cn st3 -> fs st4 = fs st3 ->
            cache_ok st4 /\ extends st st4 /\ node_cache_ st4 !! id = Some node).
  { intros st4 Hh Hn Hc Hf. split; [| split].
    - intros id0 l0. rewrite Hn, Hh. simpl.
      destruct (decide (id = id0)) as [<- | Hne].
      + rewrite lookup_insert_eq. intros [= <-].
        exists e. by rewrite lookup_insert_eq.
      + rewrite lookup_insert_ne by done. intros Hl0.
        destruct (Hok1 id0 l0 Hl0) as (e0 & He0 & Hid0).
        exists e0. split; [| done]. rewrite lookup_insert_ne; [done |].
        intros <-. congruence.
    - split; [by rewrite Hc | ]. split; [by rewrite Hf |]. split.
      + intros l0 e0 He0. rewrite Hh. simpl.
        rewrite lookup_insert_ne; [by apply Hheap1 |]. intros <-.
        apply Hheap1 in He0. congruence.
      + intros id0 l0 Hl0. rewrite Hn. simpl.
        rewrite lookup_insert_ne; [by apply Hcache1 |].
        intros <-. congruence.
    - rewrite Hn. simpl. apply lookup_insert_eq. }
  unfold bind at 1.
  destruct (str_truthy (i_path row)).
  - rewrite bind_get. unfold bind at 1, assert.
    case_bool_decide; [| discriminate]. unfold ret at 1.
    unfold modify, ret. simpl. intros [= <- <-]. by apply Hspec.
  - unfold ret. intros [= <- <-]. by apply Hspec.
Qed.

Lemma query_node_fuel_loads (fuel : nat) : loads (query_node_fuel fuel).
Proof.
  induction fuel as [| fuel IH]; intros id st l st' Hok; simpl.
  - destruct (node_cache_ st !! id) as [l0 |] eqn:Hc; [| discriminate].
    intros [= <- <-]. split; [done |]. split; [apply extends_refl | done].
  - destruct (node_cache_ st !! id) as [l0 |] eqn:Hc.
    + intros [= <- <-]. split; [done |]. split; [apply extends_refl | done].
    + destruct (nodes (cn st) !! id) as [r |]; [| discriminate].
      apply (import_node_with_loads _ IH (irow_of_row r) id st l st' Hok).
Qed.

Lemma query_node_loads : loads query_node.
Proof.
  intros id st l st' Hok. unfold query_node. apply query_node_fuel_loads, Hok.
Qed.

(** *** The outgoing nodes of an entry *)

Definition outgoing_of (st : State) (node : loc) : list loc :=
  match heap st !! node with
  | Some n => default [] (e_outgoing n)
  | None => []
  end.

Lemma elem_of_set_add (x o : loc) (l : list loc) :
  x ∈ set_add o l <-> x = o \/ x ∈ l.
Proof.
  unfold set_add. case_bool_decide as Hin.
  - split; [by right | by intros [-> | ?]].
  - rewrite elem_of_app, list_elem_of_singleton. tauto.
Qed.

Lemma NoDup_set_add (o : loc) (l : list loc) : NoDup l -> NoDup (set_add o l).
Proof.
  intros Hnd. unfold set_add. case_bool_decide as Hin; [done |].
  apply NoDup_app. split; [done |]. split; [| apply NoDup_singleton].
  intros x Hx Hx'. apply list_elem_of_singleton in Hx' as ->. done.
Qed.

(** The body of the two loops of [query_outgoing]. *)
Definition load_outgoing (node : loc) (outgoing_id : Z) : M State unit :=
  let* entry := query_node outgoing_id in outgoing_add node entry.

Lemma load_outgoing_run (node : loc) (oid : Z) (st st' : State) :
  cache_ok st ->
  is_Some (heap st !! node) ->
  load_outgoing node oid st = (Ok tt, st') ->
  cache_ok st' /\ grows st st' /\
  exists o, node_cache_ st' !! oid = Some o /\
            outgoing_of st' node = set_add o (outgoing_of st node).
Proof.
  intros Hok [n Hn]. unfold load_outgoing, bind.
  destruct (query_node oid st) as [[o | e] st1] eqn:Hq; [| discriminate].
  destruct (query_node_loads oid st o st1 Hok Hq)
    as (Hok1 & (Hcn & Hfs & Hheap & Hcache) & Ho).
  unfold outgoing_add, update_entry, modify. intros [= <-].
  pose proof (Hheap node n Hn) as Hn1.
  split; [| split].
  - intros id l Hl. simpl in *. destruct (Hok1 id l Hl) as (e & He & Hid).
    destruct (decide (l = node)) as [-> | Hne].
    + rewrite lookup_alter_eq, He. simpl. eauto.
    + rewrite lookup_alter_ne by done. eauto.
  - split; [done |]. split; [done |]. split; [| done].
    intros l e He. simpl. apply Hheap in He.
    destruct (decide (l = node)) as [-> | Hne].
    + rewrite lookup_alter_eq, He. simpl. eexists. split; [reflexivity |].
      reflexivity.
    + rewrite lookup_alter_ne by done. exists e. by split.
  - exists o. split; [done |]. unfold outgoing_of. simpl.
    rewrite lookup_alter_eq, Hn1, Hn. reflexivity.
Qed.

Lemma grows_heap_some st st' l :
  grows st st' -> is_Some (heap st !! l) -> is_Some (heap st' !! l).
Proof.
  intros (_ & _ & Hh & _) [e He]. destruct (Hh l e He) as (e' & He' & _).
  eauto.
Qed.

Lemma load_loop (node : loc) (ids : list Z) : forall st st',
  cache_ok st ->
  is_Some (heap st !! node) ->
  for_each ids (load_outgoing node) st = (Ok tt, st') ->
  cache_ok st' /\ grows st st' /\
  (forall oid, oid ∈ ids ->
     exists o, node_cache_ st' !! oid = Some o /\ o ∈ outgoing_of st' node) /\
  (forall o, o ∈ outgoing_of st node -> o ∈ outgoing_of st' node) /\
  (forall o, o ∈ outgoing_of st' node ->
     o ∈ outgoing_of st node \/ exists oid, node_cache_ st' !! oid = Some o) /\
  (NoDup (outgoing_of st node) -> NoDup (outgoing_of st' node)).
Proof.
  induction ids as [| oid ids IH]; intros st st' Hok Hnode; simpl.
  - intros [= <-]. split; [done |]. split; [apply grows_refl |].
    split; [intros ? H; by apply elem_of_nil in H |]. repeat split; eauto.
  - unfold bind.
    destruct (load_outgoing node oid st) as [[[] | e] st1] eqn:Hstep;
      [| discriminate].
    intros Hrest.
    destruct (load_outgoing_run node oid st st1 Hok Hnode Hstep)
      as (Hok1 & Hgrow1 & o & Ho & Hout1).
    destruct (IH st1 st' Hok1 (grows_heap_some _ _ _ Hgrow1 Hnode) Hrest)
      as (Hok' & Hgrow' & Hcov & Hmono & Hfrom & Hnd).
    split; [done |]. split; [eapply grows_trans; eauto |].
    split; [| split; [| split]].
    + intros oid' Hin. apply elem_of_cons in Hin as [-> | Hin].
      * exists o. split; [by apply Hgrow' |].
        apply Hmono. rewrite Hout1. apply elem_of_set_add. by left.
      * by apply Hcov.
    + intros x Hx. apply Hmono. rewrite Hout1. apply elem_of_set_add.
      by right.
    + intros x Hx. destruct (Hfrom x Hx) as [Hx1 | Hx1]; [| by right].
      rewrite Hout1 in Hx1. apply elem_of_set_add in Hx1 as [-> | Hx1].
      * right. exists oid. by apply Hgrow'.
      * by left.
    + intros Hnd0. apply Hnd. rewrite Hout1. by apply NoDup_set_add.
Qed.

Lemma elem_of_select_outgoing (tbl : list (Z * Z)) (id oid : Z) :
  (oid, id) ∈ tbl -> oid ∈ sql_select_outgoing tbl id.
Proof.
  intros Hin. unfold sql_select_outgoing. apply list_elem_of_fmap.
  exists (oid, id). split; [done |]. by apply list_elem_of_filter.
Qed.

(** [query_outgoing] on an entry with no memoised set: the result lists,
    without repetition, the cached entries of the nodes with a strong or
    a dynamic edge from it. *)
Lemma query_outgoing_fresh (node : loc) (n : Entry) (st st1 : State)
    (outs : list loc) :
  cache_ok st ->
  heap st !! node = Some n ->
  set_truthy (e_outgoing n) = false ->
  query_outgoing node st = (Ok outs, st1) ->
  cache_ok st1 /\ grows st st1 /\ NoDup outs /\
  (forall oid, (oid, e_id n) ∈ edges (cn st) \/
               (oid, e_id n) ∈ dynamic_edges (cn st) ->
     exists o, node_cache_ st1 !! oid = Some o /\ o ∈ outs) /\
  (forall o, o ∈ outs -> exists oid, node_cache_ st1 !! oid = Some o).
Proof.
  intros Hok Hn Hunset. unfold query_outgoing.
  unfold bind at 1, deref. rewrite Hn, Hunset.
  unfold update_entry. rewrite bind_modify.
  set (st0 := set_heap (alter (fun n0 => with_outgoing n0 (Some [])) node) st).
  assert (Hn0 : heap st0 !! node = Some (with_outgoing n (Some []))).
  { simpl. by rewrite lookup_alter_eq, Hn. }
  assert (Hok0 : cache_ok st0).
  { intros id l Hl. destruct (Hok id l Hl) as (e & He & Hid). simpl.
    destruct (decide (l = node)) as [-> | Hne].
    - rewrite lookup_alter_eq, He. simpl. eauto.
    - rewrite lookup_alter_ne by done. eauto. }
  assert (Hgrow0 : grows st st0).
  { repeat split; try done. intros l e He. simpl.
    destruct (decide (l = node)) as [-> | Hne].
    - rewrite lookup_alter_eq, He. simpl. eexists. by split.
    - rewrite lookup_alter_ne by done. exists e. by split. }
  assert (Hout0 : outgoing_of st0 node = []).
  { unfold outgoing_of. by rewrite Hn0. }
  rewrite bind_get. unfold bind at 1.
  change (fun outgoing_id => let* entry := query_node outgoing_id in
                             outgoing_add node entry)
    with (load_outgoing node).
  destruct (for_each (sql_select_outgoing (edges (cn st0)) (e_id n))
                     (load_outgoing node) st0) as [[[] | e] stA] eqn:HA;
    [| discriminate].
  destruct (load_loop node _ st0 stA Hok0 ltac:(eauto) HA)
    as (HokA & HgrowA & HcovA & HmonoA & HfromA & HndA).
  rewrite bind_get. unfold bind at 1.
  destruct (for_each (sql_select_outgoing (dynamic_edges (cn stA)) (e_id n))
                     (load_outgoing node) stA) as [[[] | e] stB] eqn:HB;
    [| discriminate].
  assert (HnodeA : is_Some (heap stA !! node))
    by (eapply grows_heap_some; eauto).
  destruct (load_loop node _ stA stB HokA HnodeA HB)
    as (HokB & HgrowB & HcovB & HmonoB & HfromB & HndB).
  unfold bind, deref.
  destruct (heap stB !! node) as [nB |] eqn:HnB; [| discriminate].
  unfold ret. intros [= <- <-].
  assert (Houts : default [] (e_outgoing nB) = outgoing_of stB node).
  { unfold outgoing_of. by rewrite HnB. }
  rewrite Houts.
  split; [done |].
  split; [eapply grows_trans; [exact Hgrow0 |];
          eapply grows_trans; eauto |].
  split; [apply HndB, HndA; rewrite Hout0; constructor |].
  split.
  - intros oid [Hin | Hin].
    + destruct (HcovA oid) as (o & Ho & Hin').
      { apply elem_of_select_outgoing. exact Hin. }
      exists o. split; [by apply HgrowB | by apply HmonoB].
    + apply HcovB. apply elem_of_select_outgoing.
      destruct HgrowA as (-> & _). exact Hin.
  - intros o Ho. destruct (HfromB o Ho) as [Ho' | Ho']; [| done].
    destruct (HfromA o Ho') as [Ho0 | [oid Hoid]].
    + rewrite Hout0 in Ho0. by apply elem_of_nil in Ho0.
    + exists oid. by apply HgrowB.
Qed.



(** When the nodes at the other end of the edges are already in the id
    cache, [query_outgoing] returns: nothing has to be read. *)
Lemma select_outgoing_elem_of (tbl : list (Z * Z)) (id oid : Z) :
  oid ∈ sql_select_outgoing tbl id -> (oid, id) ∈ tbl.
Proof.
  unfold sql_select_outgoing. intros Hin.
  apply list_elem_of_fmap in Hin as ([o i] & -> & Hin).
  apply list_elem_of_filter in Hin as [Hid Hin]. simpl in *. by subst.
Qed.

Lemma query_node_cached (id : Z) (l : loc) (st : State) :
  node_cache_ st !! id = Some l -> query_node id st = (Ok l, st).
Proof. intros Hl. unfold query_node, depth. simpl. by rewrite Hl. Qed.

Lemma load_loop_cached (node : loc) (ids : list Z) : forall st,
  (forall oid, oid ∈ ids -> is_Some (node_cache_ st !! oid)) ->
  exists st',
    for_each ids (load_outgoing node) st = (Ok tt, st') /\
    node_cache_ st' = node_cache_ st /\ cn st' = cn st /\
    (is_Some (heap st !! node) -> is_Some (heap st' !! node)).
Proof.
  induction ids as [| oid ids IH]; intros st Hall; simpl.
  - by exists st.
  - destruct (Hall oid) as [o Ho]; [by left |].
    unfold bind at 1, load_outgoing at 1. unfold bind at 1.
    rewrite (query_node_cached oid o st Ho).
    unfold outgoing_add, update_entry, modify.
    set (st1 := set_heap _ st).
    destruct (IH st1) as (st' & Hrun & Hc & Hcn & Hh).
    { intros oid' Hin. simpl. apply Hall. by right. }
    exists st'. split; [exact Hrun |]. split; [done |]. split; [done |].
    intros [n Hn]. apply Hh. simpl. rewrite lookup_alter_eq, Hn. simpl. eauto.
Qed.

Lemma query_outgoing_returns (node : loc) (n : Entry) (st : State) :
  heap st !! node = Some n ->
  (forall oid, (oid, e_id n) ∈ edges (cn st) \/
               (oid, e_id n) ∈ dynamic_edges (cn st) ->
               is_Some (node_cache_ st !! oid)) ->
  exists outs st1, query_outgoing node st = (Ok outs, st1).
Proof.
  intros Hn Hall. unfold query_outgoing. unfold bind at 1, deref. rewrite Hn.
  destruct (set_truthy (e_outgoing n)); [unfold ret; eauto |].
  unfold update_entry. rewrite bind_modify.
  set (st0 := set_heap _ st).
  rewrite bind_get. unfold bind at 1.
  change (fun outgoing_id => let* entry := query_node outgoing_id in
                             outgoing_add node entry)
    with (load_outgoing node).
  destruct (load_loop_cached node
              (sql_select_outgoing (edges (cn st0)) (e_id n)) st0)
    as (stA & -> & HcA & HcnA & HhA).
  { intros oid Hin. apply select_outgoing_elem_of in Hin. simpl.
    apply Hall. by left. }
  rewrite bind_get. unfold bind at 1.
  destruct (load_loop_cached node
              (sql_select_outgoing (dynamic_edges (cn stA)) (e_id n)) stA)
    as (stB & -> & HcB & HcnB & HhB).
  { intros oid Hin. apply select_outgoing_elem_of in Hin.
    rewrite HcA, HcnA in *. simpl in *. apply Hall. by right. }
  unfold bind, deref.
  destruct HhB as [nB ->]; [| unfold ret; eauto].
  apply HhA. simpl. rewrite lookup_alter_eq, Hn. simpl. eauto.
Qed.

(** *** [drop_command] *)

(** The outgoing nodes are outputs with a relative path whose file can be
    removed: what the assertions of [drop_command] and [drop_output] ask
    for, and the errors of [os.unlink] other than a missing file. *)
Definition outputs_removable (st : State) (outs : list loc) : Prop :=
  forall output o,
    output ∈ outs -> heap st !! output = Some o ->
    e_type o = Output /\
    exists p, e_path o = Some p /\ os.isabs p = false /\
              removable (fs st) p.


(** *** A compile and its object file *)


Definition compile_declared : State :=
  snd ((let* compile := add_command Cxx None
                          (PCxx "gcc" ["gcc"; "-c"; "a.c"]%string) in
        let* obj := add_output None "a.o" in
        add_strong_edge compile obj)
         (empty_state {[ "a.o"%string := FsFile t7 ]})).





(** The same run, evaluated: the table of nodes, the edges, the files and
    the id cache are empty at the end. *)
Example drop_command_evaluated :
  let st' := snd (drop_command 1%nat compile_declared) in
  fst (drop_command 1%nat compile_declared) = Ok tt /\
  map_to_list (nodes (cn st')) = [] /\ edges (cn st') = [] /\
  map_to_list (fs st') = [] /\ map_to_list (node_cache_ st') = [].
Proof. vm_compute. done. Qed.



End drop_command_facts.

(** ** More on what a worker does *)

Module worker_runs.
Import task.

(** The files once the declared outputs are removed. *)
Definition without (outputs : list string) (files : gmap string fsentry)
    : gmap string fsentry :=
  foldl (fun files output => delete output files) files outputs.

(** No declared output is a directory. *)
Definition outputs_removable (files : gmap string fsentry)
    (outputs : list string) : Prop :=
  forall output t, output ∈ outputs -> files !! output <> Some (FsDir t).

Lemma without_lookup (outputs : list string) : forall files p,
  without outputs files !! p
  = if bool_decide (p ∈ outputs) then None else files !! p.
Proof.
  induction outputs as [| o outputs IH]; intros files p; simpl.
  - reflexivity.
  - rewrite IH. destruct (decide (p ∈ outputs)) as [Hin | Hin].
    + rewrite !bool_decide_eq_true_2; [done | by right | done].
    + rewrite (bool_decide_eq_false_2 _ Hin).
      destruct (decide (p = o)) as [-> | Hne].
      * rewrite bool_decide_eq_true_2 by (by left). apply lookup_delete_eq.
      * rewrite bool_decide_eq_false_2.
        -- by apply lookup_delete_ne.
        -- intros H. apply elem_of_cons in H as [? | ?]; done.
Qed.

Lemma remove_outputs_run (outputs : list string) : forall w,
  outputs_removable (w_fs w) outputs ->
  for_each outputs remove_output w
  = (Ok tt, w_set_fs (without outputs (w_fs w)) w).
Proof.
  induction outputs as [| o outputs IH]; intros w Hrm; simpl.
  - unfold ret. by destruct w.
  - assert (Hstep : exists w1,
              remove_output o w = (Ok tt, w1) /\
              w1 = w_set_fs (delete o (w_fs w)) w).
    { unfold remove_output. rewrite bind_get. unfold os.unlink.
      destruct (w_fs w !! o) as [[t | t] |] eqn:Ho.
      - eexists. split; reflexivity.
      - destruct (Hrm o t); [by left | done].
      - rewrite bool_decide_eq_false_2 by (intros H; by apply H).
        eexists. split; [reflexivity |]. rewrite (delete_id _ _ Ho).
        by destruct w. }
    destruct Hstep as (w1 & Hrun & ->). unfold bind. rewrite Hrun.
    rewrite IH.
    + reflexivity.
    + intros output t Hin. simpl. rewrite lookup_delete.
      case_decide; [done |]. apply Hrm. by right.
Qed.

Section Runs.

Variable Execute : option string -> list string -> gmap string fsentry ->
                   Z * string * string * gmap string fsentry.
Variable ParseGCCDeps : string -> string * list string.
Variable rebase : string -> option string -> string -> string.

(** The argument vector a task runs. *)
Definition task_argv (message : TaskMsg) : option (list string) :=
  match task_type message, task_data message with
  | Command, PArgv argv => Some argv
  | Cxx, PCxx _ argv => Some argv
  | _, _ => None
  end.

(** What [receiveTask] does once the task has run. *)
Definition report (message : TaskMsg) (response : Response) : M Worker unit :=
  modify (w_send (mkRanTask (rsp_ok response) (task_id message))) >>
  let* new_timestamps :=
    (if rsp_ok response then stat_outputs (task_outputs message) []
     else ret []) in
  let* w := get in
  if w_result_open w then
    modify (w_send_results
              (mkResults (w_pid w) (task_id message) (rsp_ok response)
                         (rsp_stdout response) (rsp_stderr response)
                         (rsp_deps response) new_timestamps))
  else ret tt.

Lemma receiveTask_steps (message : TaskMsg) :
  receiveTask Execute ParseGCCDeps rebase message
  = (for_each (task_outputs message) remove_output >>
     let* response := taskMap Execute ParseGCCDeps rebase
                              (task_type message) message in
     report message response).
Proof. reflexivity. Qed.

Lemma stat_outputs_state outputs acc w :
  snd (stat_outputs outputs acc w) = w.
Proof. by destruct (worker_child.stat_outputs_spec outputs acc w). Qed.

Lemma report_fs (message : TaskMsg) (response : Response) (w : Worker) :
  w_fs (snd (report message response w)) = w_fs w.
Proof.
  unfold report. rewrite bind_modify. unfold bind at 1.
  destruct (rsp_ok response).
  - pose proof (stat_outputs_state (task_outputs message) []
                  (w_send (mkRanTask true (task_id message)) w)) as Hs.
    destruct (stat_outputs _ _ _) as [[l | e] w3]; simpl in *; subst w3;
      [| done].
    rewrite bind_get. by destruct (w_result_open _).
  - unfold ret at 1. rewrite bind_get. by destruct (w_result_open _).
Qed.

(** The task runs its argument vector where the worker stands. *)
Lemma taskMap_fs (message : TaskMsg) (argv : list string) (w : Worker) :
  task_argv message = Some argv ->
  w_fs (snd (taskMap Execute ParseGCCDeps rebase (task_type message)
                     message w))
  = snd (Execute (task_folder message) argv (w_fs w)).
Proof.
  unfold task_argv, taskMap, doCommand, doCompile.
  destruct (task_type message); try discriminate;
    destruct (task_data message) as [| a | cc a]; try discriminate;
    intros [= ->]; rewrite bind_get;
    destruct (Execute _ _ _) as [[[code out] err] fs']; rewrite bind_modify.
  - reflexivity.
  - case_bool_decide; [| reflexivity].
    by destruct (ParseGCCDeps err).
Qed.

(** X1: the command runs on files from which every declared output is gone,
    and what it leaves is what the worker ends with. *)
Theorem command_runs_without_outputs (message : TaskMsg) (argv : list string)
    (w : Worker) :
  outputs_removable (w_fs w) (task_outputs message) ->
  task_argv message = Some argv ->
  (forall output, output ∈ task_outputs message ->
                  without (task_outputs message) (w_fs w) !! output = None) /\
  w_fs (snd (receiveTask Execute ParseGCCDeps rebase message w))
  = snd (Execute (task_folder message) argv
                 (without (task_outputs message) (w_fs w))).
Proof.
  intros Hrm Hargv. split.
  { intros output Hin. rewrite without_lookup.
    by rewrite bool_decide_eq_true_2. }
  rewrite receiveTask_steps. unfold bind at 1.
  rewrite (remove_outputs_run _ w Hrm).
  set (w0 := w_set_fs (without (task_outputs message) (w_fs w)) w).
  pose proof (taskMap_fs message argv w0 Hargv) as Hrun.
  unfold bind.
  destruct (taskMap _ _ _ _ message w0) as [[response | e] w1]; simpl in *.
  - by rewrite report_fs.
  - exact Hrun.
Qed.

(** What the worker has sent, and as which process. *)
Definition sent (w : Worker) : list RanTask * list Results * Z * bool :=
  (w_sent w, w_results w, w_pid w, w_result_open w).

Lemma remove_output_sent output w :
  sent (snd (remove_output output w)) = sent w.
Proof.
  unfold remove_output. rewrite bind_get.
  destruct (os.unlink (w_fs w) output) as [[[] | []] fs']; try reflexivity.
  simpl. case_bool_decide; reflexivity.
Qed.

Lemma taskMap_sent ty message w :
  sent (snd (taskMap Execute ParseGCCDeps rebase ty message w)) = sent w.
Proof.
  unfold taskMap, doCompile, doCommand.
  destruct ty; try reflexivity;
    destruct (task_data message); try reflexivity; rewrite bind_get;
    destruct (Execute _ _ _) as [[[code out] err] fs']; rewrite bind_modify;
    try reflexivity.
  case_bool_decide; [| reflexivity].
  destruct (ParseGCCDeps err); reflexivity.
Qed.

(** A plain command, or a compile of the one flavour the worker knows. *)
Definition runnable (message : TaskMsg) (argv : list string) : Prop :=
  (task_type message = Command /\ task_data message = PArgv argv) \/
  (task_type message = Cxx /\ task_data message = PCxx "gcc" argv).

Lemma taskMap_runs (message : TaskMsg) (argv : list string) (w : Worker) :
  runnable message argv ->
  exists response,
    taskMap Execute ParseGCCDeps rebase (task_type message) message w
    = (Ok response,
       w_set_fs (snd (Execute (task_folder message) argv (w_fs w))) w) /\
    rsp_ok response
    = (fst (fst (fst (Execute (task_folder message) argv (w_fs w)))) =? 0).
Proof.
  unfold taskMap, doCommand, doCompile.
  intros [[-> ->] | [-> ->]]; rewrite bind_get;
    destruct (Execute _ _ _) as [[[code out] err] fs']; rewrite bind_modify.
  - eexists. split; reflexivity.
  - rewrite bool_decide_eq_true_2 by reflexivity.
    destruct (ParseGCCDeps err). eexists. split; reflexivity.
Qed.

Lemma stat_outputs_missing (outputs : list string) : forall acc w,
  (exists output, output ∈ outputs /\ w_fs w !! output = None) ->
  stat_outputs outputs acc w = (Raise (OSError ENOENT), w).
Proof.
  induction outputs as [| o outputs IH]; intros acc w (output & Hin & Hmiss).
  - by apply elem_of_nil in Hin.
  - simpl. rewrite bind_get. unfold os.getmtime.
    destruct (w_fs w !! o) as [fe |] eqn:Ho; [| reflexivity].
    apply IH. exists output. split; [| done].
    apply elem_of_cons in Hin as [-> | Hin]; [congruence | done].
Qed.

(** X2: a command that ends with code 0 without having made one of its
    declared outputs: the worker has sent [ranTask] with [ok] true, then
    stops on the failed stat and sends no results. *)
Theorem success_without_output (message : TaskMsg) (argv : list string)
    (w : Worker) (output : string) :
  outputs_removable (w_fs w) (task_outputs message) ->
  runnable message argv ->
  fst (fst (fst (Execute (task_folder message) argv
                         (without (task_outputs message) (w_fs w))))) = 0 ->
  output ∈ task_outputs message ->
  snd (Execute (task_folder message) argv
               (without (task_outputs message) (w_fs w))) !! output = None ->
  exists w',
    receiveTask Execute ParseGCCDeps rebase message w
    = (Raise (OSError ENOENT), w') /\
    w_sent w' = w_sent w ++ [mkRanTask true (task_id message)] /\
    w_results w' = w_results w.
Proof.
  intros Hrm Hrun Hcode Hin Hmiss.
  rewrite receiveTask_steps. unfold bind at 1.
  rewrite (remove_outputs_run _ w Hrm).
  set (w0 := w_set_fs (without (task_outputs message) (w_fs w)) w).
  destruct (taskMap_runs message argv w0 Hrun) as (response & Htask & Hok).
  unfold bind at 1. rewrite Htask.
  change (w_fs w0) with (without (task_outputs message) (w_fs w)) in *.
  rewrite Hcode in Hok. simpl in Hok.
  unfold report. rewrite bind_modify, Hok. unfold bind at 1.
  rewrite stat_outputs_missing; [| exists output; by split].
  eexists. split; [reflexivity |]. by split.
Qed.

Lemma remove_outputs_directory (outputs : list string) : forall w output t,
  output ∈ outputs ->
  w_fs w !! output = Some (FsDir t) ->
  exists w', for_each outputs remove_output w = (Raise (OSError EISDIR), w') /\
             w_fs w' !! output = Some (FsDir t).
Proof.
  induction outputs as [| o outputs IH]; intros w output t Hin Hdir.
  - by apply elem_of_nil in Hin.
  - simpl. unfold bind, remove_output at 1. unfold bind at 1, get, os.unlink.
    destruct (w_fs w !! o) as [[t' | t'] |] eqn:Ho.
    + assert (o <> output) by congruence.
      apply elem_of_cons in Hin as [-> | Hin]; [done |].
      unfold modify.
      destruct (IH (w_set_fs (delete o (w_fs w)) w) output t Hin)
        as (w' & -> & Hdir'); [| by exists w'].
      simpl. by rewrite lookup_delete_ne.
    + rewrite bool_decide_eq_true_2 by done. unfold raise.
      exists w. split; [reflexivity | done].
    + rewrite bool_decide_eq_false_2 by (intros H; by apply H). unfold ret.
      assert (o <> output) by congruence.
      apply elem_of_cons in Hin as [-> | Hin]; [done |].
      destruct (IH w output t Hin Hdir) as (w' & -> & Hdir'). by exists w'.
Qed.

(** X3: a declared output that is a directory cannot be unlinked: the worker
    raises before it runs anything and sends nothing at all. *)
Theorem directory_output_stops_worker (message : TaskMsg) (w : Worker)
    (output : string) (t : float) :
  output ∈ task_outputs message ->
  w_fs w !! output = Some (FsDir t) ->
  exists w',
    receiveTask Execute ParseGCCDeps rebase message w
    = (Raise (OSError EISDIR), w') /\
    w_sent w' = w_sent w /\ w_results w' = w_results w /\
    w_fs w' !! output = Some (FsDir t).
Proof.
  intros Hin Hdir. rewrite receiveTask_steps. unfold bind at 1.
  pose proof (for_each_preserves sent (task_outputs message) remove_output
                remove_output_sent w) as Hsent.
  destruct (remove_outputs_directory (task_outputs message) w output t Hin Hdir)
    as (w' & Hrun & Hdir').
  rewrite Hrun in *. simpl in Hsent. exists w'. split; [reflexivity |].
  by injection Hsent as -> -> _ _.
Qed.

(** X4: a compile of a flavour other than gcc: the compiler is run all the
    same, then the worker raises, and the master gets neither [ranTask] nor
    results. *)
Theorem unknown_compiler_after_run (message : TaskMsg) (cc_type : string)
    (argv : list string) (w : Worker) :
  outputs_removable (w_fs w) (task_outputs message) ->
  task_type message = Cxx ->
  task_data message = PCxx cc_type argv ->
  cc_type <> "gcc"%string ->
  exists w',
    receiveTask Execute ParseGCCDeps rebase message w
    = (Raise (Exception "unknown compiler type"), w') /\
    w_sent w' = w_sent w /\ w_results w' = w_results w /\
    w_fs w' = snd (Execute (task_folder message) argv
                           (without (task_outputs message) (w_fs w))).
Proof.
  intros Hrm Hty Hdata Hcc. rewrite receiveTask_steps. unfold bind at 1.
  rewrite (remove_outputs_run _ w Hrm).
  unfold bind at 1. rewrite Hty. unfold taskMap, doCompile. rewrite Hdata.
  rewrite bind_get. simpl.
  destruct (Execute _ _ _) as [[[code out] err] fs']. rewrite bind_modify.
  rewrite bool_decide_eq_false_2 by done.
  eexists. split; [reflexivity |]. by repeat split.
Qed.

(** One [ranTask] for the task, then at most one results message that
    agrees with it. *)
Definition acknowledged (message : TaskMsg) (w w' : Worker) : Prop :=
  exists ok,
    w_sent w' = w_sent w ++ [mkRanTask ok (task_id message)] /\
    (w_results w' = w_results w \/
     exists r, w_results w' = w_results w ++ [r] /\
               res_ok r = ok /\ res_task_id r = task_id message /\
               res_pid r = w_pid w).

Lemma report_acknowledges (message : TaskMsg) (response : Response)
    (w : Worker) :
  acknowledged message w (snd (report message response w)).
Proof.
  exists (rsp_ok response).
  destruct (report message response w) as [r w'] eqn:E. simpl.
  unfold report in E. rewrite bind_modify in E. unfold bind at 1 in E.
  set (w3 := w_send (mkRanTask (rsp_ok response) (task_id message)) w) in E.
  assert (Hopen : forall l r0 w0,
            (let* w := get in
             if w_result_open w then
               modify (w_send_results
                 (mkResults (w_pid w) (task_id message)
                    (rsp_ok response) (rsp_stdout response)
                    (rsp_stderr response) (rsp_deps response) l))
             else ret tt) w3 = (r0, w0) ->
            w_sent w0 = w_sent w ++ [mkRanTask (rsp_ok response) (task_id message)] /\
            (w_results w0 = w_results w \/
             exists r, w_results w0 = w_results w ++ [r] /\
                       res_ok r = rsp_ok response /\
                       res_task_id r = task_id message /\
                       res_pid r = w_pid w)).
  { intros l r0 w0. rewrite bind_get. simpl.
    destruct (w_result_open w); intros [= <- <-]; simpl.
    - split; [done |]. right. eexists. by split.
    - split; [done | by left]. }
  destruct (rsp_ok response).
  - pose proof (stat_outputs_state (task_outputs message) [] w3) as Hst.
    destruct (stat_outputs (task_outputs message) [] w3) as [[l | e] w4];
      simpl in Hst; subst w4.
    + by apply (Hopen l r).
    + injection E as <- <-. simpl. split; [done | by left].
  - unfold ret at 1 in E. by apply (Hopen [] r).
Qed.

Lemma receiveTask_acknowledges (message : TaskMsg) (w w' : Worker)
    (r : res unit) :
  receiveTask Execute ParseGCCDeps rebase message w = (r, w') ->
  (w_sent w' = w_sent w /\ w_results w' = w_results w) \/
  acknowledged message w w'.
Proof.
  rewrite receiveTask_steps. unfold bind at 1.
  pose proof (for_each_preserves sent (task_outputs message) remove_output
                remove_output_sent w) as H1.
  destruct (for_each (task_outputs message) remove_output w)
    as [[[] | e] w1]; simpl in H1.
  2:{ intros [= <- <-]. left. by injection H1 as -> -> _ _. }
  unfold bind at 1.
  pose proof (taskMap_sent (task_type message) message w1) as H2.
  destruct (taskMap _ _ _ (task_type message) message w1)
    as [[response | e] w2]; simpl in H2.
  2:{ intros [= <- <-]. left. rewrite H1 in H2.
      by injection H2 as -> -> _ _. }
  rewrite H1 in H2. injection H2 as Hs Hr Hp Ho.
  intros Hrep. right.
  pose proof (report_acknowledges message response w2) as Hack.
  rewrite Hrep in Hack. simpl in Hack.
  unfold acknowledged in *. rewrite <- Hs, <- Hr, <- Hp. exact Hack.
Qed.

(** X5: whatever happens, the worker sends at most one [ranTask] and at most
    one results message for a task, results only after [ranTask], and both
    carry the task id and the same [ok]. *)
Theorem acknowledgement_then_results (message : TaskMsg) (w : Worker) :
  (w_sent (snd (receiveTask Execute ParseGCCDeps rebase message w)) = w_sent w
   /\ w_results (snd (receiveTask Execute ParseGCCDeps rebase message w))
      = w_results w) \/
  acknowledged message w
    (snd (receiveTask Execute ParseGCCDeps rebase message w)).
Proof.
  destruct (receiveTask Execute ParseGCCDeps rebase message w) as [r w'] eqn:E.
  exact (receiveTask_acknowledges message w w' r E).
Qed.

End Runs.

(** *** Runs of a compile *)

Import worker_child.

(** A compiler that ends well and writes nothing. *)
Definition cc_forgets (folder : option string) (argv : list string)
    (files : gmap string fsentry) : Z * string * string * gmap string fsentry :=
  (0, ""%string, ""%string, files).

Definition compile_msvc : TaskMsg :=
  mkTaskMsg 1 Cxx (PCxx "msvc" ["cl"; "a.c"]%string) None ["a.o"%string].

(** A worker in whose tree [a.o] is a directory. *)
Definition blocked_worker : Worker :=
  mkWorker {[ "a.o"%string := FsDir f0 ]} 42 "/build" true [] [].

Lemma a_worker_removable :
  outputs_removable (w_fs a_worker) (task_outputs compile_a).
Proof.
  intros output t Hin. apply list_elem_of_singleton in Hin as ->.
  vm_compute. discriminate.
Qed.

Lemma command_runs_without_outputs_witness :
  (forall output, output ∈ task_outputs compile_a ->
                  without (task_outputs compile_a) (w_fs a_worker) !! output
                  = None) /\
  w_fs (snd (receiveTask (cc_writes t7) no_deps keep_path compile_a a_worker))
  = snd (cc_writes t7 (task_folder compile_a) ["gcc"; "-c"; "a.c"]%string
                   (without (task_outputs compile_a) (w_fs a_worker))).
Proof.
  apply (command_runs_without_outputs (cc_writes t7) no_deps keep_path
           compile_a ["gcc"; "-c"; "a.c"]%string a_worker).
  - exact a_worker_removable.
  - reflexivity.
Defined.

Lemma success_without_output_witness :
  exists w',
    receiveTask cc_forgets no_deps keep_path compile_a a_worker
    = (Raise (OSError ENOENT), w') /\
    w_sent w' = [] ++ [mkRanTask true 1] /\
    w_results w' = [].
Proof.
  apply (success_without_output cc_forgets no_deps keep_path compile_a
           ["gcc"; "-c"; "a.c"]%string a_worker "a.o"%string).
  - exact a_worker_removable.
  - right. by split.
  - reflexivity.
  - by left.
  - vm_compute. reflexivity.
Defined.

Lemma directory_output_stops_worker_witness :
  exists w',
    receiveTask (cc_writes t7) no_deps keep_path compile_a blocked_worker
    = (Raise (OSError EISDIR), w') /\
    w_sent w' = [] /\ w_results w' = [] /\
    w_fs w' !! "a.o"%string = Some (FsDir f0).
Proof.
  apply (directory_output_stops_worker (cc_writes t7) no_deps keep_path
           compile_a blocked_worker "a.o"%string f0).
  - by left.
  - vm_compute. reflexivity.
Defined.

Lemma unknown_compiler_after_run_witness :
  exists w',
    receiveTask (cc_writes t7) no_deps keep_path compile_msvc a_worker
    = (Raise (Exception "unknown compiler type"), w') /\
    w_sent w' = [] /\ w_results w' = [] /\
    w_fs w' = snd (cc_writes t7 None ["cl"; "a.c"]%string
                             (without ["a.o"%string] (w_fs a_worker))).
Proof.
  apply (unknown_compiler_after_run (cc_writes t7) no_deps keep_path
           compile_msvc "msvc"%string ["cl"; "a.c"]%string a_worker).
  - exact a_worker_removable.
  - reflexivity.
  - reflexivity.
  - discriminate.
Defined.

End worker_runs.

(** ** When the task master reports success *)

Module task_master_done.
Import task.

Section Done.

Variable pick : list worker -> nat.

(** Nothing is ready and nothing is outstanding. *)
Definition all_done (m : Master) : Prop :=
  task_graph m = [] /\ outstanding m = ∅.

Lemma onWorkerReady_sends (child : worker) (m m' : Master) (r : res bool) :
  onWorkerReady child m = (r, m') ->
  sent_up m' = sent_up m \/
  (sent_up m' = sent_up m ++ [CompletedOk] /\ all_done m').
Proof.
  unfold onWorkerReady. rewrite bind_get.
  destruct (list_pop (task_graph m)) as [[top rest] |] eqn:Hpop.
  - destruct (build_failed m).
    + rewrite bind_modify. intros [= <- <-]. by left.
    + rewrite bind_modify. unfold bind at 1, task_of. simpl.
      destruct (tasks m !! top); intros [= <- <-]; by left.
  - apply task_release.list_pop_none in Hpop. unfold bind at 1.
    destruct (size (outstanding m) =? 0)%nat eqn:Hsize; simpl.
    + apply Nat.eqb_eq, map_size_empty_iff in Hsize.
      rewrite bind_modify. unfold close_idle.
      rewrite bind_assoc, bind_get, bind_assoc. unfold bind at 1.
      destruct (task_master_child.close_each
                  (elements (idle (procman_close child m)))
                  (procman_close child m))
        as (m1 & -> & Hc & Hi & Hb & Hs & Hd & Ht & Hg & Ho).
      unfold bind, modify, ret. simpl in *. intros [= <- <-]. right. simpl.
      rewrite Hs. split; [done |]. unfold all_done. simpl.
      split; congruence.
    + unfold modify, ret. intros [= <- <-]. by left.
Qed.

(** With a task on the ready list, [onWorkerReady] sends nothing upward. *)
Lemma onWorkerReady_busy (child : worker) (m m' : Master) (r : res bool) :
  task_graph m <> [] ->
  onWorkerReady child m = (r, m') ->
  sent_up m' = sent_up m.
Proof.
  intros Hg. unfold onWorkerReady. rewrite bind_get.
  destruct (list_pop (task_graph m)) as [[top rest] |] eqn:Hpop.
  - destruct (build_failed m).
    + rewrite bind_modify. by intros [= <- <-].
    + rewrite bind_modify. unfold bind at 1, task_of. simpl.
      destruct (tasks m !! top); by intros [= <- <-].
  - by apply task_release.list_pop_none in Hpop.
Qed.

Lemma use_idle_sends (fuel : nat) : forall m m' r,
  use_idle pick fuel m = (r, m') -> sent_up m' = sent_up m.
Proof.
  induction fuel as [| fuel IH]; intros m m' r; simpl.
  - destruct (_ && _); by intros [= <- <-].
  - destruct (negb (length (task_graph m) =? 0)%nat) eqn:Hg; simpl;
      [| by intros [= <- <-]].
    destruct (negb (size (idle m) =? 0)%nat); simpl; [| by intros [= <- <-]].
    destruct (set_pop pick (idle m)) as [[child rest] |];
      [| by intros [= <- <-]].
    rewrite bind_modify.
    set (m0 := set_idle (fun _ => rest) m).
    assert (Hne : task_graph m0 <> []).
    { simpl. intros H. rewrite H in Hg. discriminate. }
    unfold bind.
    destruct (onWorkerReady child m0) as [[more | e] m1] eqn:Hready;
      pose proof (onWorkerReady_busy child m0 m1 _ Hne Hready) as Hs.
    + destruct more; simpl.
      * intros Hrest. rewrite (IH _ _ _ Hrest). exact Hs.
      * by intros [= <- <-].
    + by intros [= <- <-].
Qed.

Lemma use_idle_nothing_ready (fuel : nat) (m : Master) :
  task_graph m = [] -> use_idle pick fuel m = (Ok tt, m).
Proof. intros Hg. destruct fuel; simpl; by rewrite Hg. Qed.

Lemma release_sends (task u : Z) (m : Master) :
  sent_up (snd (release task u m)) = sent_up m.
Proof.
  unfold release, bind, task_of. destruct (tasks m !! u) as [tu |]; [| done].
  case_bool_decide; [| done]. unfold modify, ret. simpl.
  by destruct (_ =? _)%nat.
Qed.

Lemma buildFailed_sends (m m' : Master) (r : res unit) :
  buildFailed m = (r, m') -> sent_up m' = sent_up m.
Proof.
  unfold buildFailed. rewrite bind_get.
  destruct (build_failed m); [by intros [= <- <-] |].
  simpl. rewrite bind_modify. unfold close_idle. rewrite bind_get.
  unfold bind.
  destruct (task_master_child.close_each
              (elements (idle (set_build_failed true m)))
              (set_build_failed true m))
    as (m1 & -> & Hc & Hi & Hb & Hs & _).
  unfold modify. by intros [= <- <-].
Qed.

Lemma onWorkerDied_sends (child : worker) (normal : bool) (m m' : Master)
    (r : res unit) :
  onWorkerDied child normal m = (r, m') ->
  exists l, sent_up m' = sent_up m ++ l /\ CompletedOk ∉ l.
Proof.
  unfold onWorkerDied. unfold bind at 1.
  destruct normal; simpl.
  - unfold modify. intros [= <- <-]. exists [].
    split; [by rewrite app_nil_r | apply not_elem_of_nil].
  - rewrite bind_get.
    destruct (list_find _ _) as [[? [? [task ?]]] |].
    + unfold onWorkerCrashed, bind at 1, task_of.
      destruct (tasks m !! task) as [t |].
      * rewrite bind_modify.
        destruct (buildFailed (send_up (CompletedCrashed (t_id t)) m))
          as [[[] | e] m1] eqn:Hbf;
          apply buildFailed_sends in Hbf; unfold modify;
          intros [= <- <-]; exists [CompletedCrashed (t_id t)];
          (split; [exact Hbf |]);
          intros H; apply list_elem_of_singleton in H; discriminate.
      * intros [= <- <-]. exists [].
        split; [by rewrite app_nil_r | apply not_elem_of_nil].
    + unfold ret, modify. intros [= <- <-]. exists [].
      split; [by rewrite app_nil_r | apply not_elem_of_nil].
Qed.

Lemma onWorkerRanTask_sends (child : worker) (message : RanTask)
    (m m' : Master) (r : res unit) :
  onWorkerRanTask pick child message m = (r, m') ->
  exists l, sent_up m' = sent_up m ++ l /\ (CompletedOk ∈ l -> all_done m').
Proof.
  assert (Hnone : forall m0 : Master,
            sent_up m0 = sent_up m ->
            exists l, sent_up m0 = sent_up m ++ l /\
                      (CompletedOk ∈ l -> all_done m0)).
  { intros m0 Hs. exists []. split; [by rewrite app_nil_r |].
    intros H. by apply elem_of_nil in H. }
  unfold onWorkerRanTask. destruct (ran_ok message); simpl.
  - rewrite bind_get.
    destruct (outstanding m !! ran_task_id message) as [[task w] |];
      [| intros [= <- <-]; by apply Hnone].
    rewrite bind_modify.
    set (m1 := set_outstanding (delete (ran_task_id message)) m).
    unfold bind at 1, task_of.
    destruct (tasks m1 !! task) as [t |];
      [| intros [= <- <-]; by apply Hnone].
    unfold bind at 1.
    pose proof (for_each_preserves sent_up (t_outgoing t) (release task)
                  (release_sends task) m1) as Hloop.
    destruct (for_each (t_outgoing t) (release task) m1)
      as [[[] | e] m2]; simpl in Hloop;
      [| intros [= <- <-]; by apply Hnone].
    unfold bind at 1.
    destruct (onWorkerReady w m2) as [[b | e] m3] eqn:Hready;
      destruct (onWorkerReady_sends w m2 m3 _ Hready) as [Hs | (Hs & Hdone)].
    + rewrite bind_get. intros Hidle.
      apply (use_idle_sends (S (size (idle m3))) m3 m' r) in Hidle.
      apply Hnone. congruence.
    + rewrite bind_get.
      change (use_idle pick (S (size (idle m3))) m3 = (r, m') ->
              exists l, sent_up m' = sent_up m ++ l /\
                        (CompletedOk ∈ l -> all_done m')).
      rewrite (use_idle_nothing_ready _ m3 (proj1 Hdone)).
      intros [= <- <-]. exists [CompletedOk]. split; [congruence | done].
    + intros [= <- <-]. apply Hnone. congruence.
    + intros [= <- <-]. exists [CompletedOk]. split; [congruence | done].
  - rewrite !bind_modify. intros Hbf. apply buildFailed_sends in Hbf.
    exists [CompletedFailed]. split; [exact Hbf |].
    intros H. apply list_elem_of_singleton in H. discriminate.
Qed.

(** X6: a handler reports [completed] with status ok only when, as it ends,
    no task is ready and none is outstanding. *)
Theorem completed_ok_when_all_done (ev : event) (m : Master) :
  exists l,
    sent_up (snd (handle pick ev m)) = sent_up m ++ l /\
    (CompletedOk ∈ l -> all_done (snd (handle pick ev m))).
Proof.
  destruct (handle pick ev m) as [r m'] eqn:Hrun. simpl.
  destruct ev as [child | child message | child normal]; simpl in Hrun.
  - unfold bind in Hrun.
    destruct (onWorkerReady child m) as [[b | e] m1] eqn:Hready;
      injection Hrun as <- <-;
      destruct (onWorkerReady_sends child m m1 _ Hready) as [Hs | (Hs & Hdone)].
    + exists []. rewrite app_nil_r. split; [done |].
      intros H. by apply elem_of_nil in H.
    + exists [CompletedOk]. by split.
    + exists []. rewrite app_nil_r. split; [done |].
      intros H. by apply elem_of_nil in H.
    + exists [CompletedOk]. by split.
  - exact (onWorkerRanTask_sends child message m m' r Hrun).
  - destruct (onWorkerDied_sends child normal m m' r Hrun) as (l & Hs & Hno).
    exists l. split; [exact Hs | by intros H].
Qed.

End Done.

End task_master_done.

(** ** Edges of the task graph that are added twice *)

Module task_edges.
Import task.

(** Some task of the list cannot be released: it is there twice, or it
    does not wait for [task]. *)
Definition stuck (task : Z) (outs : list Z) (m : Master) : Prop :=
  ~ NoDup outs \/
  exists u tu, u ∈ outs /\ tasks m !! u = Some tu /\ task ∉ t_incoming tu.

Lemma release_stuck (task : Z) (outs : list Z) : forall m,
  (forall u, u ∈ outs -> is_Some (tasks m !! u)) ->
  stuck task outs m ->
  fst (for_each outs (release task) m) = Raise KeyError.
Proof.
  induction outs as [| u outs IH]; intros m Hall Hstuck.
  - destruct Hstuck as [Hdup | (u & tu & Hin & _)].
    + destruct Hdup. constructor.
    + by apply elem_of_nil in Hin.
  - destruct (Hall u) as [tu Htu]; [by left |].
    simpl. unfold bind.
    destruct (decide (task ∈ t_incoming tu)) as [Hin | Hnotin].
    + rewrite (task_release.release_run task u tu m Htu Hin).
      set (m1 := task_release.release_of task u tu m).
      assert (Htasks1 : tasks m1
                = <[u := with_incoming tu (t_incoming tu ∖ {[task]})]> (tasks m)).
      { unfold m1, task_release.release_of. by destruct (_ =? _)%nat. }
      apply IH.
      * intros v Hv. rewrite Htasks1, lookup_insert. case_decide; [eauto |].
        apply Hall. by right.
      * destruct (decide (u ∈ outs)) as [Hu | Hu].
        -- right. exists u, (with_incoming tu (t_incoming tu ∖ {[task]})).
           split; [done |]. split; [by rewrite Htasks1, lookup_insert_eq |].
           simpl. intros H. apply elem_of_difference in H as [_ H].
           apply H. by apply elem_of_singleton.
        -- destruct Hstuck as [Hdup | (v & tv & Hv & Htv & Hno)].
           ++ left. intros Hnd. apply Hdup. by constructor.
           ++ right. apply elem_of_cons in Hv as [-> | Hv].
              ** rewrite Htu in Htv. injection Htv as <-. done.
              ** exists v, tv. split; [done |]. split; [| done].
                 rewrite Htasks1, lookup_insert_ne; [done |].
                 intros ->. done.
    + unfold release, bind, task_of. rewrite Htu.
      by rewrite bool_decide_eq_false_2.
Qed.

Lemma addOutgoing_run (self task : Z) (s t : Task) (m : Master) :
  tasks m !! self = Some s ->
  tasks m !! task = Some t ->
  exists m' s' t',
    addOutgoing self task m = (Ok tt, m') /\
    tasks m' !! self = Some s' /\
    t_outgoing s' = t_outgoing s ++ [task] /\
    t_id s' = t_id s /\
    tasks m' !! task = Some t' /\
    t_incoming t' = {[self]} ∪ t_incoming t /\
    (forall u, is_Some (tasks m !! u) -> is_Some (tasks m' !! u)) /\
    outstanding m' = outstanding m /\
    task_graph m' = task_graph m /\
    build_failed m' = build_failed m.
Proof.
  intros Hs Ht. unfold addOutgoing, bind at 1, task_of. rewrite Hs.
  rewrite bind_modify. unfold bind at 1. simpl.
  destruct (decide (self = task)) as [<- | Hne].
  - rewrite Hs in Ht. injection Ht as <-.
    rewrite lookup_insert_eq. unfold modify. eexists _, _, _.
    split; [reflexivity |]. simpl. rewrite lookup_insert_eq.
    split; [reflexivity |]. split; [reflexivity |]. split; [reflexivity |].
    split; [reflexivity |]. split; [reflexivity |]. split; [| done].
    intros u Hu. rewrite !lookup_insert. repeat case_decide; eauto.
  - rewrite lookup_insert_ne, Ht by done. unfold modify. eexists _, _, _.
    split; [reflexivity |]. simpl.
    rewrite lookup_insert_ne, !lookup_insert_eq by done.
    split; [reflexivity |]. split; [reflexivity |]. split; [reflexivity |].
    split; [reflexivity |]. split; [reflexivity |]. split; [| done].
    intros u Hu. rewrite !lookup_insert. repeat case_decide; eauto.
Qed.

Lemma list_pop_last {A} (l : list A) (x : A) :
  list_pop (l ++ [x]) = Some (x, l).
Proof.
  unfold list_pop. rewrite reverse_app. simpl.
  by rewrite reverse_involutive.
Qed.

Section Twice.

Variable pick : list worker -> nat.

(** X7: [addOutgoing] appends to a list but adds to a set: an edge added
    twice is in [outgoing] twice and in [incoming] once; when the first
    task is then handed to a worker and reported as run, the second
    removal from [incoming] raises [KeyError]. *)
Theorem edge_added_twice (self task : Z) (s t : Task) (ready : list Z)
    (child : worker) (m : Master) :
  tasks m !! self = Some s ->
  t_id s = self ->
  tasks m !! task = Some t ->
  (forall u, u ∈ t_outgoing s -> is_Some (tasks m !! u)) ->
  task_graph m = ready ++ [self] ->
  build_failed m = false ->
  exists m1 s' t' m2,
    (addOutgoing self task >> addOutgoing self task) m = (Ok tt, m1) /\
    tasks m1 !! self = Some s' /\
    t_outgoing s' = t_outgoing s ++ [task; task] /\
    tasks m1 !! task = Some t' /\
    t_incoming t' = {[self]} ∪ t_incoming t /\
    onWorkerReady child m1 = (Ok true, m2) /\
    outstanding m2 !! self = Some (self, child) /\
    fst (onWorkerRanTask pick child (mkRanTask true self) m2)
    = Raise KeyError.
Proof.
  intros Hs Hid Ht Hall Hready Hfailed.
  destruct (addOutgoing_run self task s t m Hs Ht)
    as (m1 & s1 & t1 & Hrun1 & Hs1 & Hout1 & Hid1 & Ht1 & Hinc1 & Hkeep1
        & Ho1 & Hg1 & Hb1).
  destruct (addOutgoing_run self task s1 t1 m1 Hs1 Ht1)
    as (m2 & s2 & t2 & Hrun2 & Hs2 & Hout2 & Hid2 & Ht2 & Hinc2 & Hkeep2
        & Ho2 & Hg2 & Hb2).
  assert (Hrun3 : exists m3,
            onWorkerReady child m2 = (Ok true, m3) /\
            tasks m3 = tasks m2 /\
            outstanding m3 = <[self := (self, child)]> (outstanding m2)).
  { unfold onWorkerReady. rewrite bind_get.
    rewrite Hg2, Hg1, Hready, list_pop_last, Hb2, Hb1, Hfailed.
    rewrite bind_modify. unfold bind at 1, task_of. simpl. rewrite Hs2.
    rewrite !bind_modify. eexists. split; [reflexivity |]. simpl.
    split; [reflexivity |]. by rewrite Hid2, Hid1, Hid. }
  destruct Hrun3 as (m3 & Hrun3 & Htasks3 & Hout3).
  exists m2, s2, t2, m3.
  split; [unfold bind; by rewrite Hrun1 |].
  split; [exact Hs2 |].
  split; [by rewrite Hout2, Hout1, <- app_assoc |].
  split; [exact Ht2 |].
  split.
  { by rewrite Hinc2, Hinc1, (assoc_L (∪)), (idemp_L (∪)). }
  split; [exact Hrun3 |].
  assert (Hself : outstanding m3 !! self = Some (self, child))
    by (by rewrite Hout3, lookup_insert_eq).
  split; [exact Hself |].
  unfold onWorkerRanTask. simpl.
  rewrite bind_get, Hself, bind_modify. unfold bind at 1, task_of. simpl.
  rewrite Htasks3, Hs2. unfold bind at 1.
  assert (Hk : fst (for_each (t_outgoing s2) (release self)
                             (set_outstanding (delete self) m3))
               = Raise KeyError).
  { apply release_stuck.
    - intros u Hu. simpl. rewrite Htasks3. rewrite Hout2, Hout1 in Hu.
      apply Hkeep2, Hkeep1.
      apply elem_of_app in Hu as [Hu | Hu].
      + apply elem_of_app in Hu as [Hu | Hu]; [by apply Hall |].
        apply list_elem_of_singleton in Hu as ->. eauto.
      + apply list_elem_of_singleton in Hu as ->. eauto.
    - left. rewrite Hout2, Hout1, <- app_assoc. intros Hnd.
      apply NoDup_app in Hnd as (_ & _ & Hnd).
      apply NoDup_cons in Hnd as [Hnotin _]. apply Hnotin. by left. }
  destruct (for_each (t_outgoing s2) (release self) _) as [r m4].
  simpl in Hk. by subst r.
Qed.

End Twice.

(** Two tasks, the second added twice behind the first, which is
    ready. *)
Definition two_lone_tasks : Master :=
  mkMaster (list_to_map [(1, task_master_child.lone_task 1);
                         (2, task_master_child.lone_task 2)])
           [1] ∅ ∅ false [] [] [].

Lemma edge_added_twice_witness :
  exists m1 s' t' m2,
    (addOutgoing 1 2 >> addOutgoing 1 2) two_lone_tasks = (Ok tt, m1) /\
    tasks m1 !! 1 = Some s' /\
    t_outgoing s'
    = t_outgoing (task_master_child.lone_task 1) ++ [2; 2] /\
    tasks m1 !! 2 = Some t' /\
    t_incoming t' = {[1]} ∪ t_incoming (task_master_child.lone_task 2) /\
    onWorkerReady 7%nat m1 = (Ok true, m2) /\
    outstanding m2 !! 1 = Some (1, 7%nat) /\
    fst (onWorkerRanTask first_worker 7%nat (mkRanTask true 1) m2)
    = Raise KeyError.
Proof.
  apply (edge_added_twice first_worker 1 2 (task_master_child.lone_task 1)
                          (task_master_child.lone_task 2) [] 7%nat
                          two_lone_tasks).
  - vm_compute. reflexivity.
  - reflexivity.
  - vm_compute. reflexivity.
  - intros u Hu. vm_compute in Hu. by apply elem_of_nil in Hu.
  - reflexivity.
  - reflexivity.
Defined.

End task_edges.

(** ** The parent of the task master *)

Module task_master_parent_runs.
Import task.

(** The messages that end the build as failed. *)
Definition failing (ev : parent_event) : bool :=
  match ev with
  | GotResults results => negb (res_ok results)
  | GotCompleted _ CompletedOk => false
  | GotCompleted _ _ => true
  | MasterError _ normal => negb normal
  | WorkerIOError normal => negb normal
  end.

Section Runs.

Variable describe : Z -> string.

Lemma terminateBuild_fails (graceful : bool) (p : Parent) :
  p_build_failed (terminateBuild graceful p) = true /\
  p_shutdowns (terminateBuild graceful p)
  = (p_shutdowns p + (if p_build_failed p then 0 else 1))%nat.
Proof.
  unfold terminateBuild.
  destruct graceful, (p_build_failed p) eqn:Hf; simpl; rewrite ?Hf; simpl;
    split; try done; lia.
Qed.

Lemma parent_handle_fails (ev : parent_event) (p : Parent * list worker) :
  p_build_failed (fst (parent_handle describe ev p))
  = p_build_failed (fst p) || failing ev /\
  p_shutdowns (fst (parent_handle describe ev p))
  = (p_shutdowns (fst p)
     + (if p_build_failed (fst p) then 0
        else if failing ev then 1 else 0))%nat.
Proof.
  assert (Hterm : forall graceful q,
            p_build_failed q = p_build_failed (fst p) ->
            p_shutdowns q = p_shutdowns (fst p) ->
            p_build_failed (terminateBuild graceful q)
            = p_build_failed (fst p) || true /\
            p_shutdowns (terminateBuild graceful q)
            = (p_shutdowns (fst p)
               + (if p_build_failed (fst p) then 0 else 1))%nat).
  { intros graceful q Hb Hs.
    destruct (terminateBuild_fails graceful q) as [-> ->].
    rewrite Hb, Hs, orb_true_r. done. }
  assert (Hsame : forall q : Parent,
            p_build_failed q = p_build_failed (fst p) ->
            p_shutdowns q = p_shutdowns (fst p) ->
            p_build_failed q = p_build_failed (fst p) || false /\
            p_shutdowns q
            = (p_shutdowns (fst p)
               + (if p_build_failed (fst p) then 0 else 0))%nat).
  { intros q -> ->. rewrite orb_false_r. split; [done |].
    destruct (p_build_failed (fst p)); lia. }
  destruct ev as [results | child status | child normal | normal]; simpl.
  - unfold processResults.
    set (q := if negb (String.length (res_stderr results) =? 0)%nat
              then _ else _).
    assert (Hq : p_build_failed q = p_build_failed (fst p) /\
                 p_shutdowns q = p_shutdowns (fst p)).
    { unfold q. by destruct (negb (_ =? _)%nat), (negb (_ =? _)%nat). }
    destruct Hq as [Hb Hs].
    destruct (res_ok results); simpl; [by apply Hsame | by apply Hterm].
  - destruct status; simpl; [by apply Hsame | by apply Hterm | by apply Hterm].
  - destruct normal; simpl; [by apply Hsame | by apply Hterm].
  - destruct normal; simpl; [by apply Hsame | by apply Hterm].
Qed.

(** X8: over any sequence of messages the build ends as failed exactly when
    it had failed before or one of the messages is a failing one, and the
    process manager is shut down once at the first of them and never
    again; [run] returns the negation. *)
Theorem parent_fails_once (evs : list parent_event) :
  forall p : Parent * list worker,
    p_build_failed (fst (parent_run describe evs p))
    = p_build_failed (fst p) || existsb failing evs /\
    p_shutdowns (fst (parent_run describe evs p))
    = (p_shutdowns (fst p)
       + (if p_build_failed (fst p) then 0
          else if existsb failing evs then 1 else 0))%nat /\
    run_result (parent_run describe evs p)
    = negb (p_build_failed (fst p) || existsb failing evs).
Proof.
  induction evs as [| ev evs IH]; intros p; simpl.
  - rewrite orb_false_r. unfold run_result. repeat split; try done.
    destruct (p_build_failed (fst p)); lia.
  - destruct (IH (parent_handle describe ev p)) as (Hb & Hs & Hr).
    destruct (parent_handle_fails ev p) as [Hb1 Hs1].
    unfold parent_run in *. rewrite Hb, Hs, Hr, Hb1, Hs1.
    rewrite !orb_assoc. repeat split; try done.
    destruct (p_build_failed (fst p)), (failing ev), (existsb failing evs);
      simpl; lia.
Qed.

End Runs.

End task_master_parent_runs.


(** ** More on the node store *)

Module store_facts.
Import database.
Import database_facts.
Import drop_command_facts.

(** *** Stamps *)

(** X9: with a stamp that is a number other than zero [unmark_dirty]
    never looks at the file: whatever is on disk, the row and the entry
    become clean with that stamp, also right after [mark_dirty].  A NaN
    is refused by the table when the node has a row, and nothing
    changes. *)
Theorem unmark_dirty_with_stamp (KnownDirty : Z) (entry : loc) (e : Entry)
    (t : float) (st : State) :
  heap st !! entry = Some e ->
  float_truthy t = true ->
  is_nan t = false ->
  (exists st',
     unmark_dirty entry (Some t) st = (Ok tt, st') /\
     unmarked st st' entry e t /\
     fs st' = fs st /\ con_err st' = con_err st) /\
  (exists st' r',
     (mark_dirty KnownDirty entry >> unmark_dirty entry (Some t)) st
     = (Ok tt, st') /\
     e_dirty <$> heap st' !! entry = Some 0 /\
     e_stamp <$> heap st' !! entry = Some (Some t) /\
     (is_Some (nodes (cn st) !! e_id e) ->
      nodes (cn st') !! e_id e = Some r' /\
      r_dirty r' = 0 /\ r_stamp r' = t)) /\
  (is_Some (nodes (cn st) !! e_id e) ->
   unmark_dirty entry (Some S754_nan) st = (Raise IntegrityError, st)).
Proof.
  intros He Ht Hnan.
  assert (Hrun : forall t0 st0 e0,
            heap st0 !! entry = Some e0 ->
            float_truthy t0 = true ->
            unmark_dirty entry (Some t0) st0
            = (sql_unmark (Some t0) (e_id e0) >>
               update_entry entry (fun e => with_stamp e 0 (Some t0))) st0).
  { intros t0 st0 e0 He0 Ht0. unfold unmark_dirty. unfold bind at 1, deref.
    rewrite He0, Ht0. reflexivity. }
  split; [| split].
  - destruct (unmark_with entry e t st He Hnan) as (st' & Hun & Hpost).
    exists st'. rewrite (Hrun t st e He Ht). split; [exact Hun |].
    split; [exact Hpost |].
    revert Hun. run_monad. unfold sql_unmark. rewrite Hnan.
    destruct (nodes (cn st) !! e_id e); intros [= <-]; done.
  - unfold bind at 1, mark_dirty. unfold bind at 1, deref. rewrite He.
    rewrite bind_modify. unfold update_entry, modify.
    set (st1 := set_heap _ _).
    assert (He1 : heap st1 !! entry
                  = Some (with_stamp e (Z.lor (e_dirty e) KnownDirty) (e_stamp e))).
    { simpl. by rewrite lookup_alter_eq, He. }
    destruct (unmark_with entry _ t st1 He1 Hnan) as (st' & Hun & Hh & Hn).
    rewrite (Hrun t st1 _ He1 Ht). simpl in Hun.
    destruct (nodes (cn st) !! e_id e) as [r |] eqn:Hr.
    + exists st', (unmarked_row r t). split; [exact Hun |].
      rewrite Hh. simpl. repeat split; try done.
      simpl in Hn. rewrite Hn, lookup_alter_eq, Hr. reflexivity.
    + exists st', (mkRow Source t 0 0 None None None).
      split; [exact Hun |]. rewrite Hh. simpl. repeat split; try done.
  - intros [r Hr]. etrans; [apply (Hrun S754_nan st e He eq_refl) |].
    unfold bind, sql_unmark. by rewrite Hr.
Qed.

Lemma unmark_dirty_with_stamp_witness :
  (exists st',
     unmark_dirty 1%nat (Some t7) missing_output = (Ok tt, st') /\
     unmarked missing_output st' 1%nat a_o t7 /\
     fs st' = fs missing_output /\ con_err st' = con_err missing_output) /\
  (exists st' r',
     (mark_dirty 1 1%nat >> unmark_dirty 1%nat (Some t7)) missing_output
     = (Ok tt, st') /\
     e_dirty <$> heap st' !! 1%nat = Some 0 /\
     e_stamp <$> heap st' !! 1%nat = Some (Some t7) /\
     nodes (cn st') !! e_id a_o = Some r' /\
     r_dirty r' = 0 /\ r_stamp r' = t7) /\
  unmark_dirty 1%nat (Some S754_nan) missing_output
  = (Raise IntegrityError, missing_output).
Proof.
  destruct (unmark_dirty_with_stamp 1 1%nat a_o t7 missing_output)
    as (H1 & (st' & r' & H2 & H3 & H4 & H5) & H6);
    [vm_compute; reflexivity | reflexivity | reflexivity |].
  assert (Hrow : is_Some (nodes (cn missing_output) !! e_id a_o))
    by (vm_compute; eauto).
  split; [exact H1 |]. split; [| exact (H6 Hrow)].
  exists st', r'. split; [exact H2 |]. split; [exact H3 |].
  split; [exact H4 |]. exact (H5 Hrow).
Defined.

(** *** Declaring files *)

(** The row [add_file] inserts and the entry it imports. *)
Definition file_row (ty : NodeType) (path : string) (generated : bool) : Row :=
  mkRow ty f0 0 (if generated then 1 else 0) (Some path) None None.
Definition file_entry (id : Z) (ty : NodeType) (path : string) : Entry :=
  mkEntry id ty (Some path) (BRaw PNone) None (Some f0) 1 true
          None None None None.

Definition inserted (r : Row) (st : State) : State :=
  set_cn (fun c => mkConn (<[seq (cn st) + 1 := r]> (nodes c))
                          (seq (cn st) + 1) (edges c) (weak_edges c)
                          (dynamic_edges c)) st.

Lemma add_file_run (ty : NodeType) (path : string) (generated : bool)
    (st st' : State) (l : loc) :
  add_file ty path generated None st = (Ok l, st') ->
  let id := seq (cn st) + 1 in
  node_cache_ st !! id = None /\
  l = fresh_loc (heap st) /\
  heap st' = <[l := file_entry id ty path]> (heap st) /\
  node_cache_ st' = <[id := l]> (node_cache_ st) /\
  cn st' = cn (inserted (file_row ty path generated) st) /\
  fs st' = fs st /\
  (path <> ""%string ->
   path_cache_ st !! path = None /\
   path_cache_ st' = <[path := l]> (path_cache_ st)).
Proof.
  unfold add_file, import_node, import_node_with, sql_insert_node, alloc.
  run_monad.
  destruct (bool_decide (node_cache_ st !! (seq (cn st) + 1) = None)) eqn:Hid;
    [| discriminate].
  apply bool_decide_eq_true in Hid. simpl.
  destruct path as [| c path]; simpl.
  - intros [= <- <-]. simpl. repeat split; try done.
  - destruct (bool_decide (path_cache_ st !! String c path = None)) eqn:Hp;
      [| discriminate].
    apply bool_decide_eq_true in Hp. simpl.
    intros [= <- <-]. simpl. repeat split; try done.
Qed.

(** What a row of the table looks like once it is imported. *)
Definition entry_of_row (id : Z) (r : Row) : Entry :=
  mkEntry id (r_type r) (r_path r) (BRaw (default PNone (r_data r))) None
          (Some (r_stamp r)) (r_dirty r) (negb (r_generated r =? 0))
          None None None None.

Definition loaded (id : Z) (r : Row) (st : State) : State :=
  let l := fresh_loc (heap st) in
  (if str_truthy (r_path r)
   then set_path_cache (insert (default ""%string (r_path r)) l)
   else fun s => s)
    (set_node_cache (insert id l)
       (set_heap (insert l (entry_of_row id r)) st)).

Lemma query_node_reads (id : Z) (r : Row) (st : State) :
  nodes (cn st) !! id = Some r ->
  r_folder r = None ->
  node_cache_ st !! id = None ->
  (forall p, r_path r = Some p -> path_cache_ st !! p = None) ->
  query_node id st = (Ok (fresh_loc (heap st)), loaded id r st).
Proof.
  intros Hr Hf Hid Hp. unfold query_node, depth. simpl. rewrite Hid, Hr.
  unfold import_node_with, irow_of_row, alloc, loaded, entry_of_row.
  run_monad.
  rewrite Hid, Hf. simpl.
  destruct (r_path r) as [[| c p] |] eqn:Hpath; simpl.
  - by destruct (r_data r).
  - rewrite (Hp _ eq_refl). simpl. by destruct (r_data r).
  - by destruct (r_data r).
Qed.

(** X10: a file that was added is found again, by its path and by its id: the
    caches hold the new entry, and the table the new row. *)
Theorem add_file_then_query (ty : NodeType) (path : string)
    (generated : bool) (st st' : State) (l : loc) :
  path <> ""%string ->
  add_file ty path generated None st = (Ok l, st') ->
  query_path path st' = (Ok (Some l), st') /\
  query_node (seq (cn st) + 1) st' = (Ok l, st') /\
  heap st' !! l = Some (file_entry (seq (cn st) + 1) ty path) /\
  nodes (cn st') !! (seq (cn st) + 1) = Some (file_row ty path generated).
Proof.
  intros Hne Hadd.
  destruct (add_file_run _ _ _ _ _ _ Hadd)
    as (Hid & Hl & Hh & Hnc & Hcn & Hfs & Hp).
  destruct (Hp Hne) as [Hp0 Hpc].
  repeat split.
  - unfold query_path. rewrite bind_get, Hpc, lookup_insert_eq. reflexivity.
  - apply query_node_cached. by rewrite Hnc, lookup_insert_eq.
  - by rewrite Hh, lookup_insert_eq.
  - rewrite Hcn. simpl. by rewrite lookup_insert_eq.
Qed.

Lemma add_file_then_query_witness :
  exists l st',
    add_file Output "a.o" false None (empty_state ∅) = (Ok l, st') /\
    query_path "a.o" st' = (Ok (Some l), st') /\
    query_node 1 st' = (Ok l, st') /\
    heap st' !! l = Some (file_entry 1 Output "a.o") /\
    nodes (cn st') !! 1 = Some (file_row Output "a.o" false).
Proof.
  eexists _, _. split; [vm_compute; reflexivity |].
  apply (add_file_then_query Output "a.o" false (empty_state ∅));
    [discriminate | vm_compute; reflexivity].
Defined.

(** X11: the entry [add_file] hands out says dirty and generated
    whatever was asked, while the row it wrote says clean, and generated
    only on request: once the caches are flushed the node comes back, as
    a new object, with the values of the row. *)
Theorem add_file_reloads (ty : NodeType) (path : string) (generated : bool)
    (st st' : State) (l : loc) :
  add_file ty path generated None st = (Ok l, st') ->
  exists e l' st2,
    heap st' !! l = Some e /\ e_dirty e = 1 /\ e_generated e = true /\
    nodes (cn st') !! e_id e
    = Some (mkRow ty f0 0 (if generated then 1 else 0) (Some path)
                  None None) /\
    (flush_caches >> query_node (e_id e)) st' = (Ok l', st2) /\
    l' <> l /\
    heap st2 !! l = Some e /\
    heap st2 !! l'
    = Some (mkEntry (e_id e) ty (Some path) (BRaw PNone) None (Some f0) 0
                    generated None None None None).
Proof.
  intros Hadd.
  destruct (add_file_run _ _ _ _ _ _ Hadd)
    as (Hid & Hl & Hh & Hnc & Hcn & Hfs & Hp).
  set (id := seq (cn st) + 1) in *.
  set (st1 := set_path_cache (fun _ => ∅) (set_node_cache (fun _ => ∅) st')).
  assert (Hq : query_node id st1
               = (Ok (fresh_loc (heap st1)),
                  loaded id (file_row ty path generated) st1)).
  { apply query_node_reads; try done.
    subst st1. simpl. rewrite Hcn. simpl. by rewrite lookup_insert_eq. }
  assert (Hfresh : heap st' !! fresh_loc (heap st') = None)
    by apply fresh_loc_fresh.
  assert (Hl' : fresh_loc (heap st') <> l).
  { intros Heq. rewrite Heq, Hh, lookup_insert_eq in Hfresh. discriminate. }
  exists (file_entry id ty path), (fresh_loc (heap st')),
         (loaded id (file_row ty path generated) st1).
  repeat split; try done.
  - by rewrite Hh, lookup_insert_eq.
  - rewrite Hcn. simpl. by rewrite lookup_insert_eq.
  - unfold loaded. simpl. destruct path as [| c p]; simpl.
    + rewrite lookup_insert_ne by done. by rewrite Hh, lookup_insert_eq.
    + rewrite lookup_insert_ne by done. by rewrite Hh, lookup_insert_eq.
  - unfold loaded. destruct path as [| c p]; simpl.
    + rewrite lookup_insert_eq. unfold entry_of_row. simpl.
      by destruct generated.
    + rewrite lookup_insert_eq. unfold entry_of_row. simpl.
      by destruct generated.
Qed.

Lemma add_file_reloads_witness :
  exists l st' e l' st2,
    add_file Source "/a.c" false None (empty_state ∅) = (Ok l, st') /\
    heap st' !! l = Some e /\ e_dirty e = 1 /\ e_generated e = true /\
    nodes (cn st') !! e_id e
    = Some (mkRow Source f0 0 0 (Some "/a.c"%string) None None) /\
    (flush_caches >> query_node (e_id e)) st' = (Ok l', st2) /\
    l' <> l /\
    heap st2 !! l = Some e /\
    heap st2 !! l'
    = Some (mkEntry (e_id e) Source (Some "/a.c"%string) (BRaw PNone) None
                    (Some f0) 0 false None None None None).
Proof.
  destruct (add_file_reloads Source "/a.c" false (empty_state ∅)
              (snd (add_file Source "/a.c" false None (empty_state ∅))) 1%nat)
    as (e & l' & st2 & H); [vm_compute; reflexivity |].
  eexists _, _, e, l', st2. split; [vm_compute; reflexivity | exact H].
Defined.

(** *** Commands *)

(** X12: a command that was added comes back from the table, once the
    caches are flushed, as a new object with the same fields; only an
    empty argument vector is not kept: the row stores it as no data at
    all, and it comes back as [None]. *)
Theorem add_command_reloads (ty : NodeType) (data : payload) (st : State) :
  exists l st' e l' st2,
    add_command ty None data st = (Ok l, st') /\
    heap st' !! l = Some e /\ e_blob e = BRaw data /\
    nodes (cn st') !! e_id e
    = Some (mkRow ty f0 1 0 None None
                  (if payload_truthy data then Some data else None)) /\
    (flush_caches >> query_node (e_id e)) st' = (Ok l', st2) /\
    l' <> l /\
    heap st2 !! l'
    = Some (with_command e ty None
              (BRaw (if payload_truthy data then data else PNone))) /\
    (heap st2 !! l' = Some e <-> data <> PArgv []).
Proof.
  set (id := seq (cn st) + 1).
  set (blob := if payload_truthy data then Some data else None).
  set (e := mkEntry id ty None (BRaw data) None (Some f0) 1 false
                    None None None None).
  set (l := fresh_loc (heap st)).
  set (st' := set_node_cache (insert id l)
                (set_heap (insert l e)
                   (inserted (mkRow ty f0 1 0 None None blob) st))).
  set (st1 := set_path_cache (fun _ => ∅) (set_node_cache (fun _ => ∅) st')).
  assert (Hq : query_node id st1
               = (Ok (fresh_loc (heap st1)),
                  loaded id (mkRow ty f0 1 0 None None blob) st1)).
  { apply query_node_reads; try done.
    subst st1 st'. simpl. by rewrite lookup_insert_eq. }
  assert (Hfresh : heap st' !! fresh_loc (heap st') = None)
    by apply fresh_loc_fresh.
  assert (Hl' : fresh_loc (heap st') <> l).
  { intros Heq. rewrite Heq in Hfresh. subst st'. simpl in Hfresh.
    rewrite lookup_insert_eq in Hfresh. discriminate. }
  assert (Hnew : heap (loaded id (mkRow ty f0 1 0 None None blob) st1)
                   !! fresh_loc (heap st')
                 = Some (with_command e ty None
                           (BRaw (if payload_truthy data then data else PNone)))).
  { unfold loaded. simpl. rewrite lookup_insert_eq. f_equal.
    unfold entry_of_row, with_command, with_blob, blob. simpl.
    by destruct (payload_truthy data). }
  exists l, st', e, (fresh_loc (heap st')),
         (loaded id (mkRow ty f0 1 0 None None blob) st1).
  split; [reflexivity |].
  split; [subst st'; simpl; by rewrite lookup_insert_eq |].
  split; [reflexivity |].
  split; [subst st'; simpl; by rewrite lookup_insert_eq |].
  split; [exact Hq |].
  split; [exact Hl' |].
  split; [exact Hnew |].
  rewrite Hnew. unfold with_command, with_blob, e. simpl. split.
  - intros [= Hb] ->. simpl in Hb. discriminate.
  - intros Hd. destruct data as [| [| a argv] | cc argv]; done.
Qed.

(** *** A path that is already known *)

(** X13: for a path that is in the path cache, [add_source] and
    [add_output] refuse before they touch anything; [add_file] itself, which
    [add_group] calls directly, refuses only once the new row is in
    the table. *)
Theorem add_file_known_path (ty : NodeType) (path : string)
    (generated : bool) (l0 : loc) (st : State) :
  path <> ""%string ->
  path_cache_ st !! path = Some l0 ->
  add_source path generated st = (Raise AssertionError, st) /\
  add_output None path st = (Raise AssertionError, st) /\
  exists st',
    add_file ty path generated None st = (Raise AssertionError, st') /\
    nodes (cn st')
    = <[seq (cn st) + 1 := file_row ty path generated]> (nodes (cn st)) /\
    seq (cn st') = seq (cn st) + 1 /\
    path_cache_ st' = path_cache_ st /\
    is_Some (node_cache_ st' !! (seq (cn st) + 1)).
Proof.
  intros Hne Hp. split; [| split].
  - unfold add_source. rewrite bind_get. unfold bind, assert.
    rewrite bool_decide_eq_false_2; [reflexivity |]. by rewrite Hp.
  - unfold add_output. rewrite bind_get. unfold bind, assert.
    rewrite bool_decide_eq_false_2; [reflexivity |]. by rewrite Hp.
  - unfold add_file, import_node, import_node_with, sql_insert_node, alloc.
    run_monad.
    destruct (node_cache_ st !! (seq (cn st) + 1)) as [l |] eqn:Hid; simpl.
    + eexists. split; [reflexivity |]. simpl. rewrite Hid. eauto.
    + destruct path as [| c path]; [done |]. simpl. rewrite Hp. simpl.
      eexists. split; [reflexivity |]. simpl.
      rewrite lookup_insert_eq. eauto.
Qed.

Lemma add_file_known_path_witness :
  let st := snd (add_group "all" (empty_state ∅)) in
  add_source "//group/./all" false st = (Raise AssertionError, st) /\
  add_output None "//group/./all" st = (Raise AssertionError, st) /\
  exists st',
    add_group "all" st = (Raise AssertionError, st') /\
    nodes (cn st')
    = <[seq (cn st) + 1 := file_row Group "//group/./all" false]>
        (nodes (cn st)) /\
    seq (cn st') = seq (cn st) + 1 /\
    path_cache_ st' = path_cache_ st /\
    is_Some (node_cache_ st' !! (seq (cn st) + 1)).
Proof.
  apply (add_file_known_path Group "//group/./all" false 1%nat
           (snd (add_group "all" (empty_state ∅))));
    [discriminate | vm_compute; reflexivity].
Defined.

(** *** Looking a path up *)

Lemma import_node_with_path (q : Z -> M State loc) (id : Z) (row : irow)
    (p : string) (st st1 : State) (l : loc) :
  i_path row = Some p -> p <> ""%string ->
  import_node_with q id row st = (Ok l, st1) ->
  path_cache_ st1 !! p = Some l /\
  exists e, heap st1 !! l = Some e /\ e_type e = i_type row /\
            e_id e = id /\ e_path e = Some p.
Proof.
  intros Hp Hne. unfold import_node_with. rewrite bind_get.
  unfold bind at 1. unfold assert at 1.
  destruct (bool_decide (node_cache_ st !! id = None)); [| discriminate].
  unfold ret at 1. unfold bind at 1.
  destruct (match i_folder row with
            | FNone => ret None
            | FId f => if f =? 0 then ret None
                       else let* l := q f in ret (Some l)
            | FEntry l => ret (Some l)
            end st) as [[folder | e] s2]; [| discriminate].
  unfold alloc. run_monad. rewrite Hp.
  destruct p as [| c p]; [done |]. simpl.
  destruct (bool_decide (path_cache_ s2 !! String c p = None));
    [| discriminate].
  simpl. intros [= <- <-]. simpl. rewrite !lookup_insert_eq.
  split; [reflexivity |]. eexists. split; [reflexivity |]. done.
Qed.

Lemma first_row_in (l : list (Z * Row)) (ir : Z * Row) :
  foldr first_row None l = Some ir ->
  ir ∈ l /\ forall jr, jr ∈ l -> fst ir <= fst jr.
Proof.
  revert ir. induction l as [| x l IH]; intros ir; simpl; [discriminate |].
  destruct (foldr first_row None l) as [jr |] eqn:Hrest; simpl.
  - destruct (IH jr eq_refl) as [Hin Hleast].
    destruct (Z.ltb_spec (fst jr) (fst x)); intros [= <-].
    + split; [by right |]. intros kr Hkr.
      apply elem_of_cons in Hkr as [-> | Hkr]; [lia | by apply Hleast].
    + split; [by left |]. intros kr Hkr.
      apply elem_of_cons in Hkr as [-> | Hkr]; [lia |].
      specialize (Hleast kr Hkr). lia.
  - intros [= <-]. split; [by left |]. intros kr Hkr.
    apply elem_of_cons in Hkr as [-> | Hkr]; [lia |].
    destruct l; [by apply elem_of_nil in Hkr | simpl in Hrest].
    unfold first_row in Hrest. by repeat case_match.
Qed.

Lemma sql_select_path_some (c : Conn) (path : string) (id : Z) (r : Row) :
  sql_select_path c path = Some (id, r) ->
  nodes c !! id = Some r /\ r_path r = Some path.
Proof.
  unfold sql_select_path. intros H.
  apply first_row_in in H as [H _].
  apply list_elem_of_filter in H as [Hpath H].
  split; [| exact Hpath]. by apply elem_of_map_to_list.
Qed.

(** Of the rows with the path, the one with the least id is read. *)
Lemma sql_select_path_least (c : Conn) (path : string) (id id' : Z)
    (r r' : Row) :
  sql_select_path c path = Some (id, r) ->
  nodes c !! id' = Some r' -> r_path r' = Some path ->
  id <= id'.
Proof.
  unfold sql_select_path. intros H Hr' Hpath.
  apply first_row_in in H as [_ H].
  apply (H (id', r')). apply list_elem_of_filter. split; [exact Hpath |].
  by apply elem_of_map_to_list.
Qed.

Lemma sql_select_path_none (c : Conn) (path : string) :
  (forall id r, nodes c !! id = Some r -> r_path r <> Some path) ->
  sql_select_path c path = None.
Proof.
  intros Hno. unfold sql_select_path.
  destruct (filter _ _) as [| [id r] l] eqn:Hf; [reflexivity |].
  assert (Hin : (id, r) ∈ filter (fun ir : Z * Row => r_path (snd ir) = Some path)
                                 (map_to_list (nodes c)))
    by (rewrite Hf; by left).
  apply list_elem_of_filter in Hin as [Hpath Hin].
  apply elem_of_map_to_list in Hin. by destruct (Hno _ _ Hin).
Qed.

Lemma query_path_found (path : string) (st st1 : State) (l : loc) :
  path <> ""%string ->
  query_path path st = (Ok (Some l), st1) ->
  path_cache_ st1 !! path = Some l.
Proof.
  intros Hne. unfold query_path. rewrite bind_get.
  destruct (path_cache_ st !! path) as [l0 |] eqn:Hc.
  - by intros [= <- <-].
  - destruct (sql_select_path (cn st) path) as [[id r] |] eqn:Hsel;
      [| discriminate].
    apply sql_select_path_some in Hsel as [_ Hpath].
    unfold bind, import_node.
    destruct (import_node_with _ id (irow_of_row r) st) as [[l1 | e] s1]
      eqn:Himp; [| discriminate].
    intros [= <- <-].
    by apply (import_node_with_path _ _ (irow_of_row r) path _ _ _
                Hpath Hne Himp).
Qed.

Lemma query_path_cached (path : string) (st : State) (l : loc) :
  path_cache_ st !! path = Some l ->
  query_path path st = (Ok (Some l), st).
Proof. intros H. unfold query_path. by rewrite bind_get, H. Qed.

(** *** Sources *)

(** X14: [find_or_add_source] settles after one call: asked again for the
    same path it returns the same entry, a source, and changes
    nothing. *)
Theorem find_or_add_source_again (path : string) (st st1 : State) (l : loc) :
  path <> ""%string ->
  find_or_add_source path st = (Ok l, st1) ->
  find_or_add_source path st1 = (Ok l, st1) /\
  exists e, heap st1 !! l = Some e /\ e_type e = Source.
Proof.
  intros Hne Hrun.
  assert (Hgoal : path_cache_ st1 !! path = Some l /\
                  exists e, heap st1 !! l = Some e /\ e_type e = Source).
  { revert Hrun. unfold find_or_add_source. unfold bind at 1.
    destruct (query_path path st) as [[[n |] | e] s1] eqn:Hq;
      [| | discriminate].
    - apply query_path_found in Hq; [| exact Hne].
      run_monad. destruct (heap s1 !! n) as [en |] eqn:Hn; [| discriminate].
      destruct (bool_decide (e_type en = Source)) eqn:Hty; [| discriminate].
      apply bool_decide_eq_true in Hty. simpl.
      intros [= <- <-]. eauto.
    - unfold add_source. rewrite bind_get. unfold bind at 1.
      unfold assert at 1.
      destruct (bool_decide (path_cache_ s1 !! path = None));
        [| discriminate].
      unfold ret at 1. unfold bind at 1. unfold assert at 1.
      destruct (os.isabs path); [| discriminate].
      unfold ret at 1. intros Hadd.
      destruct (add_file_run _ _ _ _ _ _ Hadd)
        as (_ & _ & Hh & _ & _ & _ & Hp).
      destruct (Hp Hne) as [_ Hpc]. split.
      + by rewrite Hpc, lookup_insert_eq.
      + eexists. rewrite Hh, lookup_insert_eq. split; reflexivity. }
  destruct Hgoal as (Hpc & e & He & Hty). split; [| eauto].
  unfold find_or_add_source. unfold bind at 1.
  rewrite (query_path_cached _ _ _ Hpc). run_monad.
  rewrite He. by rewrite bool_decide_eq_true_2.
Qed.

Lemma find_or_add_source_again_witness :
  exists l st1,
    find_or_add_source "/a.c" (empty_state ∅) = (Ok l, st1) /\
    find_or_add_source "/a.c" st1 = (Ok l, st1) /\
    exists e, heap st1 !! l = Some e /\ e_type e = Source.
Proof.
  eexists _, _. split; [vm_compute; reflexivity |].
  apply (find_or_add_source_again "/a.c" (empty_state ∅));
    [discriminate | vm_compute; reflexivity].
Defined.

(** *** Groups *)

(** X15: a group is found again under its name, and under no other name that
    was not declared: [find_group] answers [None] there. *)
Theorem group_found_by_name (name name' : string) (st st1 : State)
    (l : loc) :
  add_group name st = (Ok l, st1) ->
  find_group name st1 = (Ok (Some l), st1) /\
  (exists e, heap st1 !! l = Some e /\ e_type e = Group /\
             e_path e = Some (GroupPrefix ++ name)%string) /\
  (name' <> name ->
   path_cache_ st !! (GroupPrefix ++ name')%string = None ->
   (forall id r, nodes (cn st) !! id = Some r ->
                 r_path r <> Some (GroupPrefix ++ name')%string) ->
   find_group name' st1 = (Ok None, st1)).
Proof.
  unfold add_group, find_group. intros Hadd.
  assert (Hne : (GroupPrefix ++ name)%string <> ""%string) by done.
  destruct (add_file_run _ _ _ _ _ _ Hadd)
    as (_ & _ & Hh & _ & Hcn & _ & Hp).
  destruct (Hp Hne) as [_ Hpc].
  split; [| split].
  - apply query_path_cached. by rewrite Hpc, lookup_insert_eq.
  - eexists. rewrite Hh, lookup_insert_eq. done.
  - intros Hname Hc Hrows.
    assert (Hdiff : (GroupPrefix ++ name)%string
                    <> (GroupPrefix ++ name')%string).
    { unfold GroupPrefix. simpl. intros [= Heq]. by destruct Hname. }
    unfold query_path. rewrite bind_get, Hpc.
    rewrite lookup_insert_ne by exact Hdiff. rewrite Hc.
    rewrite sql_select_path_none; [reflexivity |].
    intros id r. rewrite Hcn. simpl.
    destruct (decide (id = seq (cn st) + 1)) as [-> | Hid].
    + rewrite lookup_insert_eq. intros [= <-]. simpl. congruence.
    + rewrite lookup_insert_ne by done. apply Hrows.
Qed.

Lemma group_found_by_name_witness :
  exists l st1,
    add_group "all" (empty_state ∅) = (Ok l, st1) /\
    find_group "all" st1 = (Ok (Some l), st1) /\
    (exists e, heap st1 !! l = Some e /\ e_type e = Group /\
               e_path e = Some (GroupPrefix ++ "all")%string) /\
    find_group "tests" st1 = (Ok None, st1).
Proof.
  eexists _, _. split; [vm_compute; reflexivity |].
  destruct (group_found_by_name "all" "tests" (empty_state ∅)
              (snd (add_group "all" (empty_state ∅))) 1%nat)
    as (H1 & H2 & H3); [vm_compute; reflexivity |].
  split; [exact H1 |]. split; [exact H2 |].
  apply H3; [discriminate | reflexivity |].
  intros id r. simpl. by rewrite lookup_empty.
Defined.

(** *** Nodes that are gone *)

Lemma query_node_missing (id : Z) (st : State) :
  node_cache_ st !! id = None -> nodes (cn st) !! id = None ->
  query_node id st = (Raise TypeError, st).
Proof. intros Hc Hr. unfold query_node, depth. simpl. by rewrite Hc, Hr. Qed.

(** X16: a group (or any entry) can be dropped once: afterwards its id
    cannot be loaded, and a second drop raises [KeyError]. *)
Theorem drop_group_twice (group : loc) (e : Entry) (st : State) :
  heap st !! group = Some e ->
  is_Some (node_cache_ st !! e_id e) ->
  exists st1,
    drop_group group st = (Ok tt, st1) /\
    query_node (e_id e) st1 = (Raise TypeError, st1) /\
    fst (drop_group group st1) = Raise KeyError.
Proof.
  intros He Hc. exists (dropped (e_id e) st). unfold drop_group.
  split; [by apply drop_entry_run |]. split.
  - apply query_node_missing.
    + rewrite dropped_node_cache. apply lookup_delete_eq.
    + rewrite dropped_nodes. apply lookup_delete_eq.
  - unfold drop_entry. run_monad. rewrite He. simpl.
    by rewrite lookup_delete_eq.
Qed.

Lemma drop_group_twice_witness :
  exists st1,
    drop_group 1%nat (snd (add_group "all" (empty_state ∅))) = (Ok tt, st1) /\
    query_node 1 st1 = (Raise TypeError, st1) /\
    fst (drop_group 1%nat st1) = Raise KeyError.
Proof.
  apply (drop_group_twice 1%nat
           (file_entry 1 Group "//group/./all")
           (snd (add_group "all" (empty_state ∅)))).
  - vm_compute. reflexivity.
  - vm_compute. eauto.
Defined.

(** *** Loading by id *)

(** X17: [query_node] hands out one object per id: a second query returns the
    entry of the first, unchanged tables included; an id that is neither
    cached nor in the table raises [TypeError] and changes nothing. *)
Theorem query_node_memoises (id : Z) (st : State) :
  cache_ok st ->
  (forall l st1,
      query_node id st = (Ok l, st1) ->
      query_node id st1 = (Ok l, st1) /\ cn st1 = cn st /\
      exists e, heap st1 !! l = Some e /\ e_id e = id) /\
  (node_cache_ st !! id = None -> nodes (cn st) !! id = None ->
   query_node id st = (Raise TypeError, st)).
Proof.
  intros Hok. split; [| apply query_node_missing].
  intros l st1 Hq.
  destruct (query_node_loads id st l st1 Hok Hq) as (Hok1 & Hext & Hc).
  split; [by apply query_node_cached |].
  split; [apply Hext |]. by apply Hok1.
Qed.

(** *** Edges *)

(** What [add_strong_edge] and [add_dynamic_edge] do to the memoised sets
    of the two entries: a set that is loaded grows, one that is not is
    left alone. *)
Definition grow_strong (f : loc) (t : Entry) : Entry :=
  if set_truthy (e_strong_inputs t)
  then with_strong_inputs t (set_add f <$> e_strong_inputs t) else t.
Definition grow_dynamic (f : loc) (t : Entry) : Entry :=
  if set_truthy (e_dynamic_inputs t)
  then mkEntry (e_id t) (e_type t) (e_path t) (e_blob t) (e_folder t)
               (e_stamp t) (e_dirty t) (e_generated t) (e_outgoing t)
               (e_weak_inputs t) (e_strong_inputs t)
               (set_add f <$> e_dynamic_inputs t)
  else t.
Definition grow_outgoing (t : loc) (f : Entry) : Entry :=
  if set_truthy (e_outgoing f)
  then with_outgoing f (set_add t <$> e_outgoing f) else f.

Lemma bind_deref_none {A} (l : loc) (k : Entry -> M State A) (st : State) :
  heap st !! l = None -> bind (deref l) k st = (Raise TypeError, st).
Proof. intros H. unfold bind, deref. by rewrite H. Qed.

Lemma set_heap_same (g : gmap loc Entry -> gmap loc Entry) (st : State) :
  g (heap st) = heap st -> set_heap g st = st.
Proof. destruct st. unfold set_heap. simpl. by intros ->. Qed.

(** [if entry.<set>: entry.<set>.add(x)] *)
Lemma cond_update_run (b : Entry -> bool) (g : Entry -> Entry) (l : loc)
    (x : Entry) (st : State) :
  heap st !! l = Some x ->
  (if b x then update_entry l g else ret tt) st
  = (Ok tt, set_heap (alter (fun y => if b y then g y else y) l) st).
Proof.
  intros Hx. destruct (b x) eqn:Hb.
  - unfold update_entry, modify. f_equal. destruct st. unfold set_heap.
    simpl in *. f_equal. apply alter_ext. intros y Hy. rewrite Hx in Hy. injection Hy as <-.
    by rewrite Hb.
  - unfold ret. f_equal. symmetry. apply set_heap_same, alter_id.
    intros y Hy. rewrite Hx in Hy. injection Hy as <-. by rewrite Hb.
Qed.

Lemma bind_cond_update {A} (b : Entry -> bool) (g : Entry -> Entry) (l : loc)
    (x : Entry) (k : unit -> M State A) (st : State) :
  heap st !! l = Some x ->
  bind (if b x then update_entry l g else ret tt) k st
  = k tt (set_heap (alter (fun y => if b y then g y else y) l) st).
Proof. intros Hx. unfold bind at 1. by rewrite (cond_update_run b g l x). Qed.

Lemma bind_insert_edge {A} upd tbl (e : Z * Z) (k : unit -> M State A)
    (st : State) :
  e ∉ tbl (cn st) ->
  bind (sql_insert_edge upd tbl e) k st
  = k tt (set_cn (upd (fun l => l ++ [e])) st).
Proof.
  intros H. unfold sql_insert_edge. rewrite bind_assoc, bind_get.
  rewrite bool_decide_eq_false_2 by done. by rewrite bind_modify.
Qed.

Lemma bind_insert_edge_dup {A} upd tbl (e : Z * Z) (k : unit -> M State A)
    (st : State) :
  e ∈ tbl (cn st) ->
  bind (sql_insert_edge upd tbl e) k st = (Raise IntegrityError, st).
Proof.
  intros H. unfold sql_insert_edge. rewrite bind_assoc, bind_get.
  by rewrite bool_decide_eq_true_2.
Qed.

Lemma add_strong_edge_does (f t : loc) (ef et : Entry) (st : State) :
  heap st !! f = Some ef -> heap st !! t = Some et ->
  (e_id et, e_id ef) ∉ edges (cn st) ->
  add_strong_edge f t st
  = (Ok tt,
     set_heap (alter (grow_outgoing t) f)
       (set_heap (alter (grow_strong f) t)
          (set_cn (set_edges (fun l => l ++ [(e_id et, e_id ef)])) st))).
Proof.
  intros Hf Ht Hin. unfold add_strong_edge.
  rewrite (bind_deref f ef) by done. rewrite (bind_deref t et) by done.
  rewrite bind_insert_edge by done.
  erewrite (bind_cond_update (fun e => set_truthy (e_strong_inputs e))
              _ t et) by done.
  match goal with
  | |- bind (deref f) _ ?s = _ =>
      destruct (heap s !! f) as [ef' |] eqn:Hf'
  end.
  - rewrite (bind_deref f ef') by done.
    apply (cond_update_run (fun e => set_truthy (e_outgoing e)) _ f ef').
    exact Hf'.
  - simpl in Hf'. apply lookup_alter_None in Hf'. congruence.
Qed.

Lemma add_strong_edge_run (f t : loc) (st st1 : State) :
  add_strong_edge f t st = (Ok tt, st1) ->
  exists ef et,
    heap st !! f = Some ef /\ heap st !! t = Some et /\
    ((e_id et, e_id ef) ∉ edges (cn st)) /\
    st1 = set_heap (alter (grow_outgoing t) f)
            (set_heap (alter (grow_strong f) t)
               (set_cn (set_edges (fun l => l ++ [(e_id et, e_id ef)])) st)).
Proof.
  intros Hrun.
  destruct (heap st !! f) as [ef |] eqn:Hf;
    [| unfold add_strong_edge in Hrun;
       rewrite bind_deref_none in Hrun by done; discriminate].
  destruct (heap st !! t) as [et |] eqn:Ht;
    [| unfold add_strong_edge in Hrun;
       rewrite (bind_deref f ef) in Hrun by done;
       rewrite bind_deref_none in Hrun by done; discriminate].
  destruct (decide ((e_id et, e_id ef) ∈ edges (cn st))) as [Hin | Hin].
  - unfold add_strong_edge in Hrun.
    rewrite (bind_deref f ef) in Hrun by done.
    rewrite (bind_deref t et) in Hrun by done.
    rewrite bind_insert_edge_dup in Hrun by done. discriminate.
  - rewrite (add_strong_edge_does f t ef et) in Hrun by done.
    injection Hrun as <-. by exists ef, et.
Qed.

Lemma add_dynamic_edge_does (f t : loc) (ef et : Entry) (st : State) :
  heap st !! f = Some ef -> heap st !! t = Some et ->
  (e_id et, e_id ef) ∉ dynamic_edges (cn st) ->
  add_dynamic_edge f t st
  = (Ok tt,
     set_heap (alter (grow_outgoing t) f)
       (set_heap (alter (grow_dynamic f) t)
          (set_cn (set_dynamic_edges (fun l => l ++ [(e_id et, e_id ef)]))
                  st))).
Proof.
  intros Hf Ht Hin. unfold add_dynamic_edge.
  rewrite (bind_deref f ef) by done. rewrite (bind_deref t et) by done.
  rewrite bind_insert_edge by done.
  erewrite (bind_cond_update (fun e => set_truthy (e_dynamic_inputs e))
              _ t et) by done.
  match goal with
  | |- bind (deref f) _ ?s = _ =>
      destruct (heap s !! f) as [ef' |] eqn:Hf'
  end.
  - rewrite (bind_deref f ef') by done.
    apply (cond_update_run (fun e => set_truthy (e_outgoing e)) _ f ef').
    exact Hf'.
  - simpl in Hf'. apply lookup_alter_None in Hf'. congruence.
Qed.

Lemma add_dynamic_edge_run (f t : loc) (st st1 : State) :
  add_dynamic_edge f t st = (Ok tt, st1) ->
  exists ef et,
    heap st !! f = Some ef /\ heap st !! t = Some et /\
    ((e_id et, e_id ef) ∉ dynamic_edges (cn st)) /\
    st1 = set_heap (alter (grow_outgoing t) f)
            (set_heap (alter (grow_dynamic f) t)
               (set_cn (set_dynamic_edges
                          (fun l => l ++ [(e_id et, e_id ef)])) st)).
Proof.
  intros Hrun.
  destruct (heap st !! f) as [ef |] eqn:Hf;
    [| unfold add_dynamic_edge in Hrun;
       rewrite bind_deref_none in Hrun by done; discriminate].
  destruct (heap st !! t) as [et |] eqn:Ht;
    [| unfold add_dynamic_edge in Hrun;
       rewrite (bind_deref f ef) in Hrun by done;
       rewrite bind_deref_none in Hrun by done; discriminate].
  destruct (decide ((e_id et, e_id ef) ∈ dynamic_edges (cn st)))
    as [Hin | Hin].
  - unfold add_dynamic_edge in Hrun.
    rewrite (bind_deref f ef) in Hrun by done.
    rewrite (bind_deref t et) in Hrun by done.
    rewrite bind_insert_edge_dup in Hrun by done. discriminate.
  - rewrite (add_dynamic_edge_does f t ef et) in Hrun by done.
    injection Hrun as <-. by exists ef, et.
Qed.

Lemma grow_outgoing_mem (t : loc) (y : Entry) :
  set_truthy (e_outgoing (grow_outgoing t y)) = true ->
  t ∈ default [] (e_outgoing (grow_outgoing t y)).
Proof.
  unfold grow_outgoing. destruct (set_truthy (e_outgoing y)) eqn:Hy.
  - intros _. simpl. destruct (e_outgoing y) as [l |]; [| done]. simpl.
    apply elem_of_set_add. by left.
  - congruence.
Qed.

Lemma grow_strong_mem (f : loc) (y : Entry) :
  set_truthy (e_strong_inputs (grow_strong f y)) = true ->
  f ∈ default [] (e_strong_inputs (grow_strong f y)).
Proof.
  unfold grow_strong. destruct (set_truthy (e_strong_inputs y)) eqn:Hy.
  - intros _. simpl. destruct (e_strong_inputs y) as [l |]; [| done]. simpl.
    apply elem_of_set_add. by left.
  - congruence.
Qed.

Lemma grow_outgoing_same (t : loc) (y : Entry) :
  e_id (grow_outgoing t y) = e_id y /\
  e_strong_inputs (grow_outgoing t y) = e_strong_inputs y.
Proof. unfold grow_outgoing. by destruct (set_truthy _). Qed.

Lemma grow_strong_same (f : loc) (y : Entry) :
  e_id (grow_strong f y) = e_id y /\
  e_outgoing (grow_strong f y) = e_outgoing y.
Proof. unfold grow_strong. by destruct (set_truthy _). Qed.

Lemma grow_dynamic_same (f : loc) (y : Entry) :
  e_id (grow_dynamic f y) = e_id y /\
  e_outgoing (grow_dynamic f y) = e_outgoing y.
Proof. unfold grow_dynamic. by destruct (set_truthy _). Qed.

(** After an edge was added from [f] to [t]: the two entries are still
    there with their ids, a loaded outgoing set of [f] has [t], and a
    loaded set of strong inputs of [t] has [f]. *)
Lemma grown_entries (g : loc -> Entry -> Entry) (f t : loc) (ef et : Entry)
    (h : gmap loc Entry) :
  (forall y, e_id (g f y) = e_id y /\ e_outgoing (g f y) = e_outgoing y) ->
  h !! f = Some ef -> h !! t = Some et ->
  exists ef1 et1,
    alter (grow_outgoing t) f (alter (g f) t h) !! f = Some ef1 /\
    alter (grow_outgoing t) f (alter (g f) t h) !! t = Some et1 /\
    e_id ef1 = e_id ef /\ e_id et1 = e_id et /\
    (set_truthy (e_outgoing ef1) = true -> t ∈ default [] (e_outgoing ef1)) /\
    (e_outgoing ef1
     = if set_truthy (e_outgoing ef) then set_add t <$> e_outgoing ef
       else e_outgoing ef) /\
    (e_strong_inputs et1 = e_strong_inputs (g f et)).
Proof.
  intros Hg Hf Ht.
  destruct (decide (t = f)) as [-> | Hne].
  - rewrite Hf in Ht. injection Ht as <-.
    exists (grow_outgoing f (g f ef)), (grow_outgoing f (g f ef)).
    rewrite !lookup_alter_eq, Hf. simpl.
    destruct (grow_outgoing_same f (g f ef)) as [Hi Hs].
    destruct (Hg ef) as [Hi' Ho'].
    repeat split; try congruence.
    + apply grow_outgoing_mem.
    + unfold grow_outgoing. rewrite Ho'. by destruct (set_truthy _).
  - exists (grow_outgoing t ef), (g f et).
    rewrite lookup_alter_eq, (lookup_alter_ne _ _ t f) by done.
    rewrite Hf. rewrite (lookup_alter_ne _ _ f t) by done.
    rewrite lookup_alter_eq, Ht. simpl.
    destruct (grow_outgoing_same t ef) as [Hi Hs].
    destruct (Hg et) as [Hi' Ho'].
    repeat split; try congruence.
    + apply grow_outgoing_mem.
    + unfold grow_outgoing. by destruct (set_truthy _).
Qed.

Lemma delete_edge_fresh (e : Z * Z) (tbl : list (Z * Z)) :
  e ∉ tbl -> sql_delete_edge e (tbl ++ [e]) = tbl.
Proof.
  intros Hin. unfold sql_delete_edge. rewrite filter_app.
  rewrite (filter_cons_False _ e) by (intros H; by apply H).
  rewrite filter_nil, app_nil_r.
  induction tbl as [| x tbl IH]; [reflexivity |].
  apply not_elem_of_cons in Hin as [Hx Hin].
  rewrite filter_cons_True by done. f_equal. by apply IH.
Qed.

Lemma drop_strong_edge_does (f t : loc) (ef et : Entry) (st : State) :
  heap st !! f = Some ef -> heap st !! t = Some et ->
  (set_truthy (e_strong_inputs et) = true ->
   f ∈ default [] (e_strong_inputs et)) ->
  (set_truthy (e_outgoing ef) = true -> t ∈ default [] (e_outgoing ef)) ->
  exists st',
    drop_strong_edge f t st = (Ok tt, st') /\
    cn st' = set_edges (sql_delete_edge (e_id et, e_id ef)) (cn st) /\
    node_cache_ st' = node_cache_ st /\ path_cache_ st' = path_cache_ st /\
    fs st' = fs st /\
    (forall x, x ∈ default [] (e_outgoing ef) -> x <> t ->
       exists ef', heap st' !! f = Some ef' /\
                   x ∈ default [] (e_outgoing ef')).
Proof.
  intros Hf Ht Hsi Hout. unfold drop_strong_edge.
  rewrite (bind_deref f ef) by done. rewrite (bind_deref t et) by done.
  rewrite bind_modify. unfold bind at 1.
  set (st1 := set_cn _ st).
  assert (Hstep : exists st2,
    (if set_truthy (e_strong_inputs et)
     then match set_remove f (default [] (e_strong_inputs et)) with
          | Some inputs =>
              update_entry t (fun t0 => with_strong_inputs t0 (Some inputs))
          | None => raise KeyError
          end
     else ret tt) st1 = (Ok tt, st2) /\
    cn st2 = cn st1 /\ node_cache_ st2 = node_cache_ st /\
    path_cache_ st2 = path_cache_ st /\ fs st2 = fs st /\
    exists ef2, heap st2 !! f = Some ef2 /\ e_outgoing ef2 = e_outgoing ef).
  { destruct (set_truthy (e_strong_inputs et)) eqn:Htr.
    - unfold set_remove. rewrite bool_decide_eq_true_2 by auto.
      eexists. split; [reflexivity |]. simpl. repeat split; try done.
      destruct (decide (t = f)) as [-> | Hne].
      + rewrite lookup_alter_eq, Hf. simpl. eauto.
      + rewrite lookup_alter_ne by done. eauto.
    - eexists. split; [reflexivity |]. repeat split; try done. eauto. }
  destruct Hstep as (st2 & -> & Hcn & Hnc & Hpc & Hfs & ef2 & Hf2 & Ho2).
  rewrite (bind_deref f ef2) by done. rewrite Ho2.
  destruct (set_truthy (e_outgoing ef)) eqn:Htr.
  - unfold set_remove. rewrite bool_decide_eq_true_2 by auto.
    eexists. split; [reflexivity |]. simpl. repeat split; try done.
    intros x Hx Hxt. rewrite lookup_alter_eq, Hf2. simpl.
    eexists. split; [reflexivity |]. simpl.
    apply list_elem_of_filter. by split.
  - eexists. split; [reflexivity |]. repeat split; try done.
    intros x Hx Hxt. exists ef2. split; [done |]. by rewrite Ho2.
Qed.

(** X18: an edge can be declared once: a second [add_strong_edge] is refused
    by the table and changes nothing, and [drop_strong_edge] undoes the
    declaration, whatever the two entries have loaded: the edge table is
    as it was before. *)
Theorem strong_edge_round_trip (f t : loc) (st st1 : State) :
  add_strong_edge f t st = (Ok tt, st1) ->
  add_strong_edge f t st1 = (Raise IntegrityError, st1) /\
  exists st2,
    drop_strong_edge f t st1 = (Ok tt, st2) /\
    cn st2 = cn st /\
    node_cache_ st2 = node_cache_ st /\ path_cache_ st2 = path_cache_ st.
Proof.
  intros Hadd.
  destruct (add_strong_edge_run f t st st1 Hadd)
    as (ef & et & Hf & Ht & Hin & ->).
  destruct (grown_entries grow_strong f t ef et (heap st)
              (grow_strong_same f) Hf Ht)
    as (ef1 & et1 & Hf1 & Ht1 & Hidf & Hidt & Hmem & _ & Hsi).
  split.
  - unfold add_strong_edge.
    rewrite (bind_deref f ef1) by exact Hf1.
    rewrite (bind_deref t et1) by exact Ht1.
    apply bind_insert_edge_dup. simpl. rewrite Hidf, Hidt.
    apply elem_of_app. right. by apply list_elem_of_singleton.
  - match goal with
    | |- exists st2, drop_strong_edge f t ?s = _ /\ _ => set (s1 := s)
    end.
    destruct (drop_strong_edge_does f t ef1 et1 s1 Hf1 Ht1)
      as (st2 & Hdrop & Hcn & Hnc & Hpc & _).
    + rewrite Hsi. apply grow_strong_mem.
    + exact Hmem.
    + exists st2. split; [exact Hdrop |]. rewrite Hcn, Hnc, Hpc.
      subst s1. simpl. rewrite Hidf, Hidt.
      repeat split; try done.
      destruct (cn st) as [n s e w d]. unfold set_edges. simpl. f_equal.
      by apply delete_edge_fresh.
Qed.

(** A command with its output, declared and linked. *)
Definition two_nodes : State :=
  snd ((add_command Command None (PArgv ["ld"%string]) >>
        add_output None "a.out") (empty_state ∅)).

Lemma strong_edge_round_trip_witness :
  exists st1,
    add_strong_edge 1%nat 2%nat two_nodes = (Ok tt, st1) /\
    add_strong_edge 1%nat 2%nat st1 = (Raise IntegrityError, st1) /\
    exists st2,
      drop_strong_edge 1%nat 2%nat st1 = (Ok tt, st2) /\
      cn st2 = cn two_nodes /\
      node_cache_ st2 = node_cache_ two_nodes /\
      path_cache_ st2 = path_cache_ two_nodes.
Proof.
  eexists. split; [vm_compute; reflexivity |].
  apply (strong_edge_round_trip 1%nat 2%nat two_nodes).
  vm_compute. reflexivity.
Defined.

Lemma cache_ok_set_heap_alter (F : Entry -> Entry) (l : loc) (st : State) :
  (forall e, e_id (F e) = e_id e) ->
  cache_ok st -> cache_ok (set_heap (alter F l) st).
Proof.
  intros HF Hok id l' Hl'. destruct (Hok id l' Hl') as (e & He & Hid).
  simpl. destruct (decide (l = l')) as [-> | Hne].
  - exists (F e). rewrite lookup_alter_eq, He. split; [done |].
    by rewrite HF.
  - exists e. by rewrite lookup_alter_ne.
Qed.

Lemma cache_ok_set_cn (g : Conn -> Conn) (st : State) :
  cache_ok st -> cache_ok (set_cn g st).
Proof. intros Hok. exact Hok. Qed.

Lemma query_outgoing_memo (node : loc) (n : Entry) (st : State) :
  heap st !! node = Some n ->
  set_truthy (e_outgoing n) = true ->
  query_outgoing node st = (Ok (default [] (e_outgoing n)), st).
Proof.
  intros Hn Htr. unfold query_outgoing. rewrite (bind_deref node n) by done.
  by rewrite Htr.
Qed.

(** What [query_outgoing] needs of the state reached by declaring an
    edge from [f] to [t], to have [t] in its answer. *)
Lemma outgoing_has (f t : loc) (ef1 et : Entry) (st1 st2 : State)
    (outs : list loc) :
  cache_ok st1 ->
  heap st1 !! f = Some ef1 ->
  node_cache_ st1 !! e_id et = Some t ->
  (set_truthy (e_outgoing ef1) = true -> t ∈ default [] (e_outgoing ef1)) ->
  (e_id et, e_id ef1) ∈ edges (cn st1) \/
  (e_id et, e_id ef1) ∈ dynamic_edges (cn st1) ->
  query_outgoing f st1 = (Ok outs, st2) ->
  t ∈ outs.
Proof.
  intros Hok Hf Hc Hmem Hedge Hq.
  destruct (set_truthy (e_outgoing ef1)) eqn:Htr.
  - rewrite (query_outgoing_memo f ef1 st1 Hf Htr) in Hq.
    injection Hq as <- <-. by apply Hmem.
  - destruct (query_outgoing_fresh f ef1 st1 st2 outs Hok Hf Htr Hq)
      as (_ & Hgrows & _ & Hall & _).
    destruct (Hall _ Hedge) as (o & Ho & Hin).
    destruct Hgrows as (_ & _ & _ & Hcache).
    rewrite (Hcache _ _ Hc) in Ho. by injection Ho as <-.
Qed.

(** X19: an edge that was declared, strong or dynamic, shows in the outgoing
    set of its source: [query_outgoing] has the target in its answer,
    whether the set was loaded before the declaration or is loaded
    now. *)
Theorem declared_edge_is_outgoing (f t : loc) (et : Entry)
    (st st1 st2 : State) (outs : list loc) :
  cache_ok st ->
  heap st !! t = Some et ->
  node_cache_ st !! e_id et = Some t ->
  add_strong_edge f t st = (Ok tt, st1) \/
  add_dynamic_edge f t st = (Ok tt, st1) ->
  query_outgoing f st1 = (Ok outs, st2) ->
  t ∈ outs.
Proof.
  intros Hok Ht Hc [Hadd | Hadd] Hq.
  - destruct (add_strong_edge_run f t st st1 Hadd)
      as (ef & et' & Hf & Ht' & Hin & ->).
    rewrite Ht in Ht'. injection Ht' as <-.
    destruct (grown_entries grow_strong f t ef et (heap st)
                (grow_strong_same f) Hf Ht)
      as (ef1 & et1 & Hf1 & Ht1 & Hidf & Hidt & Hmem & _).
    match type of Hq with query_outgoing f ?s = _ => set (s1 := s) in * end.
    apply (outgoing_has f t ef1 et s1 st2 outs);
      [| exact Hf1 | exact Hc | exact Hmem | | exact Hq].
    + apply cache_ok_set_heap_alter; [intros e0; apply grow_outgoing_same |].
      apply cache_ok_set_heap_alter; [intros e0; apply grow_strong_same |].
      by apply cache_ok_set_cn.
    + left. simpl. rewrite Hidf. apply elem_of_app. right.
      by apply list_elem_of_singleton.
  - destruct (add_dynamic_edge_run f t st st1 Hadd)
      as (ef & et' & Hf & Ht' & Hin & ->).
    rewrite Ht in Ht'. injection Ht' as <-.
    destruct (grown_entries grow_dynamic f t ef et (heap st)
                (grow_dynamic_same f) Hf Ht)
      as (ef1 & et1 & Hf1 & Ht1 & Hidf & Hidt & Hmem & _).
    match type of Hq with query_outgoing f ?s = _ => set (s1 := s) in * end.
    apply (outgoing_has f t ef1 et s1 st2 outs);
      [| exact Hf1 | exact Hc | exact Hmem | | exact Hq].
    + apply cache_ok_set_heap_alter; [intros e0; apply grow_outgoing_same |].
      apply cache_ok_set_heap_alter; [intros e0; apply grow_dynamic_same |].
      by apply cache_ok_set_cn.
    + right. simpl. rewrite Hidf. apply elem_of_app. right.
      by apply list_elem_of_singleton.
Qed.

Definition linked : State := snd (add_strong_edge 1%nat 2%nat two_nodes).

Ltac cache_ok_by_listing st :=
  let Hl := fresh "Hl" in
  intros ? ? Hl; apply elem_of_map_to_list in Hl;
  let c := eval vm_compute in (map_to_list (node_cache_ st)) in
  change (map_to_list (node_cache_ st)) with c in Hl;
  repeat (apply elem_of_cons in Hl as [Hl | Hl]);
  try (injection Hl as -> ->; eexists; split; [vm_compute |]; reflexivity);
  by apply elem_of_nil in Hl.

Lemma two_nodes_cache_ok : cache_ok two_nodes.
Proof. cache_ok_by_listing two_nodes. Qed.

Lemma declared_edge_is_outgoing_witness :
  exists outs st2,
    query_outgoing 1%nat linked = (Ok outs, st2) /\ 2%nat ∈ outs.
Proof.
  eexists _, _. split; [vm_compute; reflexivity |].
  apply (declared_edge_is_outgoing 1%nat 2%nat
           (file_entry 2 Output "a.out") two_nodes linked
           (snd (query_outgoing 1%nat linked))).
  - exact two_nodes_cache_ok.
  - vm_compute. reflexivity.
  - vm_compute. reflexivity.
  - left. vm_compute. reflexivity.
  - vm_compute. reflexivity.
Defined.

(** *** Folders *)

Lemma count_folder_pos (c : Conn) (fid id : Z) (r : Row) :
  nodes c !! id = Some r -> r_folder r = Some fid ->
  (0 <? sql_count_folder c fid)%nat = true.
Proof.
  intros Hr Hf. unfold sql_count_folder.
  assert (Hin : (id, r) ∈ filter (fun ir => r_folder (snd ir) = Some fid)
                                 (map_to_list (nodes c))).
  { apply list_elem_of_filter. split; [exact Hf |].
    by apply elem_of_map_to_list. }
  destruct (filter _ _) as [| x l]; [by apply elem_of_nil in Hin |].
  reflexivity.
Qed.

Definition in_use_warning : string :=
  "is about to be deleted, but is still in use as a folder!".

Definition cannot_remove_warning : string := "Could not remove folder: ".

(** X20: [drop_folder] removes the directory before it looks for users
    of the folder.  For a folder that some node still names: when the
    directory is empty or missing, it is gone from the disk as the call
    raises "folder still in use!"; when the directory is not empty, the
    call raises the error of [os.rmdir], and the question of users is
    never reached.  The tables and the caches are as they were in both
    cases. *)
Theorem drop_folder_in_use (entry : loc) (e : Entry) (p : string)
    (id : Z) (r : Row) (st : State) :
  heap st !! entry = Some e ->
  e_type e = Mkdir ->
  e_path e = Some p ->
  os.isabs p = false ->
  nodes (cn st) !! id = Some r ->
  r_folder r = Some (e_id e) ->
  ((forall t, fs st !! p <> Some (FsFile t)) ->
   os.has_entries (fs st) p = false ->
   exists st',
     drop_folder entry st = (Raise folder_in_use, st') /\
     fs st' = delete p (fs st) /\
     cn st' = cn st /\ node_cache_ st' = node_cache_ st /\
     path_cache_ st' = path_cache_ st /\ heap st' = heap st /\
     con_err st' = con_err st ++ [in_use_warning]) /\
  ((exists t, fs st !! p = Some (FsDir t)) ->
   os.has_entries (fs st) p = true ->
   exists st',
     drop_folder entry st = (Raise (OSError ENOTEMPTY), st') /\
     fs st' = fs st /\
     cn st' = cn st /\ node_cache_ st' = node_cache_ st /\
     path_cache_ st' = path_cache_ st /\ heap st' = heap st /\
     con_err st' = con_err st ++ [cannot_remove_warning]).
Proof.
  intros He Hty Hp Habs Hr Hfolder.
  pose proof (count_folder_pos (cn st) (e_id e) id r Hr Hfolder) as Hcount.
  split.
  - intros Hfile Hempty.
    unfold drop_folder. rewrite (bind_deref entry e) by done.
    rewrite Hp. run_monad.
    rewrite bool_decide_eq_true_2 by done. simpl. rewrite Habs. simpl.
    unfold os.rmdir, os.exists_.
    destruct (fs st !! p) as [[t | t] |] eqn:Hfs.
    + by destruct (Hfile t).
    + rewrite bool_decide_eq_true_2 by eauto. simpl. rewrite Hfs, Hempty.
      simpl. rewrite Hcount. simpl. eexists. split; [reflexivity |]. done.
    + rewrite bool_decide_eq_false_2 by (intros [? ?]; discriminate). simpl.
      rewrite Hfs. simpl. rewrite Hcount. simpl.
      eexists. split; [reflexivity |]. simpl.
      rewrite delete_id by done. done.
  - intros [t Hfs] Hfull.
    unfold drop_folder. rewrite (bind_deref entry e) by done.
    rewrite Hp. run_monad.
    rewrite bool_decide_eq_true_2 by done. simpl. rewrite Habs. simpl.
    unfold os.rmdir, os.exists_. rewrite Hfs.
    rewrite bool_decide_eq_true_2 by eauto. simpl. rewrite Hfs, Hfull.
    simpl. eexists. split; [reflexivity |]. done.
Qed.

(** A folder [obj] with the output [obj/a.o] in it, the directory being
    on disk and empty, or holding the file of the output. *)
Definition folder_with (files : gmap string fsentry) : State :=
  snd ((let* d := add_file Mkdir "obj" false None in
        add_file Output "obj/a.o" false (Some d))
         (empty_state files)).
Definition folder_used : State := folder_with {[ "obj"%string := FsDir t7 ]}.
Definition folder_full : State :=
  folder_with {[ "obj"%string := FsDir t7; "obj/a.o"%string := FsFile t7 ]}.

Lemma drop_folder_in_use_witness :
  (exists st',
     drop_folder 1%nat folder_used = (Raise folder_in_use, st') /\
     fs st' = delete "obj"%string (fs folder_used) /\
     cn st' = cn folder_used /\ node_cache_ st' = node_cache_ folder_used /\
     path_cache_ st' = path_cache_ folder_used /\
     heap st' = heap folder_used /\
     con_err st' = con_err folder_used ++ [in_use_warning]) /\
  (exists st',
     drop_folder 1%nat folder_full = (Raise (OSError ENOTEMPTY), st') /\
     fs st' = fs folder_full /\
     cn st' = cn folder_full /\ node_cache_ st' = node_cache_ folder_full /\
     path_cache_ st' = path_cache_ folder_full /\
     heap st' = heap folder_full /\
     con_err st' = con_err folder_full ++ [cannot_remove_warning]).
Proof.
  split.
  - apply (drop_folder_in_use 1%nat (file_entry 1 Mkdir "obj") "obj" 2
             (mkRow Output f0 0 0 (Some "obj/a.o"%string) (Some 1) None)
             folder_used);
      [vm_compute; reflexivity | reflexivity | reflexivity | reflexivity
      | vm_compute; reflexivity | reflexivity
      | intros t; vm_compute; discriminate | vm_compute; reflexivity].
  - apply (drop_folder_in_use 1%nat (file_entry 1 Mkdir "obj") "obj" 2
             (mkRow Output f0 0 0 (Some "obj/a.o"%string) (Some 1) None)
             folder_full);
      [vm_compute; reflexivity | reflexivity | reflexivity | reflexivity
      | vm_compute; reflexivity | reflexivity
      | exists t7; vm_compute; reflexivity | vm_compute; reflexivity].
Defined.

(** The folder and its output, read again after the caches were
    flushed. *)
Definition reopened : State := snd (flush_caches folder_used).

Lemma reopened_cache_ok : cache_ok reopened.
Proof. cache_ok_by_listing reopened. Qed.

Lemma query_node_memoises_witness :
  exists l st1,
    query_node 2 reopened = (Ok l, st1) /\
    query_node 2 st1 = (Ok l, st1) /\ cn st1 = cn reopened /\
    (exists e, heap st1 !! l = Some e /\ e_id e = 2) /\
    query_node 7 reopened = (Raise TypeError, reopened).
Proof.
  destruct (query_node_memoises 2 reopened reopened_cache_ok) as [H1 _].
  destruct (query_node_memoises 7 reopened reopened_cache_ok) as [_ H2].
  assert (Hq : query_node 2 reopened
               = (Ok 4%nat, snd (query_node 2 reopened)))
    by (vm_compute; reflexivity).
  exists 4%nat, (snd (query_node 2 reopened)).
  destruct (H1 _ _ Hq) as (A & B & C).
  split; [exact Hq |]. split; [exact A |]. split; [exact B |].
  split; [exact C |].
  apply H2; vm_compute; reflexivity.
Defined.

(** *** Declaring a path again *)

Lemma add_file_returns (ty : NodeType) (path : string) (generated : bool)
    (st : State) :
  node_cache_ st !! (seq (cn st) + 1) = None ->
  path_cache_ st !! path = None ->
  exists st',
    add_file ty path generated None st = (Ok (fresh_loc (heap st)), st').
Proof.
  intros Hid Hp.
  unfold add_file, import_node, import_node_with, sql_insert_node, alloc.
  run_monad. rewrite Hid. simpl.
  destruct path as [| c path]; simpl; [by eexists |].
  rewrite Hp. simpl. by eexists.
Qed.

(** X22: a path that was dropped cannot be declared again as it stands:
    the path cache still has it, so [add_output] refuses and changes
    nothing; once the caches are flushed the same declaration goes
    through, and the path then names the new entry. *)
Theorem dropped_path_needs_flush (entry : loc) (e : Entry) (p : string)
    (st : State) :
  heap st !! entry = Some e ->
  is_Some (node_cache_ st !! e_id e) ->
  path_cache_ st !! p = Some entry ->
  p <> ""%string ->
  os.isabs p = false ->
  exists st1,
    drop_entry entry st = (Ok tt, st1) /\
    add_output None p st1 = (Raise AssertionError, st1) /\
    exists l st2,
      (flush_caches >> add_output None p) st1 = (Ok l, st2) /\
      l <> entry /\
      query_path p st2 = (Ok (Some l), st2).
Proof.
  intros He Hc Hp Hne Habs. exists (dropped (e_id e) st).
  split; [by apply drop_entry_run |]. split.
  - unfold add_output. rewrite bind_get. unfold bind, assert.
    rewrite bool_decide_eq_false_2; [reflexivity |].
    change (path_cache_ (dropped (e_id e) st)) with (path_cache_ st).
    by rewrite Hp.
  - unfold flush_caches. rewrite bind_assoc, !bind_modify.
    set (st1 := set_path_cache _ _).
    destruct (add_file_returns Output p false st1) as (st2 & Hadd);
      [reflexivity | reflexivity |].
    exists (fresh_loc (heap st1)), st2. split; [| split].
    + unfold add_output. rewrite bind_get. unfold bind at 1, assert at 1.
      rewrite bool_decide_eq_true_2 by reflexivity. unfold ret at 1.
      unfold bind at 1, assert at 1. rewrite Habs. exact Hadd.
    + intros Heq. pose proof (fresh_loc_fresh (heap st1)) as Hfresh.
      rewrite Heq in Hfresh.
      change (heap st1) with (heap st) in Hfresh. congruence.
    + destruct (add_file_run _ _ _ _ _ _ Hadd)
        as (_ & _ & _ & _ & _ & _ & Hpc).
      destruct (Hpc Hne) as [_ Hpc2]. apply query_path_cached.
      by rewrite Hpc2, lookup_insert_eq.
Qed.

Lemma dropped_path_needs_flush_witness :
  exists st1,
    drop_entry 1%nat missing_output = (Ok tt, st1) /\
    add_output None "a.o" st1 = (Raise AssertionError, st1) /\
    exists l st2,
      (flush_caches >> add_output None "a.o") st1 = (Ok l, st2) /\
      l <> 1%nat /\
      query_path "a.o" st2 = (Ok (Some l), st2).
Proof.
  apply (dropped_path_needs_flush 1%nat a_o "a.o" missing_output).
  - vm_compute. reflexivity.
  - vm_compute. eauto.
  - vm_compute. reflexivity.
  - discriminate.
  - reflexivity.
Defined.

(** *** The id cache stays coherent *)

(** A computation keeps the id cache coherent, whether it returns or
    raises. *)
Definition kept {A} (c : M State A) : Prop :=
  forall st, cache_ok st -> cache_ok (snd (c st)).

Lemma kept_ret {A} (a : A) : kept (ret a).
Proof. by intros st H. Qed.
Lemma kept_raise {A} (e : exn) : kept (raise (A := A) e).
Proof. by intros st H. Qed.
Lemma kept_get : kept get.
Proof. by intros st H. Qed.
Lemma kept_assert (b : bool) : kept (assert b).
Proof. destruct b; by intros st H. Qed.
Lemma kept_deref (l : loc) : kept (deref l).
Proof. intros st H. unfold deref. by destruct (heap st !! l). Qed.

Lemma kept_bind {A B} (c : M State A) (k : A -> M State B) :
  kept c -> (forall a, kept (k a)) -> kept (bind c k).
Proof.
  intros Hc Hk st Hok. unfold bind. specialize (Hc st Hok).
  destruct (c st) as [[a | e] st1]; simpl in *; [| exact Hc].
  by apply Hk.
Qed.

Lemma kept_for_each {A} (xs : list A) (body : A -> M State unit) :
  (forall x, kept (body x)) -> kept (for_each xs body).
Proof.
  intros Hb. induction xs as [| x xs IH]; simpl.
  - apply kept_ret.
  - apply kept_bind; [apply Hb | intros _; exact IH].
Qed.

Lemma kept_modify (g : State -> State) :
  (forall st, node_cache_ (g st) = node_cache_ st /\ heap (g st) = heap st) ->
  kept (modify g).
Proof.
  intros Hg st Hok id l. simpl. destruct (Hg st) as [-> ->]. apply Hok.
Qed.

Lemma kept_update_entry (l : loc) (F : Entry -> Entry) :
  (forall e, e_id (F e) = e_id e) -> kept (update_entry l F).
Proof. intros HF st Hok. by apply cache_ok_set_heap_alter. Qed.

Lemma kept_uncache (g : gmap Z loc -> gmap Z loc) :
  (forall m id l, g m !! id = Some l -> m !! id = Some l) ->
  kept (modify (set_node_cache g)).
Proof. intros Hg st Hok id l Hl. simpl in *. by apply Hok, Hg. Qed.

(** A new entry object that is cached under its own id. *)
Lemma kept_alloc {A} (e : Entry) (k : loc -> M State A) :
  (forall l, kept (k l)) ->
  kept (let* node := alloc e in
        modify (set_node_cache (insert (e_id e) node)) >> k node).
Proof.
  intros Hk st Hok. unfold alloc. unfold bind at 1. rewrite bind_modify.
  apply Hk. intros id l. simpl.
  destruct (decide (id = e_id e)) as [-> | Hne].
  - rewrite lookup_insert_eq. intros [= <-]. exists e.
    by rewrite lookup_insert_eq.
  - rewrite lookup_insert_ne by done. intros Hl.
    destruct (Hok id l Hl) as (e' & He' & Hid). exists e'. split; [| done].
    rewrite lookup_insert_ne; [done |].
    intros <-. by rewrite fresh_loc_fresh in He'.
Qed.

Lemma kept_import_node_with (q : Z -> M State loc) (id : Z) (row : irow) :
  (forall f, kept (q f)) -> kept (import_node_with q id row).
Proof.
  intros Hq. unfold import_node_with.
  apply kept_bind; [apply kept_get | intros s].
  apply kept_bind; [apply kept_assert | intros _].
  apply kept_bind.
  { destruct (i_folder row) as [| f | l]; try apply kept_ret.
    destruct (f =? 0); [apply kept_ret |].
    apply kept_bind; [apply Hq | intros l; apply kept_ret]. }
  intros folder.
  apply (kept_alloc (mkEntry id _ _ _ _ _ _ _ _ _ _ _)). intros node.
  apply kept_bind; [| intros _; apply kept_ret].
  destruct (str_truthy (i_path row)); [| apply kept_ret].
  apply kept_bind; [apply kept_get | intros s'].
  apply kept_bind; [apply kept_assert | intros _].
  by apply kept_modify.
Qed.

Lemma kept_query_node_fuel (fuel : nat) : forall id,
  kept (query_node_fuel fuel id).
Proof.
  induction fuel as [| fuel IH]; intros id st Hok; simpl.
  - by destruct (node_cache_ st !! id).
  - destruct (node_cache_ st !! id); [done |].
    destruct (nodes (cn st) !! id); [| done].
    by apply kept_import_node_with.
Qed.

Lemma kept_query_node (id : Z) : kept (query_node id).
Proof. intros st. apply kept_query_node_fuel. Qed.

Lemma kept_import_node (id : Z) (row : irow) : kept (import_node id row).
Proof.
  intros st. apply kept_import_node_with. intros f. apply kept_query_node_fuel.
Qed.

(** One step of a proof that a method keeps the cache coherent. *)
Ltac kept_step :=
  first
    [ apply kept_ret | apply kept_raise | apply kept_get | apply kept_assert
    | apply kept_deref | apply kept_query_node | apply kept_import_node
    | apply kept_update_entry; intros ?; reflexivity
    | apply kept_modify; intros ?; split; reflexivity
    | apply kept_uncache; intros ? ? ?;
      first [ by rewrite lookup_empty
            | intros [_ ?]%lookup_delete_Some; assumption ]
    | apply kept_for_each; intros ?
    | apply kept_bind; [| intros ?]
    | match goal with
      | |- kept (if ?b then _ else _) => destruct b
      | |- kept (match ?x with _ => _ end) => destruct x
      end ].

Lemma kept_add_file ty path generated folder :
  kept (add_file ty path generated folder).
Proof. unfold add_file, sql_insert_node. repeat kept_step.
  all: try (intros st Hok; exact Hok). Qed.

Ltac kept_auto := repeat kept_step; try (intros ? Hok; exact Hok).

Lemma kept_add_output folder path : kept (add_output folder path).
Proof.
  unfold add_output. kept_auto. all: apply kept_add_file.
Qed.
Lemma kept_add_source path generated : kept (add_source path generated).
Proof.
  unfold add_source. kept_auto. all: apply kept_add_file.
Qed.
Lemma kept_query_path path : kept (query_path path).
Proof. unfold query_path. kept_auto. Qed.
Lemma kept_find_or_add_source path : kept (find_or_add_source path).
Proof.
  unfold find_or_add_source.
  apply kept_bind; [apply kept_query_path | intros [n |]].
  - kept_auto.
  - apply kept_add_source.
Qed.
Lemma kept_add_command ty folder data : kept (add_command ty folder data).
Proof.
  unfold add_command, sql_insert_node.
  apply kept_bind; [kept_auto | intros folder_id].
  apply kept_bind; [intros ? Hok; exact Hok | intros id].
  apply (kept_alloc (mkEntry id _ _ _ _ _ _ _ _ _ _ _)). intros l.
  apply kept_ret.
Qed.
Lemma kept_update_command entry ty folder data refactoring :
  kept (update_command entry ty folder data refactoring).
Proof. unfold update_command, sql_update_command. kept_auto. Qed.
Lemma kept_add_weak_edge f t : kept (add_weak_edge f t).
Proof. unfold add_weak_edge, sql_insert_edge. kept_auto. Qed.
Lemma kept_add_strong_edge f t : kept (add_strong_edge f t).
Proof. unfold add_strong_edge, sql_insert_edge. kept_auto. Qed.
Lemma kept_add_dynamic_edge f t : kept (add_dynamic_edge f t).
Proof. unfold add_dynamic_edge, sql_insert_edge. kept_auto. Qed.
Lemma kept_drop_strong_edge f t : kept (drop_strong_edge f t).
Proof. unfold drop_strong_edge. kept_auto. Qed.
Lemma kept_query_outgoing node : kept (query_outgoing node).
Proof. unfold query_outgoing, outgoing_add. kept_auto. Qed.
Lemma kept_mark_dirty k entry : kept (mark_dirty k entry).
Proof. unfold mark_dirty. kept_auto. Qed.
Lemma kept_unmark_dirty entry stamp : kept (unmark_dirty entry stamp).
Proof.
  unfold unmark_dirty, sql_unmark. kept_auto.
  all: intros st Hok; by repeat case_match.
Qed.
Lemma kept_drop_entry entry : kept (drop_entry entry).
Proof. unfold drop_entry. kept_auto. Qed.
Lemma kept_drop_output output : kept (drop_output output).
Proof. unfold drop_output. kept_auto. all: apply kept_drop_entry. Qed.
Lemma kept_drop_folder entry : kept (drop_folder entry).
Proof. unfold drop_folder. kept_auto. all: apply kept_drop_entry. Qed.
Lemma kept_drop_command cmd : kept (drop_command cmd).
Proof.
  unfold drop_command.
  apply kept_bind; [apply kept_query_outgoing | intros outs].
  apply kept_bind; [| intros _; apply kept_drop_entry].
  apply kept_for_each. intros output. kept_auto.
Qed.
Lemma kept_flush_caches : kept flush_caches.
Proof. unfold flush_caches. kept_auto. Qed.

(** The calls a client can make. *)
Inductive call :=
  | AddFile (ty : NodeType) (path : string) (generated : bool)
            (folder : option loc)
  | AddOutput (path : string)
  | AddSource (path : string) (generated : bool)
  | FindOrAddSource (path : string)
  | AddGroup (name : string)
  | FindGroup (name : string)
  | DropGroup (group : loc)
  | AddCommand (ty : NodeType) (folder : option loc) (data : payload)
  | UpdateCommand (entry : loc) (ty : NodeType) (folder : option loc)
                  (data : payload) (refactoring : bool)
  | AddWeakEdge (f t : loc)
  | AddStrongEdge (f t : loc)
  | AddDynamicEdge (f t : loc)
  | DropStrongEdge (f t : loc)
  | QueryNode (id : Z)
  | QueryPath (path : string)
  | QueryOutgoing (node : loc)
  | MarkDirty (KnownDirty : Z) (entry : loc)
  | UnmarkDirty (entry : loc) (stamp : option float)
  | DropEntry (entry : loc)
  | DropOutput (output : loc)
  | DropFolder (entry : loc)
  | DropCommand (cmd : loc)
  | FlushCaches.

(** The state a call leaves, whether it returns or raises. *)
Definition after (c : call) (st : State) : State :=
  match c with
  | AddFile ty path generated folder => snd (add_file ty path generated folder st)
  | AddOutput path => snd (add_output None path st)
  | AddSource path generated => snd (add_source path generated st)
  | FindOrAddSource path => snd (find_or_add_source path st)
  | AddGroup name => snd (add_group name st)
  | FindGroup name => snd (find_group name st)
  | DropGroup group => snd (drop_group group st)
  | AddCommand ty folder data => snd (add_command ty folder data st)
  | UpdateCommand entry ty folder data refactoring =>
      snd (update_command entry ty folder data refactoring st)
  | AddWeakEdge f t => snd (add_weak_edge f t st)
  | AddStrongEdge f t => snd (add_strong_edge f t st)
  | AddDynamicEdge f t => snd (add_dynamic_edge f t st)
  | DropStrongEdge f t => snd (drop_strong_edge f t st)
  | QueryNode id => snd (query_node id st)
  | QueryPath path => snd (query_path path st)
  | QueryOutgoing node => snd (query_outgoing node st)
  | MarkDirty k entry => snd (mark_dirty k entry st)
  | UnmarkDirty entry stamp => snd (unmark_dirty entry stamp st)
  | DropEntry entry => snd (drop_entry entry st)
  | DropOutput output => snd (drop_output output st)
  | DropFolder entry => snd (drop_folder entry st)
  | DropCommand cmd => snd (drop_command cmd st)
  | FlushCaches => snd (flush_caches st)
  end.

Lemma after_kept (c : call) (st : State) : cache_ok st -> cache_ok (after c st).
Proof.
  destruct c; simpl.
  - apply kept_add_file.
  - apply kept_add_output.
  - apply kept_add_source.
  - apply kept_find_or_add_source.
  - apply kept_add_file.
  - apply kept_query_path.
  - apply kept_drop_entry.
  - apply kept_add_command.
  - apply kept_update_command.
  - apply kept_add_weak_edge.
  - apply kept_add_strong_edge.
  - apply kept_add_dynamic_edge.
  - apply kept_drop_strong_edge.
  - apply kept_query_node.
  - apply kept_query_path.
  - apply kept_query_outgoing.
  - apply kept_mark_dirty.
  - apply kept_unmark_dirty.
  - apply kept_drop_entry.
  - apply kept_drop_output.
  - apply kept_drop_folder.
  - apply kept_drop_command.
  - apply kept_flush_caches.
Qed.

Lemma after_all_kept (cs : list call) : forall st,
  cache_ok st -> cache_ok (foldl (fun st c => after c st) st cs).
Proof.
  induction cs as [| c cs IH]; intros st Hok; simpl; [exact Hok |].
  by apply IH, after_kept.
Qed.

Lemma empty_state_cache_ok files : cache_ok (empty_state files).
Proof. intros id l Hl. simpl in Hl. by rewrite lookup_empty in Hl. Qed.

(** X21: from an empty database, whatever is called and in whatever order,
    and whether the calls return or raise, the id cache stays coherent:
    every id it holds names a live entry, and that entry has this id. *)
Theorem cache_ok_always (files : gmap string fsentry) (cs : list call) :
  cache_ok (foldl (fun st c => after c st) (empty_state files) cs).
Proof. apply after_all_kept, empty_state_cache_ok. Qed.

End store_facts.
